(** * fab: the PSyclone step and the combo hashes of the prebuild store

    A shallow embedding of [source/fab/steps/psyclone.py] (the PSyclone
    code-generation step), of [source/fab/build_config.py] (the folders and
    the artefact store that the step uses, the process count, the steps of a
    run and the flags of a path), of the labels and steps of the gcom run
    configurations in [run_configs/gcom], and of the combo hashes that
    [tests/unit_tests/steps/test_compile_fortran.py] pins down for
    [CompileFortran.process_file].

    Conventions.
    - Python [int] is [Z]; sums are not reduced (Python integers are unbounded).
    - A Python [str] that is hashed or used as a name is a [string] holding its
      UTF-8 bytes; the text of an x90 file is a [list ascii], one element per
      character, for texts whose code points are below 256.
    - A [pathlib.Path] is the list of its parts; the last part is the name.
    - A [dict] is a [gmap], a [set] a [gset]; a set is iterated in the order of
      [elements].
    - A function that can raise returns a [result]; the filesystem, the set
      [CURRENT_PREBUILDS] and the log are threaded through the step as a
      [World]. *)

From Stdlib Require Import ZArith List Ascii String Lia Bool DecimalString DecimalPos DecimalZ.
From stdpp Require Import gmap strings list fin_maps fin_sets.

Open Scope Z_scope.

Abbreviation Path := (list string).

(** ** Exceptions and results *)

#[warnings="-register-all"] Inductive exn : Type :=
| KeyError
| TypeError (msg : string)
| ValueError (msg : string)
| AssertionError (msg : string)
| FileNotFoundError (p : Path)
| AnalyseError (p : Path)
| ToolError (msg : string)
| RuntimeError (errors : list exn).

Definition result (A : Type) : Type := exn + A.

Definition ok {A} (a : A) : result A := inr a.
Definition raise {A} (e : exn) : result A := inl e.

Definition rbind {A B} (m : result A) (f : A → result B) : result B :=
  match m with
  | inl e => inl e
  | inr a => f a
  end.

Notation "'let?' x := m 'in' k" := (rbind m (fun x => k))
  (at level 10, x pattern, m at level 100, k at level 200).

Fixpoint rmapM {A B} (f : A → result B) (l : list A) : result (list B) :=
  match l with
  | [] => ok []
  | a :: l' => let? b := f a in let? bs := rmapM f l' in ok (b :: bs)
  end.

(** [d[k]]: a missing key raises [KeyError]. *)
Definition getitem `{Countable K} {V} (d : gmap K V) (k : K) : result V :=
  match d !! k with
  | Some v => ok v
  | None => raise KeyError
  end.

(** ** Python built-ins used by the step *)

Module Py.

(** [sum(xs)]: left fold of [+] from [0]. *)
Definition sum (xs : list Z) : Z := fold_left Z.add xs 0.

(** [str(n)] for an [int]: decimal digits, with a sign when negative. *)
Definition str_int (n : Z) : string := NilZero.string_of_int (Z.to_int n).

(** [int(s)] of a decimal numeral. *)
Definition int_of_str (s : string) : option Z :=
  option_map Z.of_int (NilZero.int_of_string s).

(** [f'{n:x}']: lowercase hexadecimal digits. *)
Definition hex_digit (d : Z) : ascii :=
  ascii_of_N (Z.to_N (if d <? 10 then 48 + d else 87 + d)).

Fixpoint hex_digits (fuel : nat) (n : Z) (acc : list ascii) : list ascii :=
  match fuel with
  | O => acc
  | S fuel' =>
      let acc' := hex_digit (n mod 16) :: acc in
      if n / 16 =? 0 then acc' else hex_digits fuel' (n / 16) acc'
  end.

Definition format_x (n : Z) : string :=
  if n <? 0
  then String "-" (string_of_list_ascii (hex_digits (S (Z.to_nat (Z.log2 (- n)))) (- n) []))
  else string_of_list_ascii (hex_digits (S (Z.to_nat (Z.log2 n))) n []).

Definition contains (c : ascii) (s : string) : bool :=
  existsb (Ascii.eqb c) (list_ascii_of_string s).

Definition squote : ascii := ascii_of_nat 39.
Definition dquote : ascii := ascii_of_nat 34.
Definition backslash : ascii := ascii_of_nat 92.

(** [repr(s)] for a [str].  The quote is the single quote unless the string
    holds a single quote and no double quote; the quote and the backslash are
    escaped, tab, newline and carriage return are written with their letter,
    the other control characters as xNN; bytes above 127 belong to non-ASCII
    characters, which are taken to be printable and are kept. *)
Definition repr_char (quote : ascii) (c : ascii) : list ascii :=
  let n := Z.of_N (N_of_ascii c) in
  if Ascii.eqb c quote || Ascii.eqb c backslash then [backslash; c]
  else if n =? 9 then [backslash; "t"%char]
  else if n =? 10 then [backslash; "n"%char]
  else if n =? 13 then [backslash; "r"%char]
  else if (n <? 32) || (n =? 127)
       then [backslash; "x"%char; hex_digit (n / 16); hex_digit (n mod 16)]
  else [c].

Definition repr_str (s : string) : string :=
  let quote : ascii :=
    if contains squote s && negb (contains dquote s) then dquote else squote in
  string_of_list_ascii
    (quote :: flat_map (repr_char quote) (list_ascii_of_string s) ++ [quote]).

Fixpoint join (sep : string) (l : list string) : string :=
  match l with
  | [] => EmptyString
  | [x] => x
  | x :: l' => x +:+ sep +:+ join sep l'
  end.

(** [str(l)] for a list of [str]. *)
Definition str_list (l : list string) : string :=
  "[" +:+ join ", " (map repr_str l) +:+ "]".

End Py.

(** ** Checksums ([fab.util]) *)

Module Hashing.

(** Modelled from the spec: [fab.util.string_checksum] and
    [fab.util.file_checksum] are not among the sources; section 4.1 has them as
    a CRC32 checksum of the UTF-8 bytes of a string and of the bytes of a file.
    This is the CRC-32 of zlib (reflected polynomial, initial value and final
    complement [0xFFFFFFFF]), bit by bit. *)
Definition crc32_poly : Z := 0xEDB88320.

Fixpoint crc32_shift (n : nat) (c : Z) : Z :=
  match n with
  | O => c
  | S n' =>
      crc32_shift n'
        (if Z.odd c then Z.lxor (Z.shiftr c 1) crc32_poly else Z.shiftr c 1)
  end.

Definition crc32_byte (crc : Z) (b : ascii) : Z :=
  crc32_shift 8 (Z.lxor crc (Z.of_N (N_of_ascii b))).

Definition crc32 (s : string) : Z :=
  Z.lxor (fold_left crc32_byte (list_ascii_of_string s) 0xFFFFFFFF) 0xFFFFFFFF.

Definition string_checksum (s : string) : Z := crc32 s.

(** Modelled from the spec: [fab.util.flags_checksum], the string checksum of
    the flags list (section 4.6: callers hash the result of [flags_for_path]). *)
Definition flags_checksum (flags : list string) : Z :=
  string_checksum (Py.str_list flags).

(** The spec's [combine] (section 4.1), in the spec's words: integer sum
    mod 2^32.  The code never calls such a function; it is here to be
    compared with what the code computes. *)
Definition combine_spec (hashes : list Z) : Z := Py.sum hashes mod 2 ^ 32.

End Hashing.

(** ** Paths ([pathlib]) *)

Module PathLib.

(** [name.rfind('.')]; [None] stands for -1. *)
Fixpoint rfind_dot (s : string) : option nat :=
  match s with
  | EmptyString => None
  | String c s' =>
      match rfind_dot s' with
      | Some i => Some (S i)
      | None => if Ascii.eqb c "." then Some O else None
      end
  end.

(** The index of the dot that starts the suffix: [0 < i < len(name) - 1]. *)
Definition suffix_index (nm : string) : option nat :=
  match rfind_dot nm with
  | Some i =>
      if (0 <? i)%nat && (i <? String.length nm - 1)%nat then Some i else None
  | None => None
  end.

Definition name (p : Path) : string := List.last p EmptyString.

Definition parent (p : Path) : Path := removelast p.

(** [p / n] for a name [n] without separator. *)
Definition joinpath (p : Path) (n : string) : Path := p ++ [n].

Definition suffix (p : Path) : string :=
  let nm := name p in
  match suffix_index nm with
  | Some i => substring i (String.length nm - i) nm
  | None => EmptyString
  end.

Definition stem (p : Path) : string :=
  let nm := name p in
  match suffix_index nm with
  | Some i => substring 0 i nm
  | None => nm
  end.

Definition starts_with_dot (s : string) : bool :=
  match s with
  | String c _ => Ascii.eqb c "."
  | EmptyString => false
  end.

Definition with_suffix (p : Path) (sfx : string) : result Path :=
  if Py.contains "/" sfx then raise (ValueError "Invalid suffix")
  else if (negb (String.eqb sfx EmptyString) && negb (starts_with_dot sfx))
          || String.eqb sfx "."
  then raise (ValueError "Invalid suffix")
  else
    let nm := name p in
    if String.eqb nm EmptyString then raise (ValueError "empty name")
    else
      let old_suffix := suffix p in
      let nm' :=
        if String.eqb old_suffix EmptyString then nm +:+ sfx
        else substring 0 (String.length nm - String.length old_suffix) nm +:+ sfx in
      ok (joinpath (parent p) nm').

(** A suffix that [with_suffix] accepts. *)
Definition accepted_suffix (sfx : string) : Prop :=
  Py.contains "/" sfx = false
  ∧ ((negb (String.eqb sfx EmptyString) && negb (starts_with_dot sfx))
     || String.eqb sfx ".") = false.

(** [str(p)]: the parts joined by the separator, after the root if the
    path has one; the path without parts is the current folder. *)
Definition str_path (p : Path) : string :=
  match p with
  | [] => "."
  | root :: parts =>
      if String.eqb root "/" then "/" +:+ Py.join "/" parts else Py.join "/" p
  end.

End PathLib.

(** ** Making an x90 parsable: the regular expression and the rewrite *)

Module X90.

Abbreviation text := (list ascii).

Definition chars (s : string) : text := list_ascii_of_string s.

Definition newline : ascii := ascii_of_nat 10.
Definition bang : ascii := ascii_of_nat 33.

(** [str.isspace] of one character, which is also the class [\s] of [re] on a
    [str] pattern, for code points below 256: tab to carriage return, the four
    separators 28..31, the space, NEL and the no-break space. *)
Definition is_space (c : ascii) : bool :=
  let n := N_of_ascii c in
  ((9 <=? n) && (n <=? 13) || (28 <=? n) && (n <=? 32)
   || (n =? 133) || (n =? 160))%N.

(** The fragment of [re] that the pattern uses: literal text, a greedy
    repetition of a character class, concatenation, alternation and a
    group.  The group's capture only feeds the debug log of the names
    removed, so it is not recorded. *)
Inductive regex : Type :=
| Lit (s : text)
| Star (cls : ascii → bool)
| Plus (cls : ascii → bool)
| Cat (r1 r2 : regex)
| Alt (r1 r2 : regex)
| Group (r : regex).

Infix "⋅" := Cat (at level 41, right associativity).

Definition WHITE_class (c : ascii) : bool := is_space c || Ascii.eqb c "&".
Definition not_char (q : ascii) (c : ascii) : bool := negb (Ascii.eqb c q).

Definition WHITE : regex := Plus WHITE_class.
Definition OPT_WHITE : regex := Star WHITE_class.

Definition SQ_STRING : regex := Lit [Py.squote] ⋅ Star (not_char Py.squote) ⋅ Lit [Py.squote].
Definition DQ_STRING : regex := Lit [Py.dquote] ⋅ Star (not_char Py.dquote) ⋅ Lit [Py.dquote].
Definition STRING : regex := Group (Alt SQ_STRING DQ_STRING).

Definition NAME_KEYWORD : regex :=
  Lit (chars "name") ⋅ OPT_WHITE ⋅ Lit (chars "=") ⋅ OPT_WHITE ⋅ STRING ⋅ OPT_WHITE
  ⋅ Lit (chars ",") ⋅ OPT_WHITE.
Definition NAMED_INVOKE : regex :=
  Lit (chars "call") ⋅ WHITE ⋅ Lit (chars "invoke") ⋅ OPT_WHITE ⋅ Lit (chars "(") ⋅ OPT_WHITE
  ⋅ NAME_KEYWORD.

(** Backtracking matching as [re] does it: the continuation [k] is the rest
    of the pattern; a repetition takes as many characters as it can and gives
    them back one by one while the rest fails; an alternation tries its left
    branch first.  The result is what [k] returns on the text left over. *)
Fixpoint strip_prefix (l s : text) : option text :=
  match l, s with
  | [], _ => Some s
  | a :: l', c :: s' => if Ascii.eqb a c then strip_prefix l' s' else None
  | _ :: _, [] => None
  end.

Fixpoint star_match {R} (cls : ascii → bool) (s : text) (k : text → option R) : option R :=
  match s with
  | c :: s' =>
      if cls c
      then match star_match cls s' k with
           | Some r => Some r
           | None => k s
           end
      else k s
  | [] => k []
  end.

Fixpoint rmatch {R} (r : regex) (s : text) (k : text → option R) : option R :=
  match r with
  | Lit l => match strip_prefix l s with Some s' => k s' | None => None end
  | Star cls => star_match cls s k
  | Plus cls =>
      match s with
      | c :: s' => if cls c then star_match cls s' k else None
      | [] => None
      end
  | Cat r1 r2 => rmatch r1 s (fun s' => rmatch r2 s' k)
  | Alt r1 r2 =>
      match rmatch r1 s k with
      | Some x => Some x
      | None => rmatch r2 s k
      end
  | Group r' => rmatch r' s k
  end.

(** [pattern.match(s)] at the start of [s]: the text after the match. *)
Definition match_at (pattern : regex) (s : text) : option text := rmatch pattern s Some.

(** [pattern.sub(repl, s)] for a pattern that matches no empty text: scan from
    the left; at a match write [repl] and go on after the match, otherwise
    copy one character.  The scan is bounded by the length of the text. *)
Fixpoint sub_fuel (fuel : nat) (pattern : regex) (repl s : text) : text :=
  match fuel with
  | O => s
  | S fuel' =>
      match s with
      | [] => []
      | c :: s' =>
          match match_at pattern s with
          | Some rest => repl ++ sub_fuel fuel' pattern repl rest
          | None => c :: sub_fuel fuel' pattern repl s'
          end
      end
  end.

Definition sub (pattern : regex) (repl s : text) : text :=
  sub_fuel (length s) pattern repl s.

(** [f.readlines()]: the lines, each with its newline. *)
Fixpoint readlines (s : text) : list text :=
  match s with
  | [] => []
  | c :: s' =>
      if Ascii.eqb c newline then [c] :: readlines s'
      else match readlines s' with
           | [] => [[c]]
           | l :: ls => (c :: l) :: ls
           end
  end.

Fixpoint lstrip (l : text) : text :=
  match l with
  | c :: l' => if is_space c then lstrip l' else l
  | [] => []
  end.

Definition startswith_bang (l : text) : bool :=
  match l with
  | c :: _ => Ascii.eqb c bang
  | [] => false
  end.

(** [line.lstrip().startswith('!')] *)
Definition is_comment_line (line : text) : bool := startswith_bang (lstrip line).

Definition keep_line (line : text) : bool := negb (is_comment_line line).

Definition no_comment_lines (src_lines : list text) : list text :=
  filter (fun line => negb (is_comment_line line)) src_lines.

Definition repl : text := chars "call invoke(".

(** The source without its comment lines: [''.join(no_comment_lines)]. *)
Definition strip_comments (src_text : text) : text :=
  concat (no_comment_lines (readlines src_text)).

(** The text that [make_parsable_x90] writes for the text it reads. *)
Definition make_parsable_text (src_text : text) : text :=
  let src_lines := readlines src_text in
  let src := concat (no_comment_lines src_lines) in
  sub NAMED_INVOKE repl src.

(** Text mode reading ([newline=None]): [\r\n] and a lone [\r] become [\n]. *)
Fixpoint universal_newlines (s : text) : text :=
  match s with
  | c :: s' =>
      if Ascii.eqb c (ascii_of_nat 13)
      then match s' with
           | c' :: s'' =>
               if Ascii.eqb c' newline then newline :: universal_newlines s''
               else newline :: universal_newlines s'
           | [] => [newline]
           end
      else c :: universal_newlines s'
  | [] => []
  end.

(** *** What the claims about the rewrite are stated with *)

(** A named invoke, in the spec's words: [call invoke( name = "...",] with
    the name keyword separated by whitespace or continuation marks and the
    string in single or double quotes. *)
Definition named_invoke_text (w1 w2 w3 w4 w5 : text) (q : ascii) (body w6 w7 : text) : text :=
  chars "call" ++ w1 ++ chars "invoke" ++ w2 ++ chars "(" ++ w3 ++ chars "name" ++ w4
  ++ chars "=" ++ w5 ++ [q] ++ body ++ [q] ++ w6 ++ chars "," ++ w7.

Definition all_white (w : text) : Prop := Forall (fun c => WHITE_class c = true) w.

Definition named_invoke (m : text) : Prop :=
  ∃ w1 w2 w3 w4 w5 q body w6 w7,
    m = named_invoke_text w1 w2 w3 w4 w5 q body w6 w7
    ∧ w1 ≠ [] ∧ all_white w1 ∧ all_white w2 ∧ all_white w3 ∧ all_white w4 ∧ all_white w5
    ∧ all_white w6 ∧ all_white w7
    ∧ (q = Py.squote ∨ q = Py.dquote)
    ∧ Forall (fun c => c ≠ q) body.

(** The text does not go on with a character of the class. *)
Definition not_starting (cls : ascii → bool) (s : text) : Prop :=
  match s with
  | c :: _ => cls c = false
  | [] => True
  end.

(** Some position of the text starts a match of the pattern. *)
Fixpoint has_match (pattern : regex) (s : text) : bool :=
  match s with
  | [] => false
  | _ :: s' =>
      match match_at pattern s with
      | Some _ => true
      | None => has_match pattern s'
      end
  end.

(** Reading a text character by character: at the start of a line (only
    whitespace so far) or inside it.  [no_comment st s] says that, from the
    state [st], no line of [s] has [!] as its first non-whitespace character. *)
Inductive line_state : Type := LineStart | InLine.

Definition line_step (st : line_state) (c : ascii) : option line_state :=
  if Ascii.eqb c newline then Some LineStart
  else match st with
       | InLine => Some InLine
       | LineStart =>
           if is_space c then Some LineStart
           else if Ascii.eqb c bang then None
           else Some InLine
       end.

Fixpoint no_comment (st : line_state) (s : text) : bool :=
  match s with
  | [] => true
  | c :: s' =>
      match line_step st c with
      | Some st' => no_comment st' s'
      | None => false
      end
  end.

(** Lines as [readlines] gives them: each ends with its only newline, but
    the last one may lack it. *)
Inductive lines_ok : list text → Prop :=
| lines_ok_nil : lines_ok []
| lines_ok_last (l : text) :
    l ≠ [] → Forall (fun c => c ≠ newline) l → lines_ok [l]
| lines_ok_cons (l : text) (ls : list text) :
    Forall (fun c => c ≠ newline) l → lines_ok ls → lines_ok ((l ++ [newline]) :: ls).

End X90.

(** ** Analysis records ([fab.parse]) and the step's payload *)

Module AnalysedX90.
Record t : Type := mk {
  fpath : Path;
  file_hash : Z;
  kernel_deps : gset string
}.
Definition set_file_hash (h : Z) (r : t) : t :=
  {| fpath := fpath r; file_hash := h; kernel_deps := kernel_deps r |}.
End AnalysedX90.

Module AnalysedFortran.
Record t : Type := mk {
  fpath : Path;
  file_hash : Z;
  module_defs : gset string;
  module_deps : gset string;
  psyclone_kernels : gmap string Z
}.
End AnalysedFortran.

(** Runtime data for child processes to read. *)
Record MpPayload : Type := {
  analysed_x90 : gmap Path AnalysedX90.t;
  all_kernel_hashes : gmap string Z;
  transformation_script_hash : Z
}.

(** ** The build configuration ([fab/build_config.py]) and the world *)

(** Modelled from the spec: the folder names of [fab.constants], which is not
    among the sources (section 6: the prebuild files live in
    [<project_workspace>/build_output/_prebuild]). *)
Definition BUILD_OUTPUT : string := "build_output".
Definition SOURCE_ROOT : string := "source".
Definition PREBUILD : string := "_prebuild".

Record BuildConfig : Type := {
  project_label : string;
  project_workspace : Path
}.

Definition replace_space (c : ascii) : ascii := if Ascii.eqb c " " then "_"%char else c.

(** [BuildConfig.__init__]: the label with spaces replaced, the workspace. *)
Definition mkBuildConfig (label : string) (fab_workspace : Path) : BuildConfig :=
  let label' := string_of_list_ascii (map replace_space (list_ascii_of_string label)) in
  {| project_label := label';
     project_workspace := PathLib.joinpath fab_workspace label' |}.

Definition source_root (c : BuildConfig) : Path :=
  PathLib.joinpath (project_workspace c) SOURCE_ROOT.
Definition build_output (c : BuildConfig) : Path :=
  PathLib.joinpath (project_workspace c) BUILD_OUTPUT.
Definition prebuild_folder (c : BuildConfig) : Path :=
  PathLib.joinpath (build_output c) PREBUILD.

(** What the step reads and changes: the files (path to content; folders are
    not modelled, the output folders exist), the artefact store's
    [CURRENT_PREBUILDS] and [psyclone_output], and what [logger.error] got. *)
Record World : Type := {
  files : gmap Path string;
  CURRENT_PREBUILDS : gset Path;
  psyclone_output : list Path;
  error_log : list (list exn)
}.

Definition set_files (fs : gmap Path string) (w : World) : World :=
  {| files := fs; CURRENT_PREBUILDS := CURRENT_PREBUILDS w;
     psyclone_output := psyclone_output w; error_log := error_log w |}.

(** [init_artefact_store], on a given filesystem. *)
Definition init_artefact_store (fs : gmap Path string) : World :=
  {| files := fs; CURRENT_PREBUILDS := ∅; psyclone_output := []; error_log := [] |}.

(** [add_current_prebuilds]: [self._artefact_store[CURRENT_PREBUILDS].update(artefacts)] *)
Definition add_current_prebuilds (artefacts : list Path) (w : World) : World :=
  {| files := files w;
     CURRENT_PREBUILDS := CURRENT_PREBUILDS w ∪ list_to_set artefacts;
     psyclone_output := psyclone_output w; error_log := error_log w |}.

Definition set_psyclone_output (output_files : list Path) (w : World) : World :=
  {| files := files w; CURRENT_PREBUILDS := CURRENT_PREBUILDS w;
     psyclone_output := output_files; error_log := error_log w |}.

(** [logger.error] of a list of collected errors. *)
Definition log_errors (errors : list exn) (w : World) : World :=
  {| files := files w; CURRENT_PREBUILDS := CURRENT_PREBUILDS w;
     psyclone_output := psyclone_output w; error_log := error_log w ++ [errors] |}.

(** ** Helpers of [fab.util] and [fab.steps] *)

Fixpoint lefts {A B} (l : list (A + B)) : list A :=
  match l with
  | [] => []
  | inl a :: l' => a :: lefts l'
  | inr _ :: l' => lefts l'
  end.

Fixpoint rights {A B} (l : list (A + B)) : list B :=
  match l with
  | [] => []
  | inl _ :: l' => rights l'
  | inr b :: l' => b :: rights l'
  end.

(** [by_type(xs, Path)] on a list of paths and [None]s. *)
Definition somes {A} (l : list (option A)) : list A := omap id l.

(** Modelled from the spec: [fab.steps.check_for_errors], which is not among
    the sources (section 5: after the map it aggregates the errors and raises
    if any are present). *)
Definition check_for_errors {A} (results : list (exn + A)) : result unit :=
  match lefts results with
  | [] => ok tt
  | errors => raise (RuntimeError errors)
  end.

(** Modelled from the spec: [fab.util.suffix_filter] (section 4.3: the members
    whose path has one of the suffixes). *)
Definition suffix_filter (fpaths : list Path) (suffixes : list string) : list Path :=
  filter (fun p => bool_decide (PathLib.suffix p ∈ suffixes)) fpaths.

(** [file_checksum(p).file_hash]: opening a missing file raises. *)
Definition file_checksum (fs : gmap Path string) (p : Path) : result Z :=
  match fs !! p with
  | Some content => ok (Hashing.crc32 content)
  | None => raise (FileNotFoundError p)
  end.

(** [shutil.copy2(src, dst)] *)
Definition copy2 (fs : gmap Path string) (src dst : Path) : result (gmap Path string) :=
  match fs !! src with
  | Some content => ok (<[dst := content]> fs)
  | None => raise (FileNotFoundError src)
  end.

(** [p.exists()] *)
Definition exists_ (fs : gmap Path string) (p : Path) : bool :=
  bool_decide (is_Some (fs !! p)).

(** Modelled from the spec: [Step.run_mp] with multiprocessing off (section
    4.4: strictly sequential in the caller, results in input order); the
    function may change the files and may raise, which ends the map. *)
Fixpoint run_mp {A B} (func : gmap Path string → A → gmap Path string * result B)
    (fs : gmap Path string) (items : list A) : gmap Path string * result (list B) :=
  match items with
  | [] => (fs, ok [])
  | i :: items' =>
      match func fs i with
      | (fs1, inl e) => (fs1, raise e)
      | (fs1, inr b) =>
          match run_mp func fs1 items' with
          | (fs2, inl e) => (fs2, raise e)
          | (fs2, inr bs) => (fs2, ok (b :: bs))
          end
      end
  end.

(** A dict built from items in order: a later item replaces an earlier one. *)
Definition dict_of_items `{Countable K} {V} (items : list (K * V)) : gmap K V :=
  fold_left (fun d kv => <[kv.1 := kv.2]> d) items ∅.

(** [set] applied to unpacked arguments: none gives the empty set, one iterable its
    elements, more raise.  An argument is a generator: what iterating it
    gives, which can be the assertion of [file_walk]. *)
Definition set_star (args : list (result (list Path))) : result (gset Path) :=
  match args with
  | [] => ok ∅
  | [it] => let? l := it in ok (list_to_set l)
  | _ :: _ :: _ => raise (TypeError "set expected at most 1 argument")
  end.

(** [chain(xs)] of one iterable gives its elements. *)
Definition chain1 {A} (xs : list A) : list A := xs.

(** ** The PSyclone step ([fab/steps/psyclone.py]) *)

Record Psyclone : Type := {
  name : string;
  kernel_roots : list Path;
  transformation_script : option Path;
  cli_args : list string
}.

(** [make_parsable_x90]: read the x90, write the parsable text beside it. *)
Definition make_parsable_x90 (fs : gmap Path string) (x90_path : Path)
    : gmap Path string * result Path :=
  match fs !! x90_path with
  | None => (fs, raise (FileNotFoundError x90_path))
  | Some content =>
      let out := X90.make_parsable_text (X90.universal_newlines (X90.chars content)) in
      match PathLib.with_suffix x90_path ".parsable_x90" with
      | inl e => (fs, raise e)
      | inr out_path => (<[out_path := string_of_list_ascii out]> fs, ok out_path)
      end
  end.

Definition duplicate_kernel : exn := AssertionError "duplicate kernel name(s)".

(** The loop of [_analyse_kernels] that gathers all kernel hashes into one
    dict; the [assert] raises on a name that is already there. *)
Fixpoint gather_kernel_hashes (analysed_fortran : list AnalysedFortran.t)
    (all_kernel_hashes : gmap string Z) : result (gmap string Z) :=
  match analysed_fortran with
  | [] => ok all_kernel_hashes
  | af :: rest =>
      if decide ((dom (AnalysedFortran.psyclone_kernels af) : gset string)
                 ## dom all_kernel_hashes)
      then gather_kernel_hashes rest (AnalysedFortran.psyclone_kernels af ∪ all_kernel_hashes)
      else raise duplicate_kernel
  end.

(** [_get_prebuild_paths]; the f-string writes the hash with [str]. *)
Definition _get_prebuild_paths (config : BuildConfig) (modified_alg generated : Path)
    (prebuild_hash : Z) : Path * Path :=
  let prebuilt_alg :=
    PathLib.joinpath (prebuild_folder config)
      (PathLib.stem modified_alg +:+ "." +:+ Py.str_int prebuild_hash
       +:+ PathLib.suffix modified_alg) in
  let prebuilt_gen :=
    PathLib.joinpath (prebuild_folder config)
      (PathLib.stem generated +:+ "." +:+ Py.str_int prebuild_hash
       +:+ PathLib.suffix generated) in
  (prebuilt_alg, prebuilt_gen).

Section PsycloneMethods.

(** The external collaborators: the two analysers (their result or error,
    and the analysis file they stored, if any), the walk of a source tree
    (a generator: iterating it can raise), the subprocess runner and the
    mapping of a source path into the build output.  Their own writes of
    analysis files are not modelled. *)
Variable x90_analyser_run :
  gmap Path string → Path → (exn + AnalysedX90.t) * option Path.
Variable fortran_analyser_run :
  gmap Path string → Path → (exn + AnalysedFortran.t) * option Path.
Variable file_walk : gmap Path string → Path → list Path → result (list Path).
Variable run_command : gmap Path string → list string → result (gmap Path string).
Variable input_to_output_fpath : BuildConfig → Path → result Path.

Variable config : BuildConfig.
Variable self : Psyclone.

Definition _analyse_x90s (w : World) (x90s : list Path)
    : World * result (gmap Path AnalysedX90.t) :=
  match run_mp make_parsable_x90 (files w) x90s with
  | (fs1, inl e) => (set_files fs1 w, raise e)
  | (fs1, inr parsable_x90s) =>
      let w1 := set_files fs1 w in
      let x90_results := map (x90_analyser_run fs1) parsable_x90s in
      let x90_analyses := map fst x90_results in
      let x90_artefacts := map snd x90_results in
      match check_for_errors x90_analyses with
      | inl e => (w1, raise e)
      | inr _ =>
          let prebuild_files := somes x90_artefacts in
          let w2 := add_current_prebuilds prebuild_files w1 in
          let analysed := rights x90_analyses in
          (w2,
           let? keyed :=
             rmapM (fun r => let? p := PathLib.with_suffix (AnalysedX90.fpath r) ".x90" in
                             ok (p, r)) analysed in
           let? hashed :=
             rmapM (fun pr : Path * AnalysedX90.t =>
                      let? h := file_checksum fs1 pr.1 in
                      ok (pr.1, AnalysedX90.set_file_hash h pr.2)) keyed in
           ok (dict_of_items hashed))
      end
  end.

Definition _analyse_kernels (w : World) (roots : list Path)
    : World * result (gmap string Z) :=
  let file_lists := map (fun root => file_walk (files w) root [prebuild_folder config]) roots in
  match set_star (chain1 file_lists) with
  | inl e => (w, raise e)
  | inr all_kernel_files =>
      let kernel_files := suffix_filter (elements all_kernel_files) [".f90"%string] in
      let fortran_results := map (fortran_analyser_run (files w)) kernel_files in
      let fortran_analyses := map fst fortran_results in
      let fortran_artefacts := map snd fortran_results in
      let errors := lefts fortran_analyses in
      let w1 := match errors with [] => w | _ :: _ => log_errors errors w end in
      let prebuild_files := somes fortran_artefacts in
      let w2 := add_current_prebuilds prebuild_files w1 in
      let analysed_fortran := rights fortran_analyses in
      (w2, gather_kernel_hashes analysed_fortran ∅)
  end.

Definition analysis_for_prebuilds (w : World) (x90s : list Path) : World * result MpPayload :=
  match
    match transformation_script self with
    | Some script => file_checksum (files w) script
    | None => ok 0
    end
  with
  | inl e => (w, raise e)
  | inr script_hash =>
      match _analyse_x90s w x90s with
      | (w1, inl e) => (w1, raise e)
      | (w1, inr analysed) =>
          match _analyse_kernels w1 (kernel_roots self) with
          | (w2, inl e) => (w2, raise e)
          | (w2, inr kernel_hashes) =>
              (w2, ok {| analysed_x90 := analysed;
                         all_kernel_hashes := kernel_hashes;
                         transformation_script_hash := script_hash |})
          end
      end
  end.

Definition _gen_prebuild_hash (x90_file : Path) (mp_payload : MpPayload) : result Z :=
  let? analysis_result := getitem (analysed_x90 mp_payload) x90_file in
  let? hashes :=
    rmapM (getitem (all_kernel_hashes mp_payload))
          (elements (AnalysedX90.kernel_deps analysis_result)) in
  let kernel_deps_hashes : gset Z := list_to_set hashes in
  ok (Py.sum [AnalysedX90.file_hash analysis_result;
              Py.sum (elements kernel_deps_hashes);
              transformation_script_hash mp_payload;
              Hashing.string_checksum (Py.str_list (cli_args self))]).

Definition run_psyclone (fs : gmap Path string) (generated modified_alg x90_file : Path)
    : result (gmap Path string) :=
  let kernel_args := flat_map (fun k => ["-d"%string; PathLib.str_path k]) (kernel_roots self) in
  let transform_options :=
    match transformation_script self with
    | Some script => ["-s"%string; PathLib.str_path script]
    | None => []
    end in
  let command :=
    ["psyclone"; "-api"; "dynamo0.3"; "-l"; "all"]%string ++ kernel_args
    ++ ["-opsy"%string; PathLib.str_path generated; "-oalg"%string; PathLib.str_path modified_alg]
    ++ transform_options ++ cli_args self ++ [PathLib.str_path x90_file] in
  run_command fs command.

(** What [do_one_file] returns: the outputs or the error it caught, and the
    prebuild paths or [None]. *)
Definition one_file_result : Type := (exn + list Path) * option (list Path).

Definition do_one_file (fs : gmap Path string) (arg : Path * MpPayload)
    : gmap Path string * result one_file_result :=
  let '(x90_file, mp_payload) := arg in
  match
    (let? prebuild_hash := _gen_prebuild_hash x90_file mp_payload in
     let? modified_alg := PathLib.with_suffix x90_file ".f90" in
     let? modified_alg := input_to_output_fpath config modified_alg in
     let generated :=
       PathLib.joinpath (PathLib.parent x90_file) (PathLib.stem x90_file +:+ "_psy.f90") in
     let? generated := input_to_output_fpath config generated in
     ok (prebuild_hash, modified_alg, generated))
  with
  | inl e => (fs, raise e)
  | inr (prebuild_hash, modified_alg, generated) =>
      let '(prebuilt_alg, prebuilt_gen) :=
        _get_prebuild_paths config modified_alg generated prebuild_hash in
      let finish (fs' : gmap Path string) : gmap Path string * result one_file_result :=
        let result := if exists_ fs' generated then [modified_alg; generated] else [modified_alg] in
        let prebuild_result := [prebuilt_alg; prebuilt_gen] in
        (fs', ok (inr result, Some prebuild_result)) in
      if exists_ fs prebuilt_alg then
        match copy2 fs prebuilt_alg modified_alg with
        | inl e => (fs, raise e)
        | inr fs1 =>
            if exists_ fs1 prebuilt_gen then
              match copy2 fs1 prebuilt_gen generated with
              | inl e => (fs1, raise e)
              | inr fs2 => finish fs2
              end
            else finish fs1
        end
      else
        match run_psyclone fs generated modified_alg x90_file with
        | inl err => (fs, ok (inl err, None))
        | inr fs1 =>
            match copy2 fs1 modified_alg prebuilt_alg with
            | inl err => (fs1, ok (inl err, None))
            | inr fs2 =>
                if exists_ fs2 generated then
                  match copy2 fs2 generated prebuilt_gen with
                  | inl err => (fs2, ok (inl err, None))
                  | inr fs3 => finish fs3
                  end
                else finish fs2
            end
        end
  end.

(** [Psyclone.run], given the x90s that the source getter selected. *)
Definition run (w : World) (x90s : list Path) : World * result unit :=
  match analysis_for_prebuilds w x90s with
  | (w1, inl e) => (w1, raise e)
  | (w1, inr mp_payload) =>
      let mp_arg := map (fun x90 => (x90, mp_payload)) x90s in
      match run_mp do_one_file (files w1) mp_arg with
      | (fs2, inl e) => (set_files fs2 w1, raise e)
      | (fs2, inr results) =>
          let w2 := set_files fs2 w1 in
          let outputs := map fst results in
          let prebuilds := map snd results in
          match check_for_errors outputs with
          | inl e => (w2, raise e)
          | inr _ =>
              let output_files := concat (rights outputs) in
              let prebuild_files := concat (somes prebuilds) in
              let w3 := set_psyclone_output output_files w2 in
              let w4 := add_current_prebuilds prebuild_files w3 in
              (w4, ok tt)
          end
      end
  end.

End PsycloneMethods.

(** What the Fortran analyser returns for the kernel files, given the set of
    all kernel files: the [fortran_analyses] of [_analyse_kernels]. *)
Definition analysed_kernel_results
    (fortran_analyser_run : gmap Path string → Path → (exn + AnalysedFortran.t) * option Path)
    (w : World) (all_kernel_files : gset Path) : list (exn + AnalysedFortran.t) :=
  map fst (map (fortran_analyser_run (files w))
             (suffix_filter (elements all_kernel_files) [".f90"%string])).

(** ** The combo hashes of [CompileFortran.process_file] *)

Module CompileFortran.

Record t : Type := {
  compiler : string;
  compiler_version : string;
  _mod_hashes : gmap string Z
}.

(** Modelled from the spec: [fab/steps/compile_fortran.py] is not among the
    sources, only its tests are.  Section 4.7 gives the two combo hashes of
    [process_file]: the source hash with the hashes of the compiler name and
    version for the module files, and that with the flags hash and the hashes
    of the module dependencies for the object file.  The sums are not
    reduced: the values the tests expect are above 2^32. *)
Definition mods_combo_hash (self : t) (f : AnalysedFortran.t) : Z :=
  Py.sum [AnalysedFortran.file_hash f;
          Hashing.string_checksum (compiler self);
          Hashing.string_checksum (compiler_version self)].

Definition obj_combo_hash (self : t) (f : AnalysedFortran.t) (flags : list string) : result Z :=
  let? mod_deps_hashes :=
    rmapM (getitem (_mod_hashes self)) (elements (AnalysedFortran.module_deps f)) in
  ok (Py.sum [mods_combo_hash self f;
              Hashing.flags_checksum flags;
              Py.sum mod_deps_hashes]).

(** Modelled from the spec: the prebuild names of [process_file] (section
    4.7), the hash in lowercase hexadecimal as in the tests' expected paths. *)
Definition obj_file_prebuild (config : BuildConfig) (f : AnalysedFortran.t) (obj_hash : Z) : Path :=
  PathLib.joinpath (prebuild_folder config)
    (PathLib.stem (AnalysedFortran.fpath f) +:+ "." +:+ Py.format_x obj_hash +:+ ".o").

Definition mod_file_prebuild (config : BuildConfig) (mod_def : string) (mods_hash : Z) : Path :=
  PathLib.joinpath (prebuild_folder config)
    (mod_def +:+ "." +:+ Py.format_x mods_hash +:+ ".mod").

(** [process_file] as far as the hashes go: the flags of the file give the
    pair of combo hashes. *)
Definition process_file_hashes (self : t) (flags : list string) (f : AnalysedFortran.t)
    : result (Z * Z) :=
  let? obj := obj_combo_hash self f flags in
  ok (obj, mods_combo_hash self f).

Definition with_mod_hashes (h : gmap string Z) (self : t) : t :=
  {| compiler := compiler self; compiler_version := compiler_version self; _mod_hashes := h |}.

End CompileFortran.

(** ** The sum of the kernel hashes, in the spec's words *)

(** The spec's sum over [k] in [kernel_deps] of [kernel_hashes[k]] (section
    4.8), each dependency contributing its hash. *)
Definition kernel_hash_sum (kernel_hashes : gmap string Z) (deps : gset string) : Z :=
  Py.sum ((fun k => default 0 (kernel_hashes !! k)) <$> elements deps).

(** ** The payload with one component changed *)

Definition with_all_kernel_hashes (h : gmap string Z) (mp : MpPayload) : MpPayload :=
  {| analysed_x90 := analysed_x90 mp; all_kernel_hashes := h;
     transformation_script_hash := transformation_script_hash mp |}.
Definition with_transformation_script_hash (h : Z) (mp : MpPayload) : MpPayload :=
  {| analysed_x90 := analysed_x90 mp; all_kernel_hashes := all_kernel_hashes mp;
     transformation_script_hash := h |}.
Definition with_analysed_x90 (a : gmap Path AnalysedX90.t) (mp : MpPayload) : MpPayload :=
  {| analysed_x90 := a; all_kernel_hashes := all_kernel_hashes mp;
     transformation_script_hash := transformation_script_hash mp |}.

(** A world that has the current prebuilds and the logged errors of another. *)
Definition keeps (w w' : World) : Prop :=
  CURRENT_PREBUILDS w ⊆ CURRENT_PREBUILDS w' ∧ error_log w `prefix_of` error_log w'.

(** ** The rest of [BuildConfig]: the process count, the steps and a run *)


(** The truth value of [n_procs]: [None] and [0] are false. *)
Definition n_procs_given (n_procs : option Z) : bool :=
  match n_procs with
  | Some n => negb (n =? 0)
  | None => false
  end.

(** The multiprocessing part of [BuildConfig.__init__]: the two arguments,
    whether a debugger traces the process, and the CPUs that
    [os.sched_getaffinity(0)] gives ([None] where the platform lacks it and
    the call raises [AttributeError]).  The result is [self.multiprocessing]
    and [self.n_procs]. *)
Definition init_multiprocessing (multiprocessing : bool) (n_procs : option Z)
    (debugger_detected : bool) (sched_getaffinity : option nat) : bool * option Z :=
  let multiprocessing := if debugger_detected then false else multiprocessing in
  if multiprocessing && negb (n_procs_given n_procs) then
    match sched_getaffinity with
    | Some cpus => (multiprocessing, Some (Z.max 1 (Z.of_nat cpus)))
    | None => (false, None)
    end
  else (multiprocessing, n_procs).

(** What a failed run raises: an [Exception] made of the step's error. *)
Inductive build_error : Type := BuildStepsError (err : exn).

(** [self._artefact_store = {CURRENT_PREBUILDS: set()}] in a world: the
    files and the log stay. *)
Definition reset_artefact_store (w : World) : World :=
  {| files := files w; CURRENT_PREBUILDS := ∅; psyclone_output := [];
     error_log := error_log w |}.

Section BuildRun.

(** The steps are objects of classes that are not among the sources: a step
    is any type with a test for being a [CleanupPrebuilds], the default
    cleanup [CleanupPrebuilds(all_unused=True)], and [step.run] on the
    artefact store of the world. *)
Variable Step : Type.
Variable is_CleanupPrebuilds : Step → bool.
Variable CleanupPrebuilds_all_unused : Step.
Variable step_run : Step → World → World * result unit.

(** The config object as far as a run goes: its steps and its world. *)
Record Build : Type := { steps : list Step; store : World }.

(** [_run_prep]: a new artefact store, and a default cleanup at the end of
    the steps when no step is a cleanup. *)
Definition _run_prep (b : Build) : Build :=
  {| steps := match filter (fun s => is_CleanupPrebuilds s = true) (steps b) with
              | [] => steps b ++ [CleanupPrebuilds_all_unused]
              | _ :: _ => steps b
              end;
     store := reset_artefact_store (store b) |}.

(** The loop over the steps: the first exception ends it. *)
Fixpoint run_steps (l : list Step) (w : World) : World * result unit :=
  match l with
  | [] => (w, ok tt)
  | step :: rest =>
      match step_run step w with
      | (w1, inl err) => (w1, raise err)
      | (w1, inr _) => run_steps rest w1
      end
  end.

(** [BuildConfig.run]; metrics and logging are left out. *)
Definition BuildConfig_run (b : Build) : Build * (build_error + unit) :=
  let b1 := _run_prep b in
  match run_steps (steps b1) (store b1) with
  | (w, inl err) => ({| steps := steps b1; store := w |}, inl (BuildStepsError err))
  | (w, inr _) => ({| steps := steps b1; store := w |}, inr tt)
  end.

End BuildRun.

Arguments steps {Step}.
Arguments store {Step}.

(** ** Flags ([AddFlags] and [FlagsConfig] of [fab/build_config.py]) *)

(** [string.Template(s).substitute(mapping)]: a dollar sign followed by a
    dollar sign is a dollar sign; followed by an identifier, or by an
    identifier in braces, it is the mapping's value for that name (a missing
    name raises [KeyError]); followed by anything else it is an invalid
    placeholder, a [ValueError].  An identifier is an ASCII letter or an
    underscore followed by ASCII letters, digits and underscores, as many as
    there are.  The template is read from the left, so the first error is
    the one raised. *)
Module Template.

Definition is_id_start (c : ascii) : bool :=
  let n := N_of_ascii c in
  ((n =? 95) || (65 <=? n) && (n <=? 90) || (97 <=? n) && (n <=? 122))%N.

Definition is_id_char (c : ascii) : bool :=
  let n := N_of_ascii c in
  is_id_start c || ((48 <=? n) && (n <=? 57))%N.

Inductive state : Type :=
| Text
| Dollar
| Named (name : string)
| Brace
| Braced (name : string).

Definition invalid : exn := ValueError "Invalid placeholder in string".

Fixpoint scan (mapping : gmap string string) (st : state) (s : string) : result string :=
  match s with
  | EmptyString =>
      match st with
      | Text => ok EmptyString
      | Named name => getitem mapping name
      | Dollar | Brace | Braced _ => raise invalid
      end
  | String c s' =>
      let text_step : result string :=
        if Ascii.eqb c "$" then scan mapping Dollar s'
        else let? r := scan mapping Text s' in ok (String c r) in
      match st with
      | Text => text_step
      | Dollar =>
          if Ascii.eqb c "$" then let? r := scan mapping Text s' in ok (String "$" r)
          else if is_id_start c then scan mapping (Named (String c EmptyString)) s'
          else if Ascii.eqb c "{" then scan mapping Brace s'
          else raise invalid
      | Named name =>
          if is_id_char c then scan mapping (Named (name +:+ String c EmptyString)) s'
          else let? v := getitem mapping name in
               let? r := text_step in ok (v +:+ r)
      | Brace =>
          if is_id_start c then scan mapping (Braced (String c EmptyString)) s'
          else raise invalid
      | Braced name =>
          if is_id_char c then scan mapping (Braced (name +:+ String c EmptyString)) s'
          else if Ascii.eqb c "}"
          then let? v := getitem mapping name in
               let? r := scan mapping Text s' in ok (v +:+ r)
          else raise invalid
      end
  end.

Definition substitute (mapping : gmap string string) (template : string) : result string :=
  scan mapping Text template.

(** A name that the pattern of [Template] takes as an identifier. *)
Fixpoint all_id_chars (s : string) : bool :=
  match s with
  | EmptyString => true
  | String c s' => is_id_char c && all_id_chars s'
  end.

Definition identifier (s : string) : bool :=
  match s with
  | EmptyString => false
  | String c s' => is_id_start c && all_id_chars s'
  end.

(** The text does not go on with a character of an identifier. *)
Definition ends_name (s : string) : bool :=
  match s with
  | EmptyString => true
  | String c _ => negb (is_id_char c)
  end.

End Template.

(** The template parameters of [AddFlags.run] and of [flags_for_path]. *)
Definition path_params (config : BuildConfig) (fpath : Path) : gmap string string :=
  <["relative"%string := PathLib.str_path (PathLib.parent fpath)]>
    (<["source"%string := PathLib.str_path (source_root config)]>
       {[ "output"%string := PathLib.str_path (build_output config) ]}).

Definition common_params (config : BuildConfig) : gmap string string :=
  <["source"%string := PathLib.str_path (source_root config)]>
    {[ "output"%string := PathLib.str_path (build_output config) ]}.

Module AddFlags.

Record t : Type := mk {
  match_ : string;
  flags : list string
}.

Section Run.

(** [fnmatch.fnmatch(name, pattern)] of the standard library. *)
Variable fnmatch : string → string → bool.

(** [AddFlags.run]; the flags list that the source extends in place is
    returned. *)
Definition run (self : t) (fpath : Path) (input_flags : list string)
    (config : BuildConfig) : result (list string) :=
  let params := path_params config fpath in
  let? matches :=
    if String.eqb (match_ self) EmptyString then ok true
    else let? pattern := Template.substitute params (match_ self) in
         ok (fnmatch (PathLib.str_path fpath) pattern) in
  if matches : bool
  then let? add_flags := rmapM (Template.substitute params) (flags self) in
       ok (input_flags ++ add_flags)
  else ok input_flags.

End Run.

End AddFlags.

Record FlagsConfig : Type := {
  common_flags : list string;
  path_flags : list AddFlags.t
}.

Section Flags.

Variable fnmatch : string → string → bool.

(** The loop of [flags_for_path] over the path flags. *)
Fixpoint run_path_flags (modifiers : list AddFlags.t) (path : Path) (flags : list string)
    (config : BuildConfig) : result (list string) :=
  match modifiers with
  | [] => ok flags
  | flags_modifier :: rest =>
      let? flags := AddFlags.run fnmatch flags_modifier path flags config in
      run_path_flags rest path flags config
  end.

(** [FlagsConfig.flags_for_path] *)
Definition flags_for_path (self : FlagsConfig) (path : Path) (config : BuildConfig)
    : result (list string) :=
  let params := common_params config in
  let? flags := rmapM (Template.substitute params) (common_flags self) in
  run_path_flags (path_flags self) path flags config.

End Flags.

(** A text without a dollar sign. *)
Definition plain (s : string) : Prop := Py.contains "$" s = false.

(** Whether an [AddFlags] applies to a path, when its filter has no template. *)
Definition applies (fnmatch : string → string → bool) (path : Path) (m : AddFlags.t) : bool :=
  String.eqb (AddFlags.match_ m) EmptyString
  || fnmatch (PathLib.str_path path) (AddFlags.match_ m).

(** Whether an [AddFlags] adds its flags for a path. *)
Definition modifier_applies (fnmatch : string → string → bool) (m : AddFlags.t) (path : Path)
    (config : BuildConfig) : Prop :=
  AddFlags.match_ m = EmptyString
  ∨ ∃ pattern, Template.substitute (path_params config path) (AddFlags.match_ m) = ok pattern
               ∧ fnmatch (PathLib.str_path path) pattern = true.

(** ** The gcom run configurations ([run_configs/gcom]) *)

Module Gcom.

(** The steps of the two configs as far as the sources show them; the common
    build steps come from [gcom_build_steps], which is not among the sources. *)
Inductive step : Type :=
| CommonStep (label : string)
| ArchiveObjects (output_fpath : string)
| LinkSharedObject (output_fpath : string)
| CleanupPrebuilds (older_than_minutes : option Z) (all_unused : option bool).

Definition is_CleanupPrebuilds (s : step) : bool :=
  match s with
  | CleanupPrebuilds _ _ => true
  | _ => false
  end.

(** [f'{revision}'] of a revision that may be [None]. *)
Definition str_revision (revision : option string) : string := default "None"%string revision.

(** [gcom_ar_config] and [gcom_so_config]: the config and its steps, given
    the common build steps, the compiler that [get_fortran_compiler] found
    and the fab workspace. *)
Definition gcom_ar_config (common_build_steps : list step) (revision : option string)
    (compiler : string) (fab_workspace : Path) : BuildConfig * list step :=
  (mkBuildConfig ("gcom object archive " +:+ str_revision revision +:+ " " +:+ compiler)
     fab_workspace,
   common_build_steps
   ++ [ArchiveObjects "$output/libgcom.a"; CleanupPrebuilds None (Some true)]).

Definition gcom_so_config (common_build_steps : list step) (revision : option string)
    (compiler : string) (fab_workspace : Path) : BuildConfig * list step :=
  (mkBuildConfig ("gcom shared library " +:+ str_revision revision +:+ " " +:+ compiler)
     fab_workspace,
   common_build_steps
   ++ [LinkSharedObject "$output/libgcom.so"; CleanupPrebuilds (Some 5) None]).

End Gcom.

(** ** Fixtures *)

Module Fixtures.

(** [Test_process_file.content] of the compile tests. *)
Definition compiler : CompileFortran.t :=
  {| CompileFortran.compiler := "foo_cc";
     CompileFortran.compiler_version := "1.2.3";
     CompileFortran._mod_hashes := {[ "mod_dep_1"%string := 12345; "mod_dep_2"%string := 23456 ]} |}.

Definition analysed_file : AnalysedFortran.t :=
  AnalysedFortran.mk ["foofile"%string] 34567
    {[ "mod_def_1"%string; "mod_def_2"%string ]}
    {[ "mod_dep_1"%string; "mod_dep_2"%string ]} ∅.

Definition flags : list string := ["flag1"; "flag2"]%string.

Definition proj : BuildConfig := mkBuildConfig "proj" ["/"; "fab"]%string.

(** A PSyclone step without script, roots or arguments, and an x90 whose
    checksum is the largest CRC32 value. *)
Definition step : Psyclone :=
  {| name := "psyclone"; kernel_roots := []; transformation_script := None; cli_args := [] |}.

Definition algo_x90 : Path := ["/"; "fab"; "proj"; "source"; "algo.x90"]%string.

Definition payload (file_hash : Z) (deps : gset string) (kernel_hashes : gmap string Z)
    (script_hash : Z) : MpPayload :=
  {| analysed_x90 := {[ algo_x90 := AnalysedX90.mk algo_x90 file_hash deps ]};
     all_kernel_hashes := kernel_hashes;
     transformation_script_hash := script_hash |}.

(** A kernel tree with two kernel files, one file that does not parse and
    one that is no Fortran; walking any other root fails the assertion of
    [file_walk]. *)
Definition kernels_root : Path := ["/"; "fab"; "proj"; "source"; "kernels"]%string.
Definition kern_a_f90 : Path := kernels_root ++ ["kern_a_mod.f90"%string].
Definition kern_b_f90 : Path := kernels_root ++ ["kern_b_mod.f90"%string].
Definition broken_f90 : Path := kernels_root ++ ["broken.f90"%string].
Definition notes_txt : Path := kernels_root ++ ["notes.txt"%string].

Definition file_walk (tree : list Path) (fs : gmap Path string) (root : Path)
    (ignore_folders : list Path) : result (list Path) :=
  if decide (root = kernels_root) then ok tree
  else raise (AssertionError "not dir").

Definition fortran_analyser_run (fs : gmap Path string) (p : Path)
    : (exn + AnalysedFortran.t) * option Path :=
  if decide (p = kern_a_f90)
  then (inr (AnalysedFortran.mk p 1 ∅ ∅ {[ "kern_a_type"%string := 11 ]}),
        Some (prebuild_folder proj ++ ["kern_a_mod.1.an"%string]))
  else if decide (p = kern_b_f90)
  then (inr (AnalysedFortran.mk p 2 ∅ ∅ {[ "kern_b_type"%string := 22 ]}),
        Some (prebuild_folder proj ++ ["kern_b_mod.2.an"%string]))
  else (inl (AnalyseError p), None).

(** An x90 analyser that finds the kernel [kern_a_type] in any file it can
    read, hashes what it reads, and fails on a missing or empty file. *)
Definition x90_analyser_run (fs : gmap Path string) (p : Path)
    : (exn + AnalysedX90.t) * option Path :=
  match fs !! p with
  | Some (String c content) =>
      (inr (AnalysedX90.mk p (Hashing.crc32 (String c content)) {[ "kern_a_type"%string ]}),
       Some (prebuild_folder proj ++ [PathLib.stem p +:+ ".an"]))
  | _ => (inl (AnalyseError p), None)
  end.

Definition algo_text : string := "call invoke( name = 'm', kern_a_type(x))".

Definition world0 : World := init_artefact_store {[ algo_x90 := algo_text ]}.

Definition kernel_tree : list Path := [kern_a_f90; kern_b_f90; notes_txt].
Definition broken_tree : list Path := [kern_a_f90; broken_f90].

Definition analysed_kern_a : AnalysedFortran.t :=
  AnalysedFortran.mk kern_a_f90 1 ∅ ∅ {[ "kern_a_type"%string := 11 ]}.
Definition analysed_kern_b : AnalysedFortran.t :=
  AnalysedFortran.mk kern_b_f90 2 ∅ ∅ {[ "kern_b_type"%string := 22 ]}.

(** A world whose x90 is empty, which the x90 analyser rejects. *)
Definition world_empty_x90 : World := init_artefact_store {[ algo_x90 := EmptyString ]}.

(** A step with the kernel tree as its root; a stand-in for
    [input_to_output_fpath] that moves a path under the source root to the
    same place under the build output; and a stand-in for the psyclone
    subprocess that writes the algorithm file of [algo.x90] and no PSy file. *)
Definition step_with_kernels : Psyclone :=
  {| name := "psyclone"; kernel_roots := [kernels_root];
     transformation_script := None; cli_args := [] |}.

Definition input_to_output_fpath (config : BuildConfig) (input_path : Path) : result Path :=
  let root := source_root config in
  if decide (take (length root) input_path = root)
  then ok (build_output config ++ drop (length root) input_path)
  else raise (ValueError "not in the source root").

Definition algo_f90 : Path := ["/"; "fab"; "proj"; "build_output"; "algo.f90"]%string.

Definition run_command (fs : gmap Path string) (command : list string)
    : result (gmap Path string) :=
  ok (<[algo_f90 := "! modified algorithm"%string]> fs).

Definition run_psyclone_step : World * result unit :=
  run x90_analyser_run fortran_analyser_run (file_walk kernel_tree) run_command
      input_to_output_fpath proj step_with_kernels world0 [algo_x90].

Definition algo_psy_prebuild : Path :=
  prebuild_folder proj ++ ["algo_psy.1470254915.f90"%string].

(** A second file that defines the kernel of [kern_a_mod.f90] again. *)
Definition analysed_kern_a_again : AnalysedFortran.t :=
  AnalysedFortran.mk (kernels_root ++ ["kern_a_copy_mod.f90"%string]) 3 ∅ ∅
    {[ "kern_a_type"%string := 33 ]}.

(** The outputs and the prebuilt algorithm file of [algo.x90] for a payload
    without kernels and script, a store that holds only that prebuild, one
    that holds only the x90, and a PSyclone that is not installed. *)
Definition algo_psy_f90 : Path := ["/"; "fab"; "proj"; "build_output"; "algo_psy.f90"]%string.
Definition algo_prebuild : Path := prebuild_folder proj ++ ["algo.223132457.f90"%string].
Definition plain_payload : MpPayload := payload 0 ∅ ∅ 0.
Definition prebuilt_files : gmap Path string :=
  {[ algo_prebuild := "! prebuilt algorithm"%string ]}.
Definition source_files : gmap Path string := {[ algo_x90 := algo_text ]}.
Definition no_psyclone (fs : gmap Path string) (command : list string)
    : result (gmap Path string) := raise (ToolError "psyclone: command not found").

(** [fnmatch] for the patterns of the fixtures: a text followed by one star
    matches the names that start with the text, any other pattern the name
    equal to it. *)
Fixpoint fnmatch (name pattern : string) : bool :=
  match pattern, name with
  | String "*" EmptyString, _ => true
  | String p pattern', String n name' => Ascii.eqb p n && fnmatch name' pattern'
  | EmptyString, EmptyString => true
  | _, _ => false
  end.

Definition um_file : Path := ["/"; "fab"; "proj"; "source"; "um"; "atmos.f90"]%string.

Definition flags_config : FlagsConfig :=
  {| common_flags := ["-O2"; "-c"]%string;
     path_flags :=
       [ AddFlags.mk "/fab/proj/source/um/*" ["-I/fab/include"]%string;
         AddFlags.mk "/fab/proj/source/jules/*" ["-DJULES"]%string;
         AddFlags.mk EmptyString ["-g"]%string ] |}.

(** The steps of a gcom build: fetching and compiling work, the archiver is
    not installed. *)
Definition gcom_step_run (s : Gcom.step) (w : World) : World * result unit :=
  match s with
  | Gcom.CommonStep label =>
      (add_current_prebuilds [prebuild_folder proj ++ [label]] w, ok tt)
  | Gcom.ArchiveObjects _ => (w, raise (ToolError "ar: command not found"))
  | Gcom.LinkSharedObject _ => (w, ok tt)
  | Gcom.CleanupPrebuilds _ _ => (w, ok tt)
  end.

Definition gcom_common_steps : list Gcom.step :=
  [Gcom.CommonStep "grab"; Gcom.CommonStep "compile"]%string.

Definition hard_cleanup : Gcom.step := Gcom.CleanupPrebuilds None (Some true).
(** A step with a transformation script. *)
Definition script_py : Path := ["/"; "fab"; "proj"; "source"; "optimise.py"]%string.
Definition step_with_script : Psyclone :=
  {| name := "psyclone"; kernel_roots := []; transformation_script := Some script_py;
     cli_args := [] |}.

End Fixtures.

(** * Properties *)

(** ** Sums *)

Lemma fold_left_add_acc (l : list Z) (a : Z) : fold_left Z.add l a = a + fold_left Z.add l 0.
Proof.
  revert a. induction l as [|x l IH]; intros a; simpl; [lia|].
  rewrite (IH (a + x)), (IH (0 + x)). lia.
Qed.

Lemma sum_nil : Py.sum [] = 0.
Proof. reflexivity. Qed.

Lemma sum_cons (x : Z) (l : list Z) : Py.sum (x :: l) = x + Py.sum l.
Proof. unfold Py.sum. simpl. rewrite fold_left_add_acc. lia. Qed.

Lemma sum_permutation (l l' : list Z) : l ≡ₚ l' → Py.sum l = Py.sum l'.
Proof.
  induction 1 as [|x l l' _ IH|x y l|l l' l'' _ IH1 _ IH2].
  - reflexivity.
  - rewrite !sum_cons. lia.
  - rewrite !sum_cons. lia.
  - congruence.
Qed.

(** ** Lookups mapped over a list *)

Lemma rmapM_getitem_total (d : gmap string Z) (l : list string) :
  (∀ k, k ∈ l → is_Some (d !! k)) →
  rmapM (getitem d) l = ok ((fun k => default 0 (d !! k)) <$> l).
Proof.
  induction l as [|k l IH]; intros Hall; [reflexivity|].
  rewrite fmap_cons. simpl. unfold getitem at 1.
  destruct (Hall k) as [v Hv]; [left|].
  rewrite Hv. simpl. rewrite IH.
  - reflexivity.
  - intros k' Hk'. apply Hall. by right.
Qed.

Lemma lookups_insert_other (d : gmap string Z) (m : string) (v : Z) (l : list string) :
  m ∉ l →
  (fun k => default 0 (<[m := v]> d !! k)) <$> l = (fun k => default 0 (d !! k)) <$> l.
Proof.
  induction l as [|k l IH]; intros Hm; [reflexivity|].
  apply not_elem_of_cons in Hm as [Hne Hm].
  rewrite !fmap_cons, lookup_insert_ne by done. by rewrite IH.
Qed.

Lemma sum_lookups_insert (d : gmap string Z) (m : string) (h : Z) (l : list string) :
  NoDup l → m ∈ l → d !! m = Some h →
  Py.sum ((fun k => default 0 (<[m := h + 1]> d !! k)) <$> l)
  = Py.sum ((fun k => default 0 (d !! k)) <$> l) + 1.
Proof.
  induction l as [|k l IH]; intros Hnd Hm Hh.
  - by apply elem_of_nil in Hm.
  - apply NoDup_cons in Hnd as [Hk Hnd]. rewrite !fmap_cons, !sum_cons.
    destruct (decide (m = k)) as [->|Hne].
    + rewrite lookup_insert_eq, Hh, lookups_insert_other by done. simpl. lia.
    + apply elem_of_cons in Hm as [?|Hm]; [done|].
      rewrite lookup_insert_ne by done. rewrite IH by done. lia.
Qed.

(** ** The combo hashes of the compile step *)

(** The model gives the values that [Test_process_file] expects: the two
    combo hashes of [content], the object hash of [test_flags_hash], and the
    expected object path. *)
Lemma test_process_file_expected :
  CompileFortran.process_file_hashes Fixtures.compiler Fixtures.flags Fixtures.analysed_file
    = ok (0x1eb0c2d19, 0x1747a9a0f)
  ∧ CompileFortran.process_file_hashes Fixtures.compiler ["flag1"; "flag3"]%string
      Fixtures.analysed_file = ok (0x1ebce92ee, 0x1747a9a0f)
  ∧ CompileFortran.obj_file_prebuild Fixtures.proj Fixtures.analysed_file 0x1eb0c2d19
    = ["/"; "fab"; "proj"; "build_output"; "_prebuild"; "foofile.1eb0c2d19.o"]%string
  ∧ CompileFortran.mod_file_prebuild Fixtures.proj "mod_def_1" 0x1747a9a0f
    = ["/"; "fab"; "proj"; "build_output"; "_prebuild"; "mod_def_1.1747a9a0f.mod"]%string.
Proof. repeat split; vm_compute; reflexivity. Qed.

Lemma obj_combo_hash_total (self : CompileFortran.t) (f : AnalysedFortran.t) (flags : list string) :
  (∀ m, m ∈ AnalysedFortran.module_deps f → is_Some (CompileFortran._mod_hashes self !! m)) →
  CompileFortran.obj_combo_hash self f flags
  = ok (CompileFortran.mods_combo_hash self f + Hashing.flags_checksum flags
        + Py.sum ((fun k => default 0 (CompileFortran._mod_hashes self !! k))
                    <$> elements (AnalysedFortran.module_deps f))).
Proof.
  intros Hall. unfold CompileFortran.obj_combo_hash.
  rewrite rmapM_getitem_total.
  - simpl. rewrite !sum_cons, sum_nil. f_equal. lia.
  - intros k Hk. apply Hall. by apply elem_of_elements.
Qed.

(** C2 (as amended).  For a file whose module dependencies all have an
    interface hash: changing only the flags moves [obj_combo_hash] by the
    difference of the two flags checksums, so it changes whenever the flags
    checksum does, and leaves [mods_combo_hash] identical; raising the
    interface hash of one of the module dependencies by 1 raises
    [obj_combo_hash] by exactly 1 and leaves [mods_combo_hash] unchanged. *)
Theorem process_file_hashes_sensitivity
    (self : CompileFortran.t) (f : AnalysedFortran.t) (flags : list string)
    (Hdeps : ∀ m, m ∈ AnalysedFortran.module_deps f →
                  is_Some (CompileFortran._mod_hashes self !! m)) :
  ∃ obj mods,
    CompileFortran.process_file_hashes self flags f = ok (obj, mods)
    ∧ (∀ flags',
         CompileFortran.process_file_hashes self flags' f
         = ok (obj - Hashing.flags_checksum flags + Hashing.flags_checksum flags', mods)
         ∧ (Hashing.flags_checksum flags' ≠ Hashing.flags_checksum flags →
            obj - Hashing.flags_checksum flags + Hashing.flags_checksum flags' ≠ obj))
    ∧ (∀ m h,
         m ∈ AnalysedFortran.module_deps f →
         CompileFortran._mod_hashes self !! m = Some h →
         CompileFortran.process_file_hashes
           (CompileFortran.with_mod_hashes (<[m := h + 1]> (CompileFortran._mod_hashes self)) self)
           flags f
         = ok (obj + 1, mods)).
Proof.
  eexists _, _. split; [|split].
  - unfold CompileFortran.process_file_hashes.
    rewrite obj_combo_hash_total by done. reflexivity.
  - intros flags'. split; [|lia].
    unfold CompileFortran.process_file_hashes.
    rewrite obj_combo_hash_total by done. simpl. do 2 f_equal. lia.
  - intros m h Hm Hh.
    unfold CompileFortran.process_file_hashes.
    rewrite obj_combo_hash_total.
    + simpl. rewrite sum_lookups_insert; [| apply NoDup_elements | by apply elem_of_elements | done].
      unfold CompileFortran.mods_combo_hash. simpl. do 2 f_equal. lia.
    + simpl. intros k Hk. destruct (decide (m = k)) as [->|Hne].
      * rewrite lookup_insert_eq. eauto.
      * rewrite lookup_insert_ne by done. by apply Hdeps.
Qed.

Lemma process_file_hashes_sensitivity_witness :
  ∃ obj mods,
    CompileFortran.process_file_hashes Fixtures.compiler Fixtures.flags Fixtures.analysed_file
    = ok (obj, mods)
    ∧ CompileFortran.process_file_hashes Fixtures.compiler ["flag1"; "flag3"]%string
        Fixtures.analysed_file
      = ok (obj - Hashing.flags_checksum Fixtures.flags
            + Hashing.flags_checksum ["flag1"; "flag3"]%string, mods)
    ∧ CompileFortran.process_file_hashes
        (CompileFortran.with_mod_hashes
           (<["mod_dep_1"%string := 12345 + 1]> (CompileFortran._mod_hashes Fixtures.compiler))
           Fixtures.compiler)
        Fixtures.flags Fixtures.analysed_file
      = ok (obj + 1, mods).
Proof.
  destruct (process_file_hashes_sensitivity Fixtures.compiler Fixtures.analysed_file Fixtures.flags)
    as (obj & mods & H0 & Hflags & Hdep).
  - intros m Hm. unfold Fixtures.analysed_file in Hm. simpl in Hm.
    apply elem_of_union in Hm as [Hm|Hm]; apply elem_of_singleton in Hm; subst m;
      vm_compute; eauto.
  - exists obj, mods. split; [exact H0|]. split.
    + exact (proj1 (Hflags _)).
    + apply Hdep; [|reflexivity]. unfold Fixtures.analysed_file. simpl.
      apply elem_of_union_l. by apply elem_of_singleton.
Defined.

(** C2 as stated fails: two different flag lists with the same checksum give
    the same [obj_combo_hash]. *)
Lemma flags_change_keeps_obj_combo_hash :
  ["plumless"]%string ≠ ["buckeroo"]%string
  ∧ CompileFortran.process_file_hashes Fixtures.compiler ["plumless"]%string Fixtures.analysed_file
    = ok (6611123315, 0x1747a9a0f)
  ∧ CompileFortran.process_file_hashes Fixtures.compiler ["buckeroo"]%string Fixtures.analysed_file
    = ok (6611123315, 0x1747a9a0f).
Proof. split; [discriminate|]. split; vm_compute; reflexivity. Qed.

(** ** The prebuild hash of an x90 *)

Lemma sum_elements_list_to_set (l : list Z) :
  NoDup l → Py.sum (elements (list_to_set l : gset Z)) = Py.sum l.
Proof. intros Hnd. apply sum_permutation. by apply elements_list_to_set. Qed.

(** C1 (as amended).  For an analysed x90 whose kernel dependencies all have a
    hash, pairwise different, the prebuild hash is the plain integer sum (not
    reduced mod 2^32) of the file hash, the hashes of the kernel
    dependencies, the transformation script hash and the string checksum of
    the cli args; the spec's [combine] of the same four is that sum reduced
    mod 2^32. *)
Theorem gen_prebuild_hash_is_plain_sum
    (self : Psyclone) (x90_file : Path) (mp_payload : MpPayload) (r : AnalysedX90.t)
    (Hfile : analysed_x90 mp_payload !! x90_file = Some r)
    (Hdeps : ∀ k, k ∈ AnalysedX90.kernel_deps r → is_Some (all_kernel_hashes mp_payload !! k))
    (Hdistinct : ∀ k1 k2, k1 ∈ AnalysedX90.kernel_deps r → k2 ∈ AnalysedX90.kernel_deps r →
                          all_kernel_hashes mp_payload !! k1 = all_kernel_hashes mp_payload !! k2 →
                          k1 = k2) :
  let total :=
    AnalysedX90.file_hash r
    + kernel_hash_sum (all_kernel_hashes mp_payload) (AnalysedX90.kernel_deps r)
    + transformation_script_hash mp_payload
    + Hashing.string_checksum (Py.str_list (cli_args self)) in
  _gen_prebuild_hash self x90_file mp_payload = ok total
  ∧ Hashing.combine_spec
      [AnalysedX90.file_hash r;
       kernel_hash_sum (all_kernel_hashes mp_payload) (AnalysedX90.kernel_deps r);
       transformation_script_hash mp_payload;
       Hashing.string_checksum (Py.str_list (cli_args self))]
    = total mod 2 ^ 32.
Proof.
  intros total. split.
  - unfold _gen_prebuild_hash, getitem at 1. rewrite Hfile. simpl.
    rewrite rmapM_getitem_total by (intros k Hk; apply Hdeps; by apply elem_of_elements).
    simpl. rewrite sum_elements_list_to_set.
    + rewrite !sum_cons, sum_nil. unfold total, kernel_hash_sum. f_equal. lia.
    + apply NoDup_fmap_2_strong; [|apply NoDup_elements].
      intros k1 k2 Hk1%elem_of_elements Hk2%elem_of_elements Heq.
      apply Hdistinct; [done..|].
      destruct (Hdeps k1 Hk1) as [v1 Hv1], (Hdeps k2 Hk2) as [v2 Hv2].
      rewrite Hv1, Hv2 in *. simpl in Heq. by rewrite Heq.
  - unfold Hashing.combine_spec. rewrite !sum_cons, sum_nil. unfold total. f_equal. lia.
Qed.

Lemma gen_prebuild_hash_is_plain_sum_witness :
  _gen_prebuild_hash Fixtures.step Fixtures.algo_x90
    (Fixtures.payload 34567 {[ "k1"%string; "k2"%string ]}
       {[ "k1"%string := 100; "k2"%string := 200; "k3"%string := 300 ]} 7)
  = ok (34567 + 300 + 7 + 223132457).
Proof.
  pose proof (gen_prebuild_hash_is_plain_sum Fixtures.step Fixtures.algo_x90
    (Fixtures.payload 34567 {[ "k1"%string; "k2"%string ]}
       {[ "k1"%string := 100; "k2"%string := 200; "k3"%string := 300 ]} 7)
    (AnalysedX90.mk Fixtures.algo_x90 34567 {[ "k1"%string; "k2"%string ]})) as H.
  simpl in H. destruct H as [H _].
  - apply lookup_singleton_eq.
  - intros k Hk. apply elem_of_union in Hk as [Hk|Hk]; apply elem_of_singleton in Hk; subst k;
      vm_compute; eauto.
  - intros k1 k2 Hk1 Hk2.
    apply elem_of_union in Hk1 as [Hk1|Hk1]; apply elem_of_singleton in Hk1; subst k1;
    apply elem_of_union in Hk2 as [Hk2|Hk2]; apply elem_of_singleton in Hk2; subst k2;
      vm_compute; congruence.
  - rewrite H. vm_compute. reflexivity.
Defined.

(** C1 as stated fails: with a file hash of [2^32 - 1], no kernel
    dependency, no transformation script and no cli args the code's hash is
    above [2^32], while [combine] of the same values is reduced. *)
Lemma gen_prebuild_hash_not_reduced :
  _gen_prebuild_hash Fixtures.step Fixtures.algo_x90 (Fixtures.payload 4294967295 ∅ ∅ 0)
  = ok 4518099752
  ∧ Hashing.combine_spec
      [4294967295; kernel_hash_sum ∅ ∅; 0; Hashing.string_checksum (Py.str_list [])]
    = 223132456.
Proof. split; vm_compute; reflexivity. Qed.

(** Two kernel dependencies with the same hash count once: the hashes are
    collected in a set before they are summed. *)
Lemma gen_prebuild_hash_equal_kernel_hashes :
  _gen_prebuild_hash Fixtures.step Fixtures.algo_x90
    (Fixtures.payload 0 {[ "k1"%string; "k2"%string ]}
       {[ "k1"%string := 100; "k2"%string := 100 ]} 0)
  = ok (100 + 223132457).
Proof. vm_compute. reflexivity. Qed.

(** ** Kernel analysis *)

Section KernelAnalysis.

Variable fortran_analyser_run :
  gmap Path string → Path → (exn + AnalysedFortran.t) * option Path.
Variable file_walk : gmap Path string → Path → list Path → result (list Path).
Variable config : BuildConfig.

Lemma analyse_kernels_unfold (w : World) (roots : list Path) (all_kernel_files : gset Path) :
  set_star (chain1 (map (fun root => file_walk (files w) root [prebuild_folder config]) roots))
    = ok all_kernel_files →
  (_analyse_kernels fortran_analyser_run file_walk config w roots).2
  = gather_kernel_hashes (rights (analysed_kernel_results fortran_analyser_run w all_kernel_files)) ∅
  ∧ error_log (_analyse_kernels fortran_analyser_run file_walk config w roots).1
    = match lefts (analysed_kernel_results fortran_analyser_run w all_kernel_files) with
      | [] => error_log w
      | errors => error_log w ++ [errors]
      end.
Proof.
  intros Hset. unfold _analyse_kernels. rewrite Hset. unfold analysed_kernel_results.
  split; [reflexivity|]. simpl.
  destruct (lefts _); reflexivity.
Qed.

(** C3 (the code at the failing input).  With two or more kernel roots
    [_analyse_kernels] raises a [TypeError] before any file is walked or
    analysed: the file lists are unpacked into [set] as separate arguments. *)
Theorem analyse_kernels_many_roots (w : World) (root1 root2 : Path) (roots : list Path) :
  _analyse_kernels fortran_analyser_run file_walk config w (root1 :: root2 :: roots)
  = (w, raise (TypeError "set expected at most 1 argument")).
Proof. reflexivity. Qed.

(** With one root the set is the set of that root's files, with none it is empty. *)
Lemma analyse_kernels_one_root (w : World) (root : Path) (walked : list Path) :
  file_walk (files w) root [prebuild_folder config] = ok walked →
  set_star (chain1 (map (fun root => file_walk (files w) root [prebuild_folder config]) [root]))
  = ok (list_to_set walked).
Proof. intros Hw. simpl. rewrite Hw. reflexivity. Qed.

End KernelAnalysis.

(** *** Gathering the kernel hashes *)

Lemma gather_raises_on_known (afs : list AnalysedFortran.t) (acc : gmap string Z) :
  (∃ a k, a ∈ afs ∧ k ∈ dom (AnalysedFortran.psyclone_kernels a) ∧ k ∈ dom acc) →
  gather_kernel_hashes afs acc = raise duplicate_kernel.
Proof.
  revert acc. induction afs as [|af afs IH]; intros acc (a & k & Ha & Hka & Hk).
  - by apply elem_of_nil in Ha.
  - simpl. destruct (decide _) as [Hdisj|]; [|reflexivity].
    apply elem_of_cons in Ha as [->|Ha].
    + exfalso. apply elem_of_disjoint in Hdisj. exact (Hdisj k Hka Hk).
    + apply IH. exists a, k. split; [done|]. split; [done|].
      rewrite dom_union. apply elem_of_union_r, Hk.
Qed.

Lemma gather_raises_on_duplicate (afs : list AnalysedFortran.t) (acc : gmap string Z) :
  (∃ i j a b k, (i < j)%nat ∧ afs !! i = Some a ∧ afs !! j = Some b
                ∧ k ∈ dom (AnalysedFortran.psyclone_kernels a)
                ∧ k ∈ dom (AnalysedFortran.psyclone_kernels b)) →
  gather_kernel_hashes afs acc = raise duplicate_kernel.
Proof.
  revert acc. induction afs as [|af afs IH]; intros acc (i & j & a & b & k & Hij & Hi & Hj & Hka & Hkb).
  - by rewrite lookup_nil in Hi.
  - simpl. destruct (decide _) as [Hdisj|]; [|reflexivity].
    destruct j as [|j]; [lia|]. simpl in Hj.
    destruct i as [|i]; simpl in Hi.
    + injection Hi as ->. apply gather_raises_on_known.
      exists b, k. split; [by eapply list_elem_of_lookup_2|]. split; [done|].
      rewrite dom_union. by apply elem_of_union_l.
    + apply IH. exists i, j, a, b, k. repeat split; [lia|done..].
Qed.

Lemma gather_succeeds (afs : list AnalysedFortran.t) (acc : gmap string Z) :
  (∀ i j a b, i ≠ j → afs !! i = Some a → afs !! j = Some b →
              dom (AnalysedFortran.psyclone_kernels a) ## dom (AnalysedFortran.psyclone_kernels b)) →
  (∀ a, a ∈ afs → dom (AnalysedFortran.psyclone_kernels a) ## dom acc) →
  ∃ m, gather_kernel_hashes afs acc = ok m
       ∧ ∀ k h, m !! k = Some h ↔
                acc !! k = Some h
                ∨ ∃ a, a ∈ afs ∧ AnalysedFortran.psyclone_kernels a !! k = Some h.
Proof.
  revert acc. induction afs as [|af afs IH]; intros acc Hpair Hacc.
  - exists acc. split; [reflexivity|]. intros k h. split; [by left|].
    intros [?|(a & Ha & _)]; [done|]. by apply elem_of_nil in Ha.
  - simpl. destruct (decide _) as [Hdisj|Hn].
    2:{ exfalso. apply Hn, Hacc. left. }
    destruct (IH (AnalysedFortran.psyclone_kernels af ∪ acc)) as (m & Hm & Hchar).
    + intros i j a b Hne Hi Hj. apply (Hpair (S i) (S j)); [lia|done..].
    + intros a Ha. rewrite dom_union. apply disjoint_union_r. split.
      * apply list_elem_of_lookup_1 in Ha as [i Hi].
        apply (Hpair (S i) O); [lia|done..].
      * apply Hacc. by right.
    + exists m. split; [exact Hm|]. intros k h. rewrite Hchar. split.
      * intros [Hu|(a & Ha & Hk)].
        -- apply lookup_union_Some_raw in Hu as [Hu|[_ Hu]]; [|by left].
           right. exists af. split; [left|done].
        -- right. exists a. split; [by right|done].
      * intros [Hk|(a & Ha & Hk)].
        -- left. apply lookup_union_Some_raw. right. split; [|done].
           apply not_elem_of_dom. intros Hin. apply elem_of_disjoint in Hdisj.
           apply (Hdisj k); [done|]. apply elem_of_dom. eauto.
        -- apply elem_of_cons in Ha as [->|Ha].
           ++ left. apply lookup_union_Some_raw. by left.
           ++ right. exists a. split; done.
Qed.

(** *** Duplicate kernels, and errors of the two analysis phases *)

Section AnalysisPhases.

Variable x90_analyser_run :
  gmap Path string → Path → (exn + AnalysedX90.t) * option Path.
Variable fortran_analyser_run :
  gmap Path string → Path → (exn + AnalysedFortran.t) * option Path.
Variable file_walk : gmap Path string → Path → list Path → result (list Path).
Variable config : BuildConfig.

(** C8.  Once the set of kernel files is there: if two of the analysed files
    define a kernel of the same name, kernel analysis raises the
    duplicate-kernel assertion; if the kernel names of the analysed files are
    pairwise disjoint, it returns a mapping that holds exactly the kernel
    hashes of every analysed file. *)
Theorem analyse_kernels_duplicate_or_all
    (w : World) (roots : list Path) (all_kernel_files : gset Path)
    (Hset : set_star (chain1 (map (fun root => file_walk (files w) root [prebuild_folder config])
                                  roots))
            = ok all_kernel_files) :
  let analysed := rights (analysed_kernel_results fortran_analyser_run w all_kernel_files) in
  let outcome := (_analyse_kernels fortran_analyser_run file_walk config w roots).2 in
  ((∃ i j a b k, (i < j)%nat ∧ analysed !! i = Some a ∧ analysed !! j = Some b
                 ∧ k ∈ (dom (AnalysedFortran.psyclone_kernels a) : gset string)
                 ∧ k ∈ (dom (AnalysedFortran.psyclone_kernels b) : gset string)) →
   outcome = raise duplicate_kernel)
  ∧ ((∀ i j a b, i ≠ j → analysed !! i = Some a → analysed !! j = Some b →
                 (dom (AnalysedFortran.psyclone_kernels a) : gset string)
                 ## dom (AnalysedFortran.psyclone_kernels b)) →
     ∃ m, outcome = ok m
          ∧ ∀ k h, m !! k = Some h ↔
                   ∃ a, a ∈ analysed ∧ AnalysedFortran.psyclone_kernels a !! k = Some h).
Proof.
  intros analysed outcome.
  destruct (analyse_kernels_unfold fortran_analyser_run file_walk config w roots _ Hset)
    as [Hout _].
  fold outcome in Hout. fold analysed in Hout. rewrite Hout. split.
  - apply gather_raises_on_duplicate.
  - intros Hpair.
    destruct (gather_succeeds analysed ∅ Hpair) as (m & Hm & Hchar).
    + intros a _. rewrite dom_empty. apply disjoint_empty_r.
    + exists m. split; [exact Hm|]. intros k h. rewrite Hchar. split.
      * intros [Hk|Hk]; [by rewrite lookup_empty in Hk|done].
      * intros Hk. by right.
Qed.

(** C9 (as amended).  Once the parsable files are written and the set of
    kernel files is there: if some x90 fails to analyse, x90 analysis raises
    one error that carries every per-input error; if some kernel file fails
    to analyse, kernel analysis logs the per-input errors together and goes on
    to gather the kernel hashes of the files that did analyse, raising
    nothing for the failures. *)
Theorem analysis_errors_collected
    (w : World) (x90s roots : list Path)
    (parsable_x90s : list Path) (all_kernel_files : gset Path)
    (Hparsable : (run_mp make_parsable_x90 (files w) x90s).2 = ok parsable_x90s)
    (Hset : set_star (chain1 (map (fun root => file_walk (files w) root [prebuild_folder config])
                                  roots))
            = ok all_kernel_files) :
  let fs1 := (run_mp make_parsable_x90 (files w) x90s).1 in
  let x90_errors := lefts (map fst (map (x90_analyser_run fs1) parsable_x90s)) in
  let kernel_results := analysed_kernel_results fortran_analyser_run w all_kernel_files in
  (x90_errors ≠ [] →
   (_analyse_x90s x90_analyser_run w x90s).2 = raise (RuntimeError x90_errors))
  ∧ (lefts kernel_results ≠ [] →
     error_log (_analyse_kernels fortran_analyser_run file_walk config w roots).1
     = error_log w ++ [lefts kernel_results]
     ∧ (_analyse_kernels fortran_analyser_run file_walk config w roots).2
       = gather_kernel_hashes (rights kernel_results) ∅).
Proof.
  intros fs1 x90_errors kernel_results. split.
  - subst x90_errors fs1. intros Herr.
    unfold _analyse_x90s, check_for_errors.
    destruct (run_mp make_parsable_x90 (files w) x90s) as [fs1 [e|ps]]; [done|].
    simpl in Hparsable. injection Hparsable as ->. simpl in *.
    destruct (lefts (map fst (map (x90_analyser_run fs1) parsable_x90s))); [done|reflexivity].
  - intros Herr.
    destruct (analyse_kernels_unfold fortran_analyser_run file_walk config w roots _ Hset)
      as [Hout Hlog].
    fold kernel_results in Hout, Hlog. split; [|exact Hout].
    rewrite Hlog. destruct (lefts kernel_results); [done|reflexivity].
Qed.

End AnalysisPhases.

Lemma fixture_kernel_tree_analysed :
  rights (analysed_kernel_results Fixtures.fortran_analyser_run Fixtures.world0
            (list_to_set Fixtures.kernel_tree))
  = [Fixtures.analysed_kern_b; Fixtures.analysed_kern_a].
Proof. vm_compute. reflexivity. Qed.

Lemma fixture_file_walk (tree : list Path) (fs : gmap Path string) (ignore_folders : list Path) :
  Fixtures.file_walk tree fs Fixtures.kernels_root ignore_folders = ok tree.
Proof. unfold Fixtures.file_walk. by rewrite decide_True. Qed.

Lemma analyse_kernels_duplicate_or_all_witness :
  ∃ m, (_analyse_kernels Fixtures.fortran_analyser_run (Fixtures.file_walk Fixtures.kernel_tree)
          Fixtures.proj Fixtures.world0 [Fixtures.kernels_root]).2 = ok m
       ∧ m !! "kern_a_type"%string = Some 11
       ∧ m !! "kern_b_type"%string = Some 22.
Proof.
  destruct (analyse_kernels_duplicate_or_all Fixtures.fortran_analyser_run
              (Fixtures.file_walk Fixtures.kernel_tree) Fixtures.proj Fixtures.world0
              [Fixtures.kernels_root] (list_to_set Fixtures.kernel_tree)) as [_ H].
  - apply analyse_kernels_one_root, fixture_file_walk.
  - rewrite fixture_kernel_tree_analysed in H. destruct H as (m & Hm & Hchar).
    + intros [|[|i]] [|[|j]] a b Hne Hi Hj; simpl in Hi, Hj; try done.
      all: injection Hi as <-; injection Hj as <-.
      all: unfold Fixtures.analysed_kern_a, Fixtures.analysed_kern_b; simpl;
        rewrite !dom_singleton_L.
      all: apply disjoint_singleton_l, not_elem_of_singleton; discriminate.
    + exists m. split; [exact Hm|]. split; apply Hchar.
      * exists Fixtures.analysed_kern_a. split; [|apply lookup_singleton_eq].
        right. left.
      * exists Fixtures.analysed_kern_b. split; [|apply lookup_singleton_eq].
        left.
Defined.

(** Two analysed files with the same kernel name. *)
Lemma gather_kernel_hashes_duplicate_fixture :
  gather_kernel_hashes
    [Fixtures.analysed_kern_b; Fixtures.analysed_kern_a; Fixtures.analysed_kern_a_again] ∅
  = raise duplicate_kernel.
Proof. vm_compute. reflexivity. Qed.

Lemma analysis_errors_collected_witness :
  (_analyse_x90s Fixtures.x90_analyser_run Fixtures.world_empty_x90 [Fixtures.algo_x90]).2
  = raise (RuntimeError
             [AnalyseError ["/"; "fab"; "proj"; "source"; "algo.parsable_x90"]%string])
  ∧ error_log (_analyse_kernels Fixtures.fortran_analyser_run
                 (Fixtures.file_walk Fixtures.broken_tree) Fixtures.proj
                 Fixtures.world_empty_x90 [Fixtures.kernels_root]).1
    = [[AnalyseError Fixtures.broken_f90]].
Proof.
  destruct (analysis_errors_collected Fixtures.x90_analyser_run Fixtures.fortran_analyser_run
              (Fixtures.file_walk Fixtures.broken_tree) Fixtures.proj Fixtures.world_empty_x90
              [Fixtures.algo_x90] [Fixtures.kernels_root]
              [["/"; "fab"; "proj"; "source"; "algo.parsable_x90"]%string]
              (list_to_set Fixtures.broken_tree)) as [Hx Hk].
  - vm_compute. reflexivity.
  - apply analyse_kernels_one_root, fixture_file_walk.
  - split.
    + rewrite Hx; [vm_compute; reflexivity|]. vm_compute. discriminate.
    + destruct Hk as [Hlog _]; [vm_compute; discriminate|].
      rewrite Hlog. vm_compute. reflexivity.
Defined.

(** C9 as stated fails for kernel analysis: a kernel file fails to analyse,
    and kernel analysis returns the hashes of the other file without
    raising. *)
Lemma analyse_kernels_survives_errors :
  lefts (analysed_kernel_results Fixtures.fortran_analyser_run Fixtures.world0
           (list_to_set Fixtures.broken_tree))
  = [AnalyseError Fixtures.broken_f90]
  ∧ (_analyse_kernels Fixtures.fortran_analyser_run (Fixtures.file_walk Fixtures.broken_tree)
       Fixtures.proj Fixtures.world0 [Fixtures.kernels_root]).2
    = ok {[ "kern_a_type"%string := 11 ]}.
Proof. split; vm_compute; reflexivity. Qed.

(** C3: the failing input of the fixtures, two kernel roots. *)
Lemma analyse_kernels_two_roots_fixture :
  (_analyse_kernels Fixtures.fortran_analyser_run (Fixtures.file_walk Fixtures.kernel_tree)
     Fixtures.proj Fixtures.world0 [Fixtures.kernels_root; Fixtures.kernels_root]).2
  = raise (TypeError "set expected at most 1 argument").
Proof. reflexivity. Qed.

(** ** Paths: names, stems and suffixes *)

Lemma string_length_app (s t : string) :
  String.length (s +:+ t) = (String.length s + String.length t)%nat.
Proof. induction s as [|c s IH]; simpl; [reflexivity|]. by rewrite IH. Qed.

Lemma string_app_cons (c : ascii) (s t : string) : String c s +:+ t = String c (s +:+ t).
Proof. reflexivity. Qed.

Lemma string_app_nil_r (s : string) : s +:+ EmptyString = s.
Proof. induction s as [|c s IH]; [reflexivity|]. by rewrite string_app_cons, IH. Qed.

Lemma substring_all (s : string) : substring 0 (String.length s) s = s.
Proof. induction s as [|c s IH]; simpl; [reflexivity|]. by rewrite IH. Qed.

Lemma substring_0_app (s t : string) : substring 0 (String.length s) (s +:+ t) = s.
Proof.
  induction s as [|c s IH]; simpl; [by destruct t|]. by rewrite IH.
Qed.

Lemma substring_skip_app (s t : string) :
  substring (String.length s) (String.length t) (s +:+ t) = t.
Proof. induction s as [|c s IH]; simpl; [apply substring_all|exact IH]. Qed.

Lemma substring_split (i : nat) (s : string) :
  (i ≤ String.length s)%nat →
  substring 0 i s +:+ substring i (String.length s - i) s = s.
Proof.
  revert i. induction s as [|c s IH]; intros i Hi; simpl in *.
  - by destruct i.
  - destruct i as [|i]; simpl.
    + by rewrite substring_all.
    + rewrite string_app_cons, IH by lia. reflexivity.
Qed.

Lemma substring_0_length (i : nat) (s : string) :
  (i ≤ String.length s)%nat → String.length (substring 0 i s) = i.
Proof.
  revert i. induction s as [|c s IH]; intros i Hi; simpl in *.
  - destruct i; [reflexivity|lia].
  - destruct i as [|i]; simpl; [reflexivity|]. rewrite IH by lia. reflexivity.
Qed.

Lemma rfind_dot_lt (s : string) (i : nat) :
  PathLib.rfind_dot s = Some i → (i < String.length s)%nat.
Proof.
  revert i. induction s as [|c s IH]; intros i; simpl; [done|].
  destruct (PathLib.rfind_dot s) as [j|].
  - intros [= <-]. specialize (IH j eq_refl). lia.
  - destruct (Ascii.eqb c "."); [|done]. intros [= <-]. lia.
Qed.

Lemma rfind_dot_app (s t : string) :
  PathLib.rfind_dot (s +:+ t)
  = match PathLib.rfind_dot t with
    | Some i => Some (String.length s + i)%nat
    | None => PathLib.rfind_dot s
    end.
Proof.
  induction s as [|c s IH].
  - change (EmptyString +:+ t) with t. by destruct (PathLib.rfind_dot t).
  - rewrite string_app_cons. simpl. rewrite IH. by destruct (PathLib.rfind_dot t).
Qed.

Lemma name_joinpath (p : Path) (n : string) : PathLib.name (PathLib.joinpath p n) = n.
Proof. unfold PathLib.name, PathLib.joinpath. apply last_last. Qed.

Lemma parent_joinpath (p : Path) (n : string) : PathLib.parent (PathLib.joinpath p n) = p.
Proof. unfold PathLib.parent, PathLib.joinpath. apply removelast_last. Qed.

Lemma joinpath_parent_name (p : Path) :
  PathLib.name p ≠ EmptyString → PathLib.joinpath (PathLib.parent p) (PathLib.name p) = p.
Proof.
  intros Hn. unfold PathLib.joinpath, PathLib.parent, PathLib.name.
  symmetry. apply app_removelast_last. by intros ->.
Qed.

(** A name is its stem followed by its suffix, and the stem is not empty
    unless the name is. *)
Lemma name_stem_suffix (p : Path) :
  PathLib.name p = PathLib.stem p +:+ PathLib.suffix p.
Proof.
  unfold PathLib.stem, PathLib.suffix, PathLib.suffix_index.
  destruct (PathLib.rfind_dot (PathLib.name p)) as [i|] eqn:Hi.
  - destruct (_ && _).
    + symmetry. apply substring_split. apply rfind_dot_lt in Hi. lia.
    + by rewrite string_app_nil_r.
  - by rewrite string_app_nil_r.
Qed.

Lemma stem_nonempty (p : Path) :
  PathLib.name p ≠ EmptyString → PathLib.stem p ≠ EmptyString.
Proof.
  intros Hn. unfold PathLib.stem, PathLib.suffix_index.
  destruct (PathLib.rfind_dot (PathLib.name p)) as [i|] eqn:Hi; [|done].
  destruct (0 <? i)%nat eqn:H0; simpl; [|done].
  destruct (i <? _)%nat eqn:H1; [|done].
  apply Nat.ltb_lt in H0, H1. intros Hs.
  pose proof (substring_0_length i (PathLib.name p)) as Hl.
  rewrite Hs in Hl. simpl in Hl. lia.
Qed.

Lemma suffix_nonempty_name (p : Path) :
  PathLib.suffix p ≠ EmptyString → PathLib.name p ≠ EmptyString.
Proof.
  intros Hs Hn. apply Hs. unfold PathLib.suffix. rewrite Hn. reflexivity.
Qed.

Lemma with_suffix_stem (p : Path) (sfx : string) :
  PathLib.accepted_suffix sfx → PathLib.name p ≠ EmptyString →
  PathLib.with_suffix p sfx = ok (PathLib.joinpath (PathLib.parent p) (PathLib.stem p +:+ sfx)).
Proof.
  intros [Hc Hv] Hn. unfold PathLib.with_suffix. rewrite Hc, Hv.
  destruct (String.eqb_spec (PathLib.name p) EmptyString) as [|_]; [done|].
  destruct (String.eqb_spec (PathLib.suffix p) EmptyString) as [He|Hne].
  - do 3 f_equal. rewrite (name_stem_suffix p) at 1. rewrite He.
    apply string_app_nil_r.
  - do 3 f_equal. rewrite (name_stem_suffix p) at 1 2.
    rewrite string_length_app, Nat.add_sub. apply substring_0_app.
Qed.

(** The name [st ++ ext] has stem [st] and suffix [ext] when [st] is not
    empty and [ext] is a dot followed by at least one character, none a dot. *)
Lemma stem_suffix_of_name (d : Path) (st ext : string) :
  st ≠ EmptyString → PathLib.rfind_dot ext = Some O → (1 < String.length ext)%nat →
  PathLib.stem (PathLib.joinpath d (st +:+ ext)) = st
  ∧ PathLib.suffix (PathLib.joinpath d (st +:+ ext)) = ext.
Proof.
  intros Hst Hdot Hlen.
  unfold PathLib.stem, PathLib.suffix, PathLib.suffix_index. rewrite name_joinpath.
  rewrite rfind_dot_app, Hdot, Nat.add_0_r, string_length_app.
  assert (0 < String.length st)%nat as Hl by (destruct st; [done|simpl; lia]).
  destruct (0 <? String.length st)%nat eqn:H0; [|apply Nat.ltb_ge in H0; lia].
  destruct (String.length st <? String.length st + String.length ext - 1)%nat eqn:H1;
    [|apply Nat.ltb_ge in H1; lia].
  simpl. split; [apply substring_0_app|].
  replace (String.length st + String.length ext - String.length st)%nat
    with (String.length ext) by lia.
  apply substring_skip_app.
Qed.

(** The parsable path of an x90 and back. *)
Lemma parsable_x90_roundtrip (p : Path) :
  PathLib.suffix p = ".x90"%string →
  ∃ q, PathLib.with_suffix p ".parsable_x90" = ok q
       ∧ PathLib.suffix q = ".parsable_x90"%string
       ∧ PathLib.with_suffix q ".x90" = ok p.
Proof.
  intros Hs.
  assert (PathLib.name p ≠ EmptyString) as Hn by (apply suffix_nonempty_name; by rewrite Hs).
  pose proof (stem_nonempty p Hn) as Hst.
  exists (PathLib.joinpath (PathLib.parent p) (PathLib.stem p +:+ ".parsable_x90")).
  destruct (stem_suffix_of_name (PathLib.parent p) (PathLib.stem p) ".parsable_x90")
    as [Hstem Hsfx]; [done|reflexivity|simpl; lia|].
  split; [|split].
  - apply with_suffix_stem; [by split|done].
  - exact Hsfx.
  - rewrite with_suffix_stem.
    + rewrite Hstem, parent_joinpath. f_equal.
      rewrite <- Hs, <- name_stem_suffix. by apply joinpath_parent_name.
    + by split.
    + rewrite name_joinpath. by destruct (PathLib.stem p).
Qed.

(** ** Analysis of the x90s *)

Lemma rmapM_Forall2 {A B C} (f : B → result C) (R : A → B → Prop) (Q : A → C → Prop)
    (l : list A) (k : list B) :
  Forall2 R l k →
  (∀ a b, a ∈ l → R a b → ∃ c, f b = ok c ∧ Q a c) →
  ∃ cs, rmapM f k = ok cs ∧ Forall2 Q l cs.
Proof.
  induction 1 as [|a b l k HR _ IH]; intros Hf.
  - exists []. by split.
  - destruct (Hf a b) as (c & Hc & HQ); [left|done|].
    destruct IH as (cs & Hcs & HQs).
    { intros a' b' Ha'. apply Hf. by right. }
    exists (c :: cs). simpl. rewrite Hc. simpl. rewrite Hcs. simpl.
    split; [reflexivity|by constructor].
Qed.

Lemma map_analyser_Forall2 {A B C} (g : B → (exn + C) * option Path)
    (R : A → B → Prop) (Q : A → C → Prop) (l : list A) (k : list B) :
  Forall2 R l k →
  (∀ a b, a ∈ l → R a b → ∃ c, (g b).1 = inr c ∧ Q a c) →
  ∃ cs, map fst (map g k) = map inr cs ∧ Forall2 Q l cs.
Proof.
  induction 1 as [|a b l k HR _ IH]; intros Hg.
  - exists []. by split.
  - destruct (Hg a b) as (c & Hc & HQ); [left|done|].
    destruct IH as (cs & Hcs & HQs).
    { intros a' b' Ha'. apply Hg. by right. }
    exists (c :: cs). simpl. rewrite Hc, Hcs. split; [reflexivity|by constructor].
Qed.

Lemma lefts_map_inr {A B} (l : list B) : lefts (map (@inr A B) l) = [].
Proof. induction l; simpl; done. Qed.

Lemma rights_map_inr {A B} (l : list B) : rights (map (@inr A B) l) = l.
Proof. induction l as [|b l IH]; simpl; [done|]. by rewrite IH. Qed.

(** The dict built from items holds, under a key, one of the items with that
    key, and holds every key of the items. *)
Lemma dict_of_items_lookup `{Countable K} {V} (items : list (K * V)) (k : K) (v : V) :
  dict_of_items items !! k = Some v → (k, v) ∈ items.
Proof.
  unfold dict_of_items.
  assert (∀ d : gmap K V,
            fold_left (fun d kv => <[kv.1 := kv.2]> d) items d !! k = Some v →
            (k, v) ∈ items ∨ d !! k = Some v) as Hgen.
  { induction items as [|[k' v'] items IH]; intros d Hd; simpl in *; [by right|].
    destruct (IH _ Hd) as [Hin|Hd'].
    - left. by right.
    - destruct (decide (k' = k)) as [->|Hne].
      + rewrite lookup_insert_eq in Hd'. injection Hd' as ->. left. left.
      + rewrite lookup_insert_ne in Hd' by done. by right. }
  intros Hd. destruct (Hgen ∅ Hd) as [?|Hd']; [done|]. by rewrite lookup_empty in Hd'.
Qed.

Lemma dict_of_items_key `{Countable K} {V} (items : list (K * V)) (k : K) :
  k ∈ items.*1 → is_Some (dict_of_items items !! k).
Proof.
  unfold dict_of_items.
  assert (∀ d : gmap K V,
            k ∈ items.*1 ∨ is_Some (d !! k) →
            is_Some (fold_left (fun d kv => <[kv.1 := kv.2]> d) items d !! k)) as Hgen.
  { induction items as [|[k' v'] items IH]; intros d Hk; simpl in *.
    - destruct Hk as [Hk|Hk]; [by apply elem_of_nil in Hk|done].
    - apply IH. destruct Hk as [Hk|Hk].
      + apply elem_of_cons in Hk as [->|Hk]; [|by left].
        right. rewrite lookup_insert_eq. eauto.
      + right. destruct (decide (k' = k)) as [->|Hne].
        * rewrite lookup_insert_eq. eauto.
        * by rewrite lookup_insert_ne. }
  intros Hk. apply Hgen. by left.
Qed.

(** Writing the parsable files leaves every path with the suffix [.x90] as it was. *)
Lemma run_mp_make_parsable (fs : gmap Path string) (x90s : list Path) :
  (∀ p, p ∈ x90s → PathLib.suffix p = ".x90"%string ∧ is_Some (fs !! p)) →
  ∃ fs1 parsable_x90s,
    run_mp make_parsable_x90 fs x90s = (fs1, ok parsable_x90s)
    ∧ Forall2 (fun p q => PathLib.with_suffix p ".parsable_x90" = ok q) x90s parsable_x90s
    ∧ ∀ p, PathLib.suffix p = ".x90"%string → fs1 !! p = fs !! p.
Proof.
  revert fs. induction x90s as [|p x90s IH]; intros fs Hall.
  - exists fs, []. by repeat split.
  - destruct (Hall p) as [Hs [content Hc]]; [left|].
    destruct (parsable_x90_roundtrip p Hs) as (q & Hq & Hqs & _).
    set (fs' := <[q := string_of_list_ascii
                         (X90.make_parsable_text (X90.universal_newlines (X90.chars content)))]> fs).
    assert (∀ p', PathLib.suffix p' = ".x90"%string → fs' !! p' = fs !! p') as Hkeep.
    { intros p' Hp'. unfold fs'. apply lookup_insert_ne. intros ->. congruence. }
    destruct (IH fs') as (fs1 & ps & Hrun & Hps & Hfs1).
    { intros p' Hp'. destruct (Hall p') as [Hs' Hc']; [by right|].
      split; [done|]. by rewrite Hkeep. }
    exists fs1, (q :: ps). split; [|split].
    + assert (make_parsable_x90 fs p = (fs', ok q)) as Hone
        by (unfold make_parsable_x90; rewrite Hc, Hq; reflexivity).
      cbn [run_mp]. rewrite Hone, Hrun. reflexivity.
    + by constructor.
    + intros p' Hp'. rewrite Hfs1 by done. by apply Hkeep.
Qed.

Section AnalyseX90s.

Variable x90_analyser_run :
  gmap Path string → Path → (exn + AnalysedX90.t) * option Path.

(** C6.  For x90 files (paths with the suffix [.x90]) that exist, whose
    parsable versions the analyser analyses, giving each result the path it
    analysed: x90 analysis returns a mapping keyed by the original x90 paths,
    and the file hash recorded under an x90 is the checksum of the content
    of that original x90. *)
Theorem analyse_x90s_original_hash (w : World) (x90s : list Path)
    (Hx90 : ∀ p, p ∈ x90s → PathLib.suffix p = ".x90"%string ∧ is_Some (files w !! p))
    (Hanalysed : ∀ p q, p ∈ x90s → PathLib.with_suffix p ".parsable_x90" = ok q →
       ∃ r, (x90_analyser_run (run_mp make_parsable_x90 (files w) x90s).1 q).1 = inr r
            ∧ AnalysedX90.fpath r = q) :
  ∃ analysed,
    (_analyse_x90s x90_analyser_run w x90s).2 = ok analysed
    ∧ (∀ p content, p ∈ x90s → files w !! p = Some content →
         ∃ r, analysed !! p = Some r ∧ AnalysedX90.file_hash r = Hashing.crc32 content)
    ∧ (∀ p, is_Some (analysed !! p) → p ∈ x90s).
Proof.
  destruct (run_mp_make_parsable (files w) x90s Hx90) as (fs1 & parsable & Hrun & Hpars & Hfs1).
  rewrite Hrun in Hanalysed. simpl in Hanalysed.
  destruct (map_analyser_Forall2 (x90_analyser_run fs1)
              (fun p q => PathLib.with_suffix p ".parsable_x90" = ok q)
              (fun p r => PathLib.with_suffix (AnalysedX90.fpath r) ".x90" = ok p)
              x90s parsable Hpars) as (rs & Hrs & HR1).
  { intros p q Hp Hq. destruct (Hanalysed p q Hp Hq) as (r & Hr & Hf).
    exists r. split; [done|]. rewrite Hf.
    destruct (parsable_x90_roundtrip p) as (q' & Hq' & _ & Hback); [by apply Hx90|].
    rewrite Hq in Hq'. injection Hq' as <-. exact Hback. }
  destruct (rmapM_Forall2
              (fun r => let? p := PathLib.with_suffix (AnalysedX90.fpath r) ".x90" in ok (p, r))
              _ (fun p (kv : Path * AnalysedX90.t) => kv.1 = p) x90s rs HR1) as (keyed & Hkeyed & HR2).
  { intros p r _ Hr. exists (p, r). by rewrite Hr. }
  destruct (rmapM_Forall2
              (fun pr : Path * AnalysedX90.t =>
                 let? h := file_checksum fs1 pr.1 in
                 ok (pr.1, AnalysedX90.set_file_hash h pr.2))
              _ (fun p (kv : Path * AnalysedX90.t) =>
                   kv.1 = p ∧ ∀ content, files w !! p = Some content →
                                         AnalysedX90.file_hash kv.2 = Hashing.crc32 content)
              x90s keyed HR2) as (hashed & Hhashed & HR3).
  { intros p [k r] Hp Hk. simpl in Hk. subst k.
    destruct (Hx90 p Hp) as [Hs [content Hc]].
    exists (p, AnalysedX90.set_file_hash (Hashing.crc32 content) r).
    unfold file_checksum. simpl. rewrite Hfs1, Hc by done. simpl.
    split; [reflexivity|]. split; [reflexivity|]. intros c' Hc'. congruence. }
  exists (dict_of_items hashed). split; [|split].
  - unfold _analyse_x90s. rewrite Hrun. unfold check_for_errors.
    cbv beta iota zeta delta [ok]. rewrite Hrs, lefts_map_inr, rights_map_inr.
    match goal with |- (_, ?b).2 = ?r => change (b = r) end.
    unfold ok in Hkeyed, Hhashed. rewrite Hkeyed. unfold rbind at 1.
    rewrite Hhashed. reflexivity.
  - intros p content Hp Hc.
    destruct (dict_of_items_key hashed p) as [r Hr].
    { apply list_elem_of_lookup_1 in Hp as [i Hi].
      destruct (Forall2_lookup_l _ _ _ _ _ HR3 Hi) as (kv & Hkv & Hk & _).
      apply list_elem_of_fmap. exists kv. split; [done|].
      by eapply list_elem_of_lookup_2. }
    exists r. split; [done|].
    apply dict_of_items_lookup, list_elem_of_lookup_1 in Hr as [i Hi].
    destruct (Forall2_lookup_r _ _ _ _ _ HR3 Hi) as (p' & Hp' & Hk & Hh).
    simpl in Hk, Hh. subst p'. by apply Hh.
  - intros p [r Hr].
    apply dict_of_items_lookup, list_elem_of_lookup_1 in Hr as [i Hi].
    destruct (Forall2_lookup_r _ _ _ _ _ HR3 Hi) as (p' & Hp' & Hk & _).
    simpl in Hk. subst p'. by eapply list_elem_of_lookup_2.
Qed.

End AnalyseX90s.

Lemma analyse_x90s_original_hash_witness :
  ∃ analysed,
    (_analyse_x90s Fixtures.x90_analyser_run Fixtures.world0 [Fixtures.algo_x90]).2 = ok analysed
    ∧ ∃ r, analysed !! Fixtures.algo_x90 = Some r
           ∧ AnalysedX90.file_hash r = Hashing.crc32 Fixtures.algo_text.
Proof.
  destruct (analyse_x90s_original_hash Fixtures.x90_analyser_run Fixtures.world0
              [Fixtures.algo_x90]) as (analysed & Hok & Hhash & _).
  - intros p Hp%list_elem_of_singleton. subst p. split; [reflexivity|].
    eexists. apply lookup_singleton_eq.
  - intros p q Hp%list_elem_of_singleton Hq. subst p.
    vm_compute in Hq. injection Hq as <-.
    eexists. split; [vm_compute; reflexivity|reflexivity].
  - exists analysed. split; [exact Hok|].
    apply Hhash; [left|apply lookup_singleton_eq].
Defined.

(** The analyser itself saw the parsable text, whose checksum is another one. *)
Lemma fixture_parsable_text_checksum :
  string_of_list_ascii (X90.make_parsable_text (X90.chars Fixtures.algo_text))
  = "call invoke(kern_a_type(x))"%string
  ∧ Hashing.crc32 "call invoke(kern_a_type(x))" = 2773423746
  ∧ Hashing.crc32 Fixtures.algo_text = 1247122447.
Proof. repeat split; vm_compute; reflexivity. Qed.

(** ** The prebuild paths *)

Lemma str_int_roundtrip (n : Z) : Py.int_of_str (Py.str_int n) = Some n.
Proof.
  unfold Py.int_of_str, Py.str_int. rewrite NilZero.isi.
  - simpl. f_equal. apply DecimalZ.of_to.
  - destruct n; simpl; intros [= Hn]. by apply DecimalPos.Unsigned.to_uint_nonnil in Hn.
  - destruct n; simpl; intros [= Hn]. by apply DecimalPos.Unsigned.to_uint_nonnil in Hn.
Qed.

(** C7 (as amended).  The two prebuild files of an x90 are in the prebuild
    folder and are named stem, dot, hash, suffix, after the algorithm file
    and after the PSy file, where the hash component is the combo hash
    written as a decimal numeral (it reads back as the hash, whatever its
    size). *)
Theorem prebuild_paths_layout (config : BuildConfig) (modified_alg generated : Path)
    (prebuild_hash : Z) :
  let prebuilt := _get_prebuild_paths config modified_alg generated prebuild_hash in
  PathLib.parent prebuilt.1 = prebuild_folder config
  ∧ PathLib.name prebuilt.1
    = PathLib.stem modified_alg +:+ "." +:+ Py.str_int prebuild_hash
      +:+ PathLib.suffix modified_alg
  ∧ PathLib.parent prebuilt.2 = prebuild_folder config
  ∧ PathLib.name prebuilt.2
    = PathLib.stem generated +:+ "." +:+ Py.str_int prebuild_hash +:+ PathLib.suffix generated
  ∧ Py.int_of_str (Py.str_int prebuild_hash) = Some prebuild_hash.
Proof.
  unfold _get_prebuild_paths. simpl.
  rewrite !parent_joinpath, !name_joinpath. repeat split. apply str_int_roundtrip.
Qed.

(** C7 as stated fails: a hash that the step computes, 4518099752, is
    written in decimal in the file name, not as its hexadecimal numeral, and
    it is above [2^32 - 1]. *)
Lemma prebuild_name_is_decimal :
  (_get_prebuild_paths Fixtures.proj Fixtures.algo_f90
     ["/"; "fab"; "proj"; "build_output"; "algo_psy.f90"]%string 4518099752).1
  = ["/"; "fab"; "proj"; "build_output"; "_prebuild"; "algo.4518099752.f90"]%string
  ∧ Py.format_x 4518099752 = "10d4cbb28"%string
  ∧ 2 ^ 32 - 1 < 4518099752.
Proof. repeat split; vm_compute; reflexivity. Qed.

(** ** One x90 through [do_one_file], and the prebuilds that [run] registers *)

Section Run.

Variable x90_analyser_run :
  gmap Path string → Path → (exn + AnalysedX90.t) * option Path.
Variable fortran_analyser_run :
  gmap Path string → Path → (exn + AnalysedFortran.t) * option Path.
Variable file_walk : gmap Path string → Path → list Path → result (list Path).
Variable run_command : gmap Path string → list string → result (gmap Path string).
Variable input_to_output_fpath : BuildConfig → Path → result Path.
Variable config : BuildConfig.
Variable self : Psyclone.

(** What [do_one_file] returns is either an error it caught, with no
    prebuild list, or the outputs with both prebuild paths. *)
Lemma do_one_file_returns (fs fs' : gmap Path string) (x90_file : Path)
    (mp_payload : MpPayload) (res : one_file_result) :
  do_one_file run_command input_to_output_fpath config self fs (x90_file, mp_payload)
    = (fs', ok res) →
  (∃ err, res = (inl err, None))
  ∨ ∃ h alg modified_alg generated outputs,
      _gen_prebuild_hash self x90_file mp_payload = ok h
      ∧ PathLib.with_suffix x90_file ".f90" = ok alg
      ∧ input_to_output_fpath config alg = ok modified_alg
      ∧ input_to_output_fpath config
          (PathLib.joinpath (PathLib.parent x90_file) (PathLib.stem x90_file +:+ "_psy.f90"))
        = ok generated
      ∧ outputs = (if exists_ fs' generated then [modified_alg; generated] else [modified_alg])
      ∧ res = (inr outputs,
               Some [(_get_prebuild_paths config modified_alg generated h).1;
                     (_get_prebuild_paths config modified_alg generated h).2]).
Proof.
  intros Hdo. unfold do_one_file in Hdo.
  destruct (_gen_prebuild_hash self x90_file mp_payload) as [e|h] eqn:Hh; [done|].
  destruct (PathLib.with_suffix x90_file ".f90") as [e|alg] eqn:Halg; [done|].
  simpl in Hdo.
  destruct (input_to_output_fpath config alg) as [e|modified_alg] eqn:Hm; [done|].
  simpl in Hdo.
  destruct (input_to_output_fpath config
              (PathLib.joinpath (PathLib.parent x90_file) (PathLib.stem x90_file +:+ "_psy.f90")))
    as [e|generated] eqn:Hgen; [done|].
  simpl in Hdo.
  set (pa := (_get_prebuild_paths config modified_alg generated h).1).
  set (pg := (_get_prebuild_paths config modified_alg generated h).2).
  change (PathLib.joinpath (prebuild_folder config)
            (PathLib.stem modified_alg +:+ "." +:+ Py.str_int h +:+ PathLib.suffix modified_alg))
    with pa in Hdo.
  change (PathLib.joinpath (prebuild_folder config)
            (PathLib.stem generated +:+ "." +:+ Py.str_int h +:+ PathLib.suffix generated))
    with pg in Hdo.
  unfold ok, raise in Hdo.
  assert ((∃ outputs,
            outputs = (if exists_ fs' generated then [modified_alg; generated]
                       else [modified_alg])
            ∧ res = (inr outputs, Some [pa; pg]))
          ∨ ∃ err, res = (inl err, None)) as [(outputs & Hout & Hres)|Herr].
  { destruct (exists_ fs pa).
    - destruct (copy2 fs pa modified_alg) as [e|fs1]; [done|].
      destruct (exists_ fs1 pg).
      + destruct (copy2 fs1 pg generated) as [e|fs2]; [done|].
        injection Hdo as <- <-. left. eexists. by split.
      + injection Hdo as <- <-. left. eexists. by split.
    - destruct (run_psyclone run_command self fs generated modified_alg x90_file) as [e|fs1].
      { injection Hdo as _ <-. right. eauto. }
      destruct (copy2 fs1 modified_alg pa) as [e|fs2].
      { injection Hdo as _ <-. right. eauto. }
      destruct (exists_ fs2 generated) eqn:Hex.
      + destruct (copy2 fs2 generated pg) as [e|fs3] eqn:Hcp.
        { injection Hdo as _ <-. right. eauto. }
        injection Hdo as <- <-. left. eexists. by split.
      + injection Hdo as <- <-. left. eexists. split; [reflexivity|]. by rewrite Hex. }
  - right. exists h, alg, modified_alg, generated, outputs. by repeat split.
  - by left.
Qed.

Lemma run_mp_results {A B} (func : gmap Path string → A → gmap Path string * result B)
    (fs fs' : gmap Path string) (items : list A) (results : list B) :
  run_mp func fs items = (fs', ok results) →
  Forall2 (fun i r => ∃ fa fb, func fa i = (fb, ok r)) items results.
Proof.
  revert fs results. induction items as [|i items IH]; intros fs results; simpl.
  - intros [= _ <-]. constructor.
  - destruct (func fs i) as [fs1 [e|b]] eqn:Hf; [done|].
    destruct (run_mp func fs1 items) as [fs2 [e|bs]] eqn:Hrest; [done|].
    intros [= <- <-]. constructor; [eauto|]. by eapply IH.
Qed.

Lemma check_for_errors_ok {A} (results : list (exn + A)) (r : exn + A) :
  check_for_errors results = ok tt → r ∈ results → ∃ a, r = inr a.
Proof.
  unfold check_for_errors. intros Hchk Hr.
  destruct (lefts results) eqn:Hl; [|done]. clear Hchk.
  induction results as [|[e|a] results IH]; simpl in *.
  - by apply elem_of_nil in Hr.
  - done.
  - apply elem_of_cons in Hr as [->|Hr]; [eauto|by apply IH].
Qed.

Lemma elem_of_concat_somes (l : list (option (list Path))) (ps : list Path) (p : Path) :
  Some ps ∈ l → p ∈ ps → p ∈ concat (somes l).
Proof.
  intros Hl Hp. apply list_elem_of_In, in_concat. exists ps. split.
  - apply list_elem_of_In. unfold somes. apply list_elem_of_omap. by exists (Some ps).
  - by apply list_elem_of_In.
Qed.

(** C10.  When [do_one_file] returns outputs for an x90, the prebuild list
    it returns with them holds both prebuild paths, the one of the algorithm
    file and the one of the PSy file, whether or not a PSy file was
    generated or restored.  When the step runs to its end, both prebuild
    paths of every x90 it was given are in [CURRENT_PREBUILDS].  Hence a
    path that is not on disk can be registered: in the run of the fixtures,
    where no PSy file is generated, the PSy prebuild path is current and is
    no file. *)
Theorem run_registers_both_prebuilds :
  (∀ (fs fs' : gmap Path string) (x90_file : Path) (mp_payload : MpPayload)
     (outputs : list Path) (prebuilds : option (list Path)),
     do_one_file run_command input_to_output_fpath config self fs (x90_file, mp_payload)
     = (fs', ok (inr outputs, prebuilds)) →
     ∃ h alg modified_alg generated,
       _gen_prebuild_hash self x90_file mp_payload = ok h
       ∧ PathLib.with_suffix x90_file ".f90" = ok alg
       ∧ input_to_output_fpath config alg = ok modified_alg
       ∧ input_to_output_fpath config
           (PathLib.joinpath (PathLib.parent x90_file) (PathLib.stem x90_file +:+ "_psy.f90"))
         = ok generated
       ∧ prebuilds = Some [(_get_prebuild_paths config modified_alg generated h).1;
                           (_get_prebuild_paths config modified_alg generated h).2])
  ∧ (∀ (w : World) (x90s : list Path),
     (run x90_analyser_run fortran_analyser_run file_walk run_command input_to_output_fpath
          config self w x90s).2 = ok tt →
     ∃ mp_payload,
       (analysis_for_prebuilds x90_analyser_run fortran_analyser_run file_walk config self
          w x90s).2 = ok mp_payload
       ∧ ∀ x90_file, x90_file ∈ x90s →
           ∃ h alg modified_alg generated,
             _gen_prebuild_hash self x90_file mp_payload = ok h
             ∧ PathLib.with_suffix x90_file ".f90" = ok alg
             ∧ input_to_output_fpath config alg = ok modified_alg
             ∧ input_to_output_fpath config
                 (PathLib.joinpath (PathLib.parent x90_file)
                    (PathLib.stem x90_file +:+ "_psy.f90"))
               = ok generated
             ∧ (_get_prebuild_paths config modified_alg generated h).1
               ∈ CURRENT_PREBUILDS
                   (run x90_analyser_run fortran_analyser_run file_walk run_command
                        input_to_output_fpath config self w x90s).1
             ∧ (_get_prebuild_paths config modified_alg generated h).2
               ∈ CURRENT_PREBUILDS
                   (run x90_analyser_run fortran_analyser_run file_walk run_command
                        input_to_output_fpath config self w x90s).1)
  ∧ (Fixtures.run_psyclone_step.2 = ok tt
     ∧ Fixtures.algo_psy_prebuild ∈ elements (CURRENT_PREBUILDS Fixtures.run_psyclone_step.1)
     ∧ files Fixtures.run_psyclone_step.1 !! Fixtures.algo_psy_prebuild = None).
Proof.
  split; [|split].
  - intros fs fs' x90_file mp_payload outputs prebuilds Hdo.
    destruct (do_one_file_returns _ _ _ _ _ Hdo)
      as [[err [=]]|(h & alg & modified_alg & generated & outs & Hh & Ha & Hm & Hg & _ & [= _ ->])].
    by exists h, alg, modified_alg, generated.
  - intros w x90s. unfold run.
    destruct (analysis_for_prebuilds _ _ _ _ _ w x90s) as [w1 [e|mp_payload]]; [done|].
    destruct (run_mp _ (files w1) _) as [fs2 [e|results]] eqn:Hmp; [done|].
    destruct (check_for_errors (map fst results)) as [e|[]] eqn:Hchk; [done|].
    intros _. exists mp_payload. split; [reflexivity|].
    intros x90_file Hx. apply run_mp_results in Hmp.
    apply list_elem_of_lookup_1 in Hx as [i Hi].
    assert (map (fun x90 => (x90, mp_payload)) x90s !! i = Some (x90_file, mp_payload)) as Harg
      by (rewrite list_lookup_fmap, Hi; reflexivity).
    destruct (Forall2_lookup_l _ _ _ _ _ Hmp Harg) as (r & Hr & fa & fb & Hdo).
    apply list_elem_of_lookup_2 in Hr.
    destruct (do_one_file_returns _ _ _ _ _ Hdo)
      as [[err ->]|(h & alg & modified_alg & generated & outputs & Hh & Ha & Hm & Hg & _ & ->)].
    { destruct (check_for_errors_ok _ (inl err) Hchk) as [a Ha]; [|done].
      apply list_elem_of_In, (in_map fst) in Hr. by apply list_elem_of_In. }
    exists h, alg, modified_alg, generated. repeat split; try done.
    + simpl. apply elem_of_union_r, elem_of_list_to_set.
      eapply elem_of_concat_somes; [|left].
      apply list_elem_of_In, (in_map snd) in Hr. by apply list_elem_of_In.
    + simpl. apply elem_of_union_r, elem_of_list_to_set.
      eapply elem_of_concat_somes; [|right; left].
      apply list_elem_of_In, (in_map snd) in Hr. by apply list_elem_of_In.
  - split; [vm_compute; reflexivity|]. split.
    + vm_compute. do 3 right. left.
    + vm_compute. reflexivity.
Qed.

End Run.

(** ** The regular expression *)

Section Matching.
Import X90.

Context {R : Type}.
Implicit Types (k : text → option R) (s : text) (cls : ascii → bool).

Lemma strip_prefix_app (l s : text) : strip_prefix l (l ++ s) = Some s.
Proof.
  induction l as [|a l IH]; simpl; [reflexivity|].
  by rewrite Ascii.eqb_refl.
Qed.

Lemma strip_prefix_inv (l s s' : text) : strip_prefix l s = Some s' → s = l ++ s'.
Proof.
  revert s. induction l as [|a l IH]; intros s; simpl.
  - by intros [= ->].
  - destruct s as [|c s]; [done|].
    destruct (Ascii.eqb_spec a c) as [->|]; [|done].
    intros H. by rewrite (IH _ H).
Qed.

Lemma rmatch_cat (r1 r2 : regex) s k :
  rmatch (r1 ⋅ r2) s k = rmatch r1 s (fun s' => rmatch r2 s' k).
Proof. reflexivity. Qed.

Lemma rmatch_lit_inv (l : text) s k (x : R) :
  rmatch (Lit l) s k = Some x → ∃ s', s = l ++ s' ∧ k s' = Some x.
Proof.
  simpl. destruct (strip_prefix l s) as [s'|] eqn:Hl; [|done].
  intros H. exists s'. split; [by apply strip_prefix_inv|done].
Qed.

Lemma rmatch_lit_fwd (l : text) s k : rmatch (Lit l) (l ++ s) k = k s.
Proof. simpl. by rewrite strip_prefix_app. Qed.

Lemma star_match_inv cls s k (x : R) :
  star_match cls s k = Some x →
  ∃ w s', s = w ++ s' ∧ Forall (fun c => cls c = true) w ∧ k s' = Some x.
Proof.
  induction s as [|c s IH]; simpl.
  - intros H. by exists [], [].
  - destruct (cls c) eqn:Hc.
    + destruct (star_match cls s k) as [r|] eqn:Hs.
      * intros [= ->]. destruct (IH eq_refl) as (w & s' & -> & Hw & Hk).
        exists (c :: w), s'. split; [done|]. split; [by constructor|done].
      * intros H. by exists [], (c :: s).
    + intros H. by exists [], (c :: s).
Qed.

Lemma star_match_fwd cls (w : text) s k (x : R) :
  Forall (fun c => cls c = true) w → not_starting cls s → k s = Some x →
  star_match cls (w ++ s) k = Some x.
Proof.
  intros Hw Hs Hk. induction Hw as [|c w Hc _ IH]; simpl.
  - destruct s as [|c s]; simpl in *; [done|]. by rewrite Hs.
  - by rewrite Hc, IH.
Qed.

Lemma rmatch_plus_inv cls s k (x : R) :
  rmatch (Plus cls) s k = Some x →
  ∃ w s', s = w ++ s' ∧ w ≠ [] ∧ Forall (fun c => cls c = true) w ∧ k s' = Some x.
Proof.
  simpl. destruct s as [|c s]; [done|]. destruct (cls c) eqn:Hc; [|done].
  intros H. apply star_match_inv in H as (w & s' & -> & Hw & Hk).
  exists (c :: w), s'. split; [done|]. split; [done|]. split; [by constructor|done].
Qed.

Lemma rmatch_plus_fwd cls (w : text) s k (x : R) :
  w ≠ [] → Forall (fun c => cls c = true) w → not_starting cls s → k s = Some x →
  rmatch (Plus cls) (w ++ s) k = Some x.
Proof.
  intros Hne Hw Hs Hk. destruct w as [|c w]; [done|].
  apply Forall_cons in Hw as [Hc Hw]. simpl. rewrite Hc. by apply star_match_fwd.
Qed.

Lemma rmatch_alt_inv (r1 r2 : regex) s k (x : R) :
  rmatch (Alt r1 r2) s k = Some x → rmatch r1 s k = Some x ∨ rmatch r2 s k = Some x.
Proof. simpl. destruct (rmatch r1 s k); [by left|by right]. Qed.

End Matching.

Section NamedInvoke.
Import X90.

(** The last repetition of the pattern takes all the characters of its class. *)
Lemma star_match_last (cls : ascii → bool) (s rest : text) :
  star_match cls s Some = Some rest →
  ∃ w, s = w ++ rest ∧ Forall (fun c => cls c = true) w ∧ not_starting cls rest.
Proof.
  revert rest. induction s as [|c s IH]; intros rest; simpl.
  - intros [= <-]. by exists [].
  - destruct (cls c) eqn:Hc.
    + destruct (star_match cls s Some) as [r|] eqn:Hs.
      * intros [= ->]. destruct (IH _ eq_refl) as (w & -> & Hw & Hr).
        exists (c :: w). split; [done|]. split; [by constructor|done].
      * intros [= <-]. exists []. split; [done|]. split; [constructor|].
        exfalso. clear -Hs. induction s as [|c' s IH]; simpl in Hs; [done|].
        destruct (cls c'); [|done]. by destruct (star_match cls s Some).
    + intros [= <-]. exists []. split; [done|]. split; [constructor|done].
Qed.

Lemma white_not_quote (q : ascii) :
  q = Py.squote ∨ q = Py.dquote → WHITE_class q = false.
Proof. by intros [->| ->]. Qed.

(** A quoted string, in either quote, and what follows it. *)
Lemma rmatch_string_inv {R} (s : text) (k : text → option R) (x : R) :
  rmatch STRING s k = Some x →
  ∃ q body s', s = [q] ++ body ++ [q] ++ s'
               ∧ (q = Py.squote ∨ q = Py.dquote)
               ∧ Forall (fun c => c ≠ q) body
               ∧ k s' = Some x.
Proof.
  assert (∀ q, rmatch (Lit [q] ⋅ Star (not_char q) ⋅ Lit [q]) s k = Some x →
               ∃ body s', s = [q] ++ body ++ [q] ++ s' ∧ Forall (fun c => c ≠ q) body
                          ∧ k s' = Some x) as Hq.
  { intros q H. rewrite rmatch_cat in H. apply rmatch_lit_inv in H as (s1 & -> & H).
    rewrite rmatch_cat in H. apply star_match_inv in H as (body & s2 & -> & Hbody & H).
    apply rmatch_lit_inv in H as (s3 & -> & H).
    exists body, s3. split; [done|]. split; [|done].
    eapply Forall_impl; [exact Hbody|]. intros c Hc ->.
    unfold not_char in Hc. by rewrite Ascii.eqb_refl in Hc. }
  intros H. unfold STRING in H. apply rmatch_alt_inv in H as [H|H].
  - destruct (Hq _ H) as (body & s' & Hs & Hb & Hk). exists Py.squote, body, s'. eauto 6.
  - destruct (Hq _ H) as (body & s' & Hs & Hb & Hk). exists Py.dquote, body, s'. eauto 6.
Qed.

Lemma rmatch_string_fwd {R} (q : ascii) (body s : text) (k : text → option R) (x : R) :
  q = Py.squote ∨ q = Py.dquote → Forall (fun c => c ≠ q) body → k s = Some x →
  rmatch STRING ([q] ++ body ++ [q] ++ s) k = Some x.
Proof.
  intros Hq Hbody Hk.
  assert (rmatch (Lit [q] ⋅ Star (not_char q) ⋅ Lit [q]) ([q] ++ body ++ [q] ++ s) k = Some x)
    as Hone.
  { rewrite rmatch_cat, rmatch_lit_fwd, rmatch_cat. apply star_match_fwd.
    - eapply Forall_impl; [exact Hbody|]. intros c Hc. unfold not_char.
      by destruct (Ascii.eqb_spec c q).
    - simpl. unfold not_char. by rewrite Ascii.eqb_refl.
    - by rewrite rmatch_lit_fwd. }
  unfold STRING. destruct Hq as [-> | ->].
  - change (rmatch (Group (Alt SQ_STRING DQ_STRING)) ?t k)
      with (match rmatch SQ_STRING t k with Some y => Some y | None => rmatch DQ_STRING t k end).
    unfold SQ_STRING. by rewrite Hone.
  - change (rmatch (Group (Alt SQ_STRING DQ_STRING)) ?t k)
      with (match rmatch SQ_STRING t k with Some y => Some y | None => rmatch DQ_STRING t k end).
    replace (rmatch SQ_STRING ([Py.dquote] ++ body ++ [Py.dquote] ++ s) k) with (@None R)
      by reflexivity.
    exact Hone.
Qed.

(** The pattern matches at the start of a text exactly when the text starts
    with a named invoke that takes all the whitespace after its comma; the
    match leaves the rest of the text. *)
Lemma match_at_named_invoke (s rest : text) :
  match_at NAMED_INVOKE s = Some rest
  ↔ ∃ m, s = m ++ rest ∧ named_invoke m ∧ not_starting WHITE_class rest.
Proof.
  split.
  - unfold match_at, NAMED_INVOKE, NAME_KEYWORD, WHITE, OPT_WHITE. intros H.
    rewrite rmatch_cat in H. apply rmatch_lit_inv in H as (s1 & -> & H).
    rewrite rmatch_cat in H. apply rmatch_plus_inv in H as (w1 & s2 & -> & Hne & Hw1 & H).
    rewrite rmatch_cat in H. apply rmatch_lit_inv in H as (s3 & -> & H).
    rewrite rmatch_cat in H. apply star_match_inv in H as (w2 & s4 & -> & Hw2 & H).
    rewrite rmatch_cat in H. apply rmatch_lit_inv in H as (s5 & -> & H).
    rewrite rmatch_cat in H. apply star_match_inv in H as (w3 & s6 & -> & Hw3 & H).
    rewrite rmatch_cat in H. apply rmatch_lit_inv in H as (s7 & -> & H).
    rewrite rmatch_cat in H. apply star_match_inv in H as (w4 & s8 & -> & Hw4 & H).
    rewrite rmatch_cat in H. apply rmatch_lit_inv in H as (s9 & -> & H).
    rewrite rmatch_cat in H. apply star_match_inv in H as (w5 & s10 & -> & Hw5 & H).
    rewrite rmatch_cat in H.
    apply rmatch_string_inv in H as (q & body & s11 & -> & Hq & Hbody & H).
    rewrite rmatch_cat in H. apply star_match_inv in H as (w6 & s12 & -> & Hw6 & H).
    rewrite rmatch_cat in H. apply rmatch_lit_inv in H as (s13 & -> & H).
    apply star_match_last in H as (w7 & -> & Hw7 & Hrest).
    exists (named_invoke_text w1 w2 w3 w4 w5 q body w6 w7). split; [|split; [|done]].
    + unfold named_invoke_text. by rewrite <- !app_assoc.
    + exists w1, w2, w3, w4, w5, q, body, w6, w7. by repeat split.
  - intros (m & -> & (w1 & w2 & w3 & w4 & w5 & q & body & w6 & w7 & -> & Hne & Hw1 & Hw2 & Hw3
                      & Hw4 & Hw5 & Hw6 & Hw7 & Hq & Hbody) & Hrest).
    unfold named_invoke_text. rewrite <- !app_assoc.
    unfold match_at, NAMED_INVOKE, NAME_KEYWORD, WHITE, OPT_WHITE.
    rewrite rmatch_cat, rmatch_lit_fwd.
    rewrite rmatch_cat. apply rmatch_plus_fwd; [done|done|exact eq_refl|].
    rewrite rmatch_cat, rmatch_lit_fwd.
    rewrite rmatch_cat. apply star_match_fwd; [done|exact eq_refl|].
    rewrite rmatch_cat, rmatch_lit_fwd.
    rewrite rmatch_cat. apply star_match_fwd; [done|exact eq_refl|].
    rewrite rmatch_cat, rmatch_lit_fwd.
    rewrite rmatch_cat. apply star_match_fwd; [done|exact eq_refl|].
    rewrite rmatch_cat, rmatch_lit_fwd.
    rewrite rmatch_cat. apply star_match_fwd; [done|by apply white_not_quote|].
    rewrite rmatch_cat. apply rmatch_string_fwd; [done..|].
    rewrite rmatch_cat. apply star_match_fwd; [done|exact eq_refl|].
    rewrite rmatch_cat, rmatch_lit_fwd.
    by apply star_match_fwd.
Qed.

End NamedInvoke.

(** ** Substitution *)

Section Substitution.
Import X90.

Variable pattern : regex.
Variable replacement : text.
Hypothesis match_shrinks :
  ∀ s rest, match_at pattern s = Some rest → (length replacement + length rest < length s)%nat.

(** Enough fuel: the bound of [sub] never cuts the scan short. *)
Lemma sub_fuel_enough (n m : nat) (s : text) :
  (length s ≤ n)%nat → (length s ≤ m)%nat →
  sub_fuel n pattern replacement s = sub_fuel m pattern replacement s.
Proof.
  revert m s. induction n as [|n IH]; intros m s Hn Hm.
  - destruct s; [|simpl in Hn; lia]. by destruct m.
  - destruct s as [|c s]; [by destruct m|].
    destruct m as [|m]; [simpl in Hm; lia|]. simpl in *.
    destruct (match_at pattern (c :: s)) as [rest|] eqn:Hmatch.
    + apply match_shrinks in Hmatch. simpl in Hmatch. f_equal. apply IH; lia.
    + f_equal. apply IH; lia.
Qed.

Lemma sub_nil : sub pattern replacement [] = [].
Proof. reflexivity. Qed.

Lemma sub_match (s rest : text) :
  match_at pattern s = Some rest →
  sub pattern replacement s = replacement ++ sub pattern replacement rest.
Proof.
  intros Hmatch. pose proof (match_shrinks _ _ Hmatch) as Hlen.
  unfold sub. destruct s as [|c s]; [simpl in Hlen; lia|].
  simpl length. cbn [sub_fuel]. rewrite Hmatch. f_equal.
  apply sub_fuel_enough; simpl in Hlen; lia.
Qed.

Lemma sub_skip (c : ascii) (s : text) :
  match_at pattern (c :: s) = None →
  sub pattern replacement (c :: s) = c :: sub pattern replacement s.
Proof. intros Hmatch. unfold sub. simpl length. cbn [sub_fuel]. by rewrite Hmatch. Qed.

(** Induction along the scan. *)
Lemma sub_scan_ind (Q : text → text → Prop) :
  Q [] [] →
  (∀ s rest out, match_at pattern s = Some rest → Q rest out → Q s (replacement ++ out)) →
  (∀ c s out, match_at pattern (c :: s) = None → Q s out → Q (c :: s) (c :: out)) →
  ∀ s, Q s (sub pattern replacement s).
Proof.
  intros Hnil Hmatch Hskip s.
  remember (length s) as n eqn:Hn. revert s Hn.
  induction n as [n IH] using lt_wf_ind. intros s ->.
  destruct s as [|c s]; [exact Hnil|].
  destruct (match_at pattern (c :: s)) as [rest|] eqn:Hm.
  - rewrite (sub_match _ _ Hm). apply (Hmatch _ _ _ Hm).
    apply (IH (length rest)); [|reflexivity]. apply match_shrinks in Hm. lia.
  - rewrite (sub_skip _ _ Hm). apply (Hskip _ _ _ Hm).
    apply (IH (length s)); [simpl; lia|reflexivity].
Qed.

Lemma sub_length (s : text) :
  (length (sub pattern replacement s) ≤ length s)%nat
  ∧ (has_match pattern s = true → (length (sub pattern replacement s) < length s)%nat).
Proof.
  apply (sub_scan_ind (fun s out =>
           (length out ≤ length s)%nat ∧ (has_match pattern s = true → (length out < length s)%nat))).
  - split; [done|]. simpl. done.
  - intros s0 rest out Hm [Hle _]. apply match_shrinks in Hm. rewrite length_app. lia.
  - intros c s0 out Hm [Hle Hlt]. simpl has_match. rewrite Hm. simpl. split; [lia|].
    intros H. specialize (Hlt H). lia.
Qed.

Lemma sub_no_match (s : text) :
  has_match pattern s = false → sub pattern replacement s = s.
Proof.
  apply (sub_scan_ind (fun s out => has_match pattern s = false → out = s)).
  - done.
  - intros s0 rest out Hm _ Hno. destruct s0 as [|c s0]; simpl in Hno.
    + apply match_shrinks in Hm. simpl in Hm. lia.
    + by rewrite Hm in Hno.
  - intros c s0 out Hm IH Hno. simpl in Hno. rewrite Hm in Hno. by rewrite IH.
Qed.

(** The substitution leaves a text as it is exactly when no position of the
    text starts a match. *)
Lemma sub_fixed_iff (s : text) :
  sub pattern replacement s = s ↔ has_match pattern s = false.
Proof.
  split; [|apply sub_no_match].
  intros Hfix. destruct (has_match pattern s) eqn:Hhas; [|done].
  destruct (sub_length s) as [_ Hlt]. specialize (Hlt Hhas). rewrite Hfix in Hlt. lia.
Qed.

End Substitution.

(** ** Lines and comment lines *)

Section Lines.
Import X90.

Lemma eqb_newline (c : ascii) : Ascii.eqb c newline = false → c ≠ newline.
Proof. intros H ->. by rewrite Ascii.eqb_refl in H. Qed.

Lemma concat_readlines (s : text) : concat (readlines s) = s.
Proof.
  induction s as [|c s IH]; [reflexivity|]. simpl.
  destruct (Ascii.eqb c newline).
  - simpl. by rewrite IH.
  - destruct (readlines s) as [|l ls]; simpl in *; by rewrite <- IH.
Qed.

Lemma readlines_lines_ok (s : text) : lines_ok (readlines s).
Proof.
  induction s as [|c s IH]; simpl; [constructor|].
  destruct (Ascii.eqb_spec c newline) as [->|Hc].
  - apply (lines_ok_cons []); [constructor|done].
  - destruct (readlines s) as [|l ls].
    + apply lines_ok_last; [done|]. by repeat constructor.
    + inversion IH as [|l' Hne Hl|l' ls' Hl Hls]; subst.
      * apply lines_ok_last; [done|by constructor].
      * apply (lines_ok_cons (c :: l')); [by constructor|done].
Qed.

Lemma lines_ok_filter (P : text → Prop) `{∀ l, Decision (P l)} (ls : list text) :
  lines_ok ls → lines_ok (filter P ls).
Proof.
  induction 1 as [|l Hne Hl|l ls Hl Hls IH].
  - constructor.
  - rewrite filter_cons. destruct (decide (P l)); [by apply lines_ok_last|constructor].
  - rewrite filter_cons. destruct (decide (P (l ++ [newline]))); [by constructor|done].
Qed.

Lemma readlines_line (l rest : text) :
  Forall (fun c => c ≠ newline) l →
  readlines ((l ++ [newline]) ++ rest) = (l ++ [newline]) :: readlines rest.
Proof.
  induction 1 as [|c l Hc _ IH]; simpl.
  - reflexivity.
  - destruct (Ascii.eqb_spec c newline) as [|_]; [done|].
    simpl in IH. by rewrite IH.
Qed.

Lemma readlines_last_line (l : text) :
  l ≠ [] → Forall (fun c => c ≠ newline) l → readlines l = [l].
Proof.
  intros Hne Hl. induction Hl as [|c l Hc Hl IH]; [done|]. simpl.
  destruct (Ascii.eqb_spec c newline) as [|_]; [done|].
  destruct l as [|c' l]; [reflexivity|]. by rewrite IH.
Qed.

Lemma readlines_concat (ls : list text) : lines_ok ls → readlines (concat ls) = ls.
Proof.
  induction 1 as [|l Hne Hl|l ls Hl Hls IH].
  - reflexivity.
  - simpl. rewrite app_nil_r. by apply readlines_last_line.
  - simpl. by rewrite readlines_line, IH.
Qed.

(** The lines of the stripped source are the lines of the source that are
    no comment lines. *)
Lemma readlines_strip_comments (src : text) :
  readlines (strip_comments src) = no_comment_lines (readlines src).
Proof.
  unfold strip_comments, no_comment_lines.
  apply readlines_concat, lines_ok_filter, readlines_lines_ok.
Qed.

(** A comment line is whitespace followed by [!]. *)
Lemma is_comment_line_spec (line : text) :
  is_comment_line line = true
  ↔ ∃ ws rest, line = ws ++ bang :: rest ∧ Forall (fun c => is_space c = true) ws.
Proof.
  unfold is_comment_line. split.
  - induction line as [|c line IH]; simpl; [done|].
    destruct (is_space c) eqn:Hc.
    + intros H. destruct (IH H) as (ws & rest & -> & Hws).
      exists (c :: ws), rest. split; [done|by constructor].
    + simpl. destruct (Ascii.eqb_spec c bang) as [->|]; [|done].
      intros _. by exists [], line.
  - intros (ws & rest & -> & Hws). induction Hws as [|c ws Hc _ IH]; simpl.
    + reflexivity.
    + by rewrite Hc.
Qed.

Lemma keep_line_cons (c : ascii) (l : text) :
  keep_line (c :: l) = if is_space c then keep_line l else negb (Ascii.eqb c bang).
Proof. unfold keep_line, is_comment_line. simpl. by destruct (is_space c). Qed.

(** The scan of a text agrees with its lines. *)
Lemma no_comment_readlines (s : text) :
  no_comment LineStart s = forallb keep_line (readlines s)
  ∧ no_comment InLine s = forallb keep_line (tail (readlines s)).
Proof.
  induction s as [|c s [IH1 IH2]]; [done|].
  cbn [no_comment readlines]. unfold line_step.
  destruct (Ascii.eqb_spec c newline) as [->|Hc].
  - split; [|exact IH1]. rewrite IH1. reflexivity.
  - assert (forallb keep_line
              match readlines s with [] => [[c]] | l :: ls => (c :: l) :: ls end
            = (if is_space c then forallb keep_line (readlines s)
               else negb (Ascii.eqb c bang) && forallb keep_line (tail (readlines s)))) as ->.
    { destruct (readlines s) as [|l ls]; cbn [forallb tail]; rewrite keep_line_cons;
        destruct (is_space c); reflexivity. }
    assert (tail match readlines s with [] => [[c]] | l :: ls => (c :: l) :: ls end
            = tail (readlines s)) as -> by (by destruct (readlines s)).
    split; [|exact IH2].
    destruct (is_space c); [exact IH1|].
    destruct (Ascii.eqb c bang); [reflexivity|exact IH2].
Qed.

Lemma no_comment_lines_keep (ls : list text) :
  forallb keep_line (no_comment_lines ls) = true.
Proof.
  unfold no_comment_lines. induction ls as [|l ls IH]; [reflexivity|].
  rewrite filter_cons. destruct (decide _) as [Hl|]; [|done].
  simpl. rewrite IH. unfold keep_line. by destruct (is_comment_line l).
Qed.

Lemma no_comment_lines_all (ls : list text) :
  forallb keep_line ls = true → no_comment_lines ls = ls.
Proof.
  unfold no_comment_lines. induction ls as [|l ls IH]; [reflexivity|].
  simpl. intros [Hl Hls]%andb_true_iff. rewrite filter_cons.
  destruct (decide _) as [_|Hn].
  - by rewrite IH.
  - exfalso. apply Hn. unfold keep_line in Hl. by rewrite Hl.
Qed.

(** The stripped source has no comment line, and stripping changes nothing
    in a text without comment lines. *)
Lemma strip_comments_no_comment (src : text) :
  no_comment LineStart (strip_comments src) = true.
Proof.
  rewrite (proj1 (no_comment_readlines _)), readlines_strip_comments.
  apply no_comment_lines_keep.
Qed.

Lemma strip_comments_fixed (t : text) :
  no_comment LineStart t = true → strip_comments t = t.
Proof.
  rewrite (proj1 (no_comment_readlines _)). intros H.
  unfold strip_comments. rewrite no_comment_lines_all by done. apply concat_readlines.
Qed.

End Lines.

(** ** Making an x90 parsable *)

Section MakeParsable.
Import X90.

Lemma named_invoke_length (m : text) : named_invoke m → (20 ≤ length m)%nat.
Proof.
  intros (w1 & w2 & w3 & w4 & w5 & q & body & w6 & w7 & -> & Hne & _).
  unfold named_invoke_text. rewrite !length_app. simpl.
  destruct w1; [done|]. simpl. lia.
Qed.

Lemma named_invoke_shrinks (s rest : text) :
  match_at NAMED_INVOKE s = Some rest → (length repl + length rest < length s)%nat.
Proof.
  intros (m & -> & Hm & _)%match_at_named_invoke.
  apply named_invoke_length in Hm. rewrite length_app.
  change (length repl) with 12%nat. lia.
Qed.

Lemma no_comment_weaken (s : text) :
  no_comment LineStart s = true → no_comment InLine s = true.
Proof.
  induction s as [|c s IH]; [done|]. simpl. unfold line_step.
  destruct (Ascii.eqb c newline); [done|].
  destruct (is_space c); [exact IH|]. by destruct (Ascii.eqb c bang).
Qed.

Lemma no_comment_app (st : line_state) (m rest : text) :
  no_comment st (m ++ rest) = true → no_comment InLine rest = true.
Proof.
  revert st. induction m as [|c m IH]; intros st; simpl.
  - destruct st; [apply no_comment_weaken|done].
  - destruct (line_step st c) as [st'|]; [apply IH|done].
Qed.

Lemma no_comment_repl (st : line_state) (out : text) :
  no_comment st (repl ++ out) = no_comment InLine out.
Proof. by destruct st. Qed.

(** The rewrite makes no comment line. *)
Lemma sub_keeps_no_comment (s : text) (st : line_state) :
  no_comment st s = true → no_comment st (sub NAMED_INVOKE repl s) = true.
Proof.
  revert st.
  apply (sub_scan_ind NAMED_INVOKE repl named_invoke_shrinks
           (fun s out => ∀ st, no_comment st s = true → no_comment st out = true)).
  - done.
  - intros s0 rest out Hm IH st Hs.
    apply match_at_named_invoke in Hm as (m & -> & _ & _).
    rewrite no_comment_repl. apply IH. by eapply no_comment_app.
  - intros c s0 out _ IH st. simpl. destruct (line_step st c); [apply IH|done].
Qed.

Lemma make_parsable_text_unfold (src : text) :
  make_parsable_text src = sub NAMED_INVOKE repl (strip_comments src).
Proof. reflexivity. Qed.

(** C4.  [make_parsable_x90] first takes out the comment lines, the lines
    that are whitespace followed by [!], keeping the other lines as they
    are and in order, then rewrites what is left from left to right: where a
    named invoke starts ([call], whitespace or continuation marks, [invoke(],
    the [name] keyword, [=], a string in single or double quotes and a
    comma, each with optional whitespace or continuation marks around it) it
    is replaced by [call invoke(] and the scan goes on after it; a character
    where none starts is copied.  The spec's example comes out as stated. *)
Theorem make_parsable_text_spec :
  (∀ src, make_parsable_text src = sub NAMED_INVOKE repl (strip_comments src))
  ∧ (∀ src, readlines (strip_comments src)
            = filter (fun line => is_comment_line line = false) (readlines src))
  ∧ (∀ line, is_comment_line line = true
             ↔ ∃ ws rest, line = ws ++ bang :: rest ∧ Forall (fun c => is_space c = true) ws)
  ∧ sub NAMED_INVOKE repl [] = []
  ∧ (∀ m rest, named_invoke m → not_starting WHITE_class rest →
               sub NAMED_INVOKE repl (m ++ rest) = repl ++ sub NAMED_INVOKE repl rest)
  ∧ (∀ c s, (∀ m rest, c :: s = m ++ rest → ¬ named_invoke m) →
            sub NAMED_INVOKE repl (c :: s) = c :: sub NAMED_INVOKE repl s)
  ∧ make_parsable_text
      (chars "call invoke( name = " ++ [Py.dquote] ++ chars "m" ++ [Py.dquote]
       ++ chars ", k(...))")
    = chars "call invoke(k(...))".
Proof.
  split; [exact make_parsable_text_unfold|].
  split.
  { intros src. rewrite readlines_strip_comments. unfold no_comment_lines.
    apply list_filter_iff. intros line. by destruct (is_comment_line line). }
  split; [exact is_comment_line_spec|].
  split; [reflexivity|].
  split.
  { intros m rest Hm Hrest. apply (sub_match _ _ named_invoke_shrinks).
    apply match_at_named_invoke. by exists m. }
  split; [|vm_compute; reflexivity].
  intros c s Hnone. apply sub_skip.
  destruct (match_at NAMED_INVOKE (c :: s)) as [rest|] eqn:Hm; [|done].
  apply match_at_named_invoke in Hm as (m & Hs & Hm & _). by destruct (Hnone m rest).
Qed.

Lemma make_parsable_text_spec_witness :
  sub NAMED_INVOKE repl
    (named_invoke_text (chars " ") [] (chars " ") (chars " ") (chars " ") Py.squote
       (chars "compute_dry_mass") [] (chars " & ")
     ++ chars "k(a), sum_X(b))")
  = repl ++ sub NAMED_INVOKE repl (chars "k(a), sum_X(b))").
Proof.
  apply (proj1 (proj2 (proj2 (proj2 (proj2 make_parsable_text_spec))))).
  - exists (chars " "), [], (chars " "), (chars " "), (chars " "), Py.squote,
      (chars "compute_dry_mass"), [], (chars " & ").
    repeat split; try done; unfold all_white; repeat constructor; discriminate.
  - reflexivity.
Defined.

(** C5 (as amended).  Comment stripping never changes the output of
    [make_parsable_x90] again, and applying the whole transformation to its
    own output gives that output back exactly when no position of the output
    starts a named invoke. *)
Theorem make_parsable_text_twice (src : text) :
  strip_comments (make_parsable_text src) = make_parsable_text src
  ∧ (make_parsable_text (make_parsable_text src) = make_parsable_text src
     ↔ has_match NAMED_INVOKE (make_parsable_text src) = false).
Proof.
  assert (strip_comments (make_parsable_text src) = make_parsable_text src) as Hstrip.
  { apply strip_comments_fixed. rewrite make_parsable_text_unfold.
    apply sub_keeps_no_comment, strip_comments_no_comment. }
  split; [exact Hstrip|].
  rewrite (make_parsable_text_unfold (make_parsable_text src)), Hstrip.
  apply (sub_fixed_iff _ _ named_invoke_shrinks).
Qed.

(** C5 as stated fails: a name keyword that follows a named invoke is left
    behind by the first pass and taken out by the second. *)
Lemma make_parsable_text_not_idempotent :
  make_parsable_text (chars "call invoke( name = 'a', name = 'b', k)")
  = chars "call invoke(name = 'b', k)"
  ∧ make_parsable_text (chars "call invoke(name = 'b', k)") = chars "call invoke(k)".
Proof. split; vm_compute; reflexivity. Qed.

(** A comment line between [invoke(] and the name keyword is taken out
    before the rewrite. *)
Lemma make_parsable_text_comment_inside :
  make_parsable_text
    (chars "call invoke( &" ++ [newline] ++ chars "  ! the name" ++ [newline]
     ++ chars "  name = 'a', &" ++ [newline] ++ chars "  k(1))" ++ [newline])
  = chars "call invoke(k(1))" ++ [newline].
Proof. vm_compute. reflexivity. Qed.

End MakeParsable.

Lemma run_registers_both_prebuilds_witness :
  ∃ mp_payload,
    (analysis_for_prebuilds Fixtures.x90_analyser_run Fixtures.fortran_analyser_run
       (Fixtures.file_walk Fixtures.kernel_tree) Fixtures.proj Fixtures.step_with_kernels
       Fixtures.world0 [Fixtures.algo_x90]).2 = ok mp_payload
    ∧ ∀ x90_file, x90_file ∈ [Fixtures.algo_x90] →
        ∃ h alg modified_alg generated,
          _gen_prebuild_hash Fixtures.step_with_kernels x90_file mp_payload = ok h
          ∧ PathLib.with_suffix x90_file ".f90" = ok alg
          ∧ Fixtures.input_to_output_fpath Fixtures.proj alg = ok modified_alg
          ∧ Fixtures.input_to_output_fpath Fixtures.proj
              (PathLib.joinpath (PathLib.parent x90_file) (PathLib.stem x90_file +:+ "_psy.f90"))
            = ok generated
          ∧ (_get_prebuild_paths Fixtures.proj modified_alg generated h).1
            ∈ CURRENT_PREBUILDS Fixtures.run_psyclone_step.1
          ∧ (_get_prebuild_paths Fixtures.proj modified_alg generated h).2
            ∈ CURRENT_PREBUILDS Fixtures.run_psyclone_step.1.
Proof.
  apply (proj1 (proj2 (run_registers_both_prebuilds Fixtures.x90_analyser_run
                  Fixtures.fortran_analyser_run (Fixtures.file_walk Fixtures.kernel_tree)
                  Fixtures.run_command Fixtures.input_to_output_fpath Fixtures.proj
                  Fixtures.step_with_kernels)) Fixtures.world0 [Fixtures.algo_x90]).
  vm_compute. reflexivity.
Defined.

(** * Further properties of the code *)

(** ** The prebuild hash: errors and what it depends on *)

Lemma rmapM_getitem_ext (d d' : gmap string Z) (l : list string) :
  (∀ k, k ∈ l → d' !! k = d !! k) → rmapM (getitem d') l = rmapM (getitem d) l.
Proof.
  induction l as [|k l IH]; intros Hl; [reflexivity|].
  simpl. unfold getitem at 1 3. rewrite Hl by left.
  rewrite IH; [reflexivity|]. intros k' Hk'. apply Hl. by right.
Qed.

Lemma rmapM_getitem_missing (d : gmap string Z) (l : list string) :
  (∃ k, k ∈ l ∧ d !! k = None) → rmapM (getitem d) l = raise KeyError.
Proof.
  induction l as [|k l IH]; intros (k' & Hk' & Hnone).
  - by apply elem_of_nil in Hk'.
  - simpl. unfold getitem at 1. destruct (d !! k) as [v|] eqn:Hk; [|reflexivity].
    simpl. rewrite IH; [reflexivity|].
    apply elem_of_cons in Hk' as [->|Hk']; [congruence|]. eauto.
Qed.

Lemma gen_prebuild_hash_analysed (self : Psyclone) (x90_file : Path) (mp_payload : MpPayload)
    (r : AnalysedX90.t) :
  analysed_x90 mp_payload !! x90_file = Some r →
  _gen_prebuild_hash self x90_file mp_payload
  = let? hashes := rmapM (getitem (all_kernel_hashes mp_payload))
                         (elements (AnalysedX90.kernel_deps r)) in
    ok (AnalysedX90.file_hash r + Py.sum (elements (list_to_set hashes : gset Z))
        + transformation_script_hash mp_payload
        + Hashing.string_checksum (Py.str_list (cli_args self))).
Proof.
  intros Hr. unfold _gen_prebuild_hash, getitem at 1. rewrite Hr. simpl.
  destruct (rmapM _ _) as [e|hashes]; [reflexivity|]. simpl.
  rewrite !sum_cons, sum_nil. f_equal. lia.
Qed.

Lemma gen_prebuild_hash_not_analysed (self : Psyclone) (x90_file : Path) (mp_payload : MpPayload) :
  analysed_x90 mp_payload !! x90_file = None →
  _gen_prebuild_hash self x90_file mp_payload = raise KeyError.
Proof. intros Hr. unfold _gen_prebuild_hash, getitem at 1. by rewrite Hr. Qed.

(** X1.  [_gen_prebuild_hash] raises nothing but [KeyError], and raises it
    exactly when the payload has no analysis of the x90 or one of the x90's
    kernel dependencies has no entry among all the kernel hashes. *)
Theorem gen_prebuild_hash_key_error (self : Psyclone) (x90_file : Path) (mp_payload : MpPayload) :
  (_gen_prebuild_hash self x90_file mp_payload = raise KeyError
   ↔ analysed_x90 mp_payload !! x90_file = None
     ∨ ∃ r k, analysed_x90 mp_payload !! x90_file = Some r
              ∧ k ∈ AnalysedX90.kernel_deps r
              ∧ all_kernel_hashes mp_payload !! k = None)
  ∧ (∀ e, _gen_prebuild_hash self x90_file mp_payload = raise e → e = KeyError).
Proof.
  assert (_gen_prebuild_hash self x90_file mp_payload = raise KeyError
          ∧ (analysed_x90 mp_payload !! x90_file = None
             ∨ ∃ r k, analysed_x90 mp_payload !! x90_file = Some r
                      ∧ k ∈ AnalysedX90.kernel_deps r
                      ∧ all_kernel_hashes mp_payload !! k = None)
          ∨ (∃ h, _gen_prebuild_hash self x90_file mp_payload = ok h)
            ∧ ¬ (analysed_x90 mp_payload !! x90_file = None
                 ∨ ∃ r k, analysed_x90 mp_payload !! x90_file = Some r
                          ∧ k ∈ AnalysedX90.kernel_deps r
                          ∧ all_kernel_hashes mp_payload !! k = None)) as Hcases.
  { destruct (analysed_x90 mp_payload !! x90_file) as [r|] eqn:Hr.
    2:{ left. split; [by apply gen_prebuild_hash_not_analysed|by left]. }
    rewrite (gen_prebuild_hash_analysed _ _ _ _ Hr).
    destruct (decide (Exists (fun k => all_kernel_hashes mp_payload !! k = None)
                        (elements (AnalysedX90.kernel_deps r)))) as [Hmiss|Hall];
      rewrite Exists_exists in *.
    - left. rewrite rmapM_getitem_missing by done. split; [reflexivity|].
      right. destruct Hmiss as (k & Hk & Hnone).
      exists r, k. split; [done|]. split; [by apply elem_of_elements|done].
    - right. split.
      + eexists. rewrite rmapM_getitem_total; [reflexivity|].
        intros k Hk. destruct (all_kernel_hashes mp_payload !! k) eqn:Hv; [eauto|].
        exfalso. apply Hall. eauto.
      + intros [?|(r' & k & [= <-] & Hk & Hnone)]; [done|].
        apply Hall. exists k. split; [by apply elem_of_elements|done]. }
  destruct Hcases as [[Herr Hwhy]|[[h Hok] Hnot]].
  - rewrite Herr. split; [by split|]. by intros e [= <-].
  - rewrite Hok. split; [|done]. split; [done|]. intros H. by destruct (Hnot H).
Qed.

(** X2.  The prebuild hash of an analysed x90 depends on the kernel hashes
    only through the kernels the x90 uses: with any other mapping that agrees
    on these kernels, the hash (or the error) is the same. *)
Theorem gen_prebuild_hash_unused_kernels (self : Psyclone) (x90_file : Path)
    (mp_payload : MpPayload) (r : AnalysedX90.t) (hashes' : gmap string Z)
    (Hfile : analysed_x90 mp_payload !! x90_file = Some r)
    (Hsame : ∀ k, k ∈ AnalysedX90.kernel_deps r →
                  hashes' !! k = all_kernel_hashes mp_payload !! k) :
  _gen_prebuild_hash self x90_file (with_all_kernel_hashes hashes' mp_payload)
  = _gen_prebuild_hash self x90_file mp_payload.
Proof.
  rewrite (gen_prebuild_hash_analysed _ _ _ r Hfile).
  rewrite (gen_prebuild_hash_analysed _ _ (with_all_kernel_hashes hashes' mp_payload) r Hfile).
  simpl. rewrite (rmapM_getitem_ext (all_kernel_hashes mp_payload) hashes'); [reflexivity|].
  intros k Hk. apply Hsame. by apply elem_of_elements.
Qed.

Lemma gen_prebuild_hash_unused_kernels_witness :
  _gen_prebuild_hash Fixtures.step_with_kernels Fixtures.algo_x90
    (with_all_kernel_hashes
       (<["kern_b_type"%string := 23]> {[ "kern_a_type"%string := 11; "kern_b_type"%string := 22 ]})
       (Fixtures.payload 5 {[ "kern_a_type"%string ]}
          {[ "kern_a_type"%string := 11; "kern_b_type"%string := 22 ]} 0))
  = _gen_prebuild_hash Fixtures.step_with_kernels Fixtures.algo_x90
      (Fixtures.payload 5 {[ "kern_a_type"%string ]}
         {[ "kern_a_type"%string := 11; "kern_b_type"%string := 22 ]} 0).
Proof.
  apply (gen_prebuild_hash_unused_kernels _ _ _
           (AnalysedX90.mk Fixtures.algo_x90 5 {[ "kern_a_type"%string ]})).
  - apply lookup_singleton_eq.
  - intros k Hk. simpl in Hk. apply elem_of_singleton in Hk. subst k. reflexivity.
Defined.

(** X3.  When the prebuild hash of an x90 is [h]: another transformation
    script hash, another file hash of the x90, or other command-line
    arguments move it by exactly the difference between the new value and
    the old one (for the arguments, of the checksums of their [str]). *)
Theorem gen_prebuild_hash_moves_with_inputs (self : Psyclone) (x90_file : Path)
    (mp_payload : MpPayload) (r : AnalysedX90.t) (h : Z)
    (Hfile : analysed_x90 mp_payload !! x90_file = Some r)
    (Hhash : _gen_prebuild_hash self x90_file mp_payload = ok h) :
  (∀ script_hash',
     _gen_prebuild_hash self x90_file (with_transformation_script_hash script_hash' mp_payload)
     = ok (h + (script_hash' - transformation_script_hash mp_payload)))
  ∧ (∀ file_hash',
       _gen_prebuild_hash self x90_file
         (with_analysed_x90 (<[x90_file := AnalysedX90.set_file_hash file_hash' r]>
                               (analysed_x90 mp_payload)) mp_payload)
       = ok (h + (file_hash' - AnalysedX90.file_hash r)))
  ∧ (∀ cli_args',
       _gen_prebuild_hash
         {| name := name self; kernel_roots := kernel_roots self;
            transformation_script := transformation_script self; cli_args := cli_args' |}
         x90_file mp_payload
       = ok (h + (Hashing.string_checksum (Py.str_list cli_args')
                  - Hashing.string_checksum (Py.str_list (cli_args self))))).
Proof.
  rewrite (gen_prebuild_hash_analysed _ _ _ r Hfile) in Hhash.
  destruct (rmapM _ _) as [e|hashes] eqn:Hk; [done|]. injection Hhash as <-.
  split; [|split].
  - intros s'.
    rewrite (gen_prebuild_hash_analysed _ _ (with_transformation_script_hash s' mp_payload) r Hfile).
    simpl. rewrite Hk. simpl. f_equal. lia.
  - intros f'.
    rewrite (gen_prebuild_hash_analysed _ _ _ (AnalysedX90.set_file_hash f' r))
      by apply lookup_insert_eq.
    simpl. rewrite Hk. simpl. f_equal. lia.
  - intros a'. rewrite (gen_prebuild_hash_analysed _ _ _ r Hfile).
    simpl. rewrite Hk. simpl. f_equal. lia.
Qed.

Lemma gen_prebuild_hash_moves_with_inputs_witness :
  _gen_prebuild_hash Fixtures.step Fixtures.algo_x90
    (with_transformation_script_hash 8
       (Fixtures.payload 34567 {[ "k1"%string; "k2"%string ]}
          {[ "k1"%string := 100; "k2"%string := 200; "k3"%string := 300 ]} 7))
  = ok (223167331 + (8 - 7)).
Proof.
  pose proof (gen_prebuild_hash_moves_with_inputs Fixtures.step Fixtures.algo_x90
           (Fixtures.payload 34567 {[ "k1"%string; "k2"%string ]}
              {[ "k1"%string := 100; "k2"%string := 200; "k3"%string := 300 ]} 7)
           (AnalysedX90.mk Fixtures.algo_x90 34567 {[ "k1"%string; "k2"%string ]})
           223167331) as H.
  destruct H as [H _].
  - apply lookup_singleton_eq.
  - vm_compute. reflexivity.
  - exact (H 8).
Defined.

(** ** Prebuild names *)

Lemma string_app_assoc (s t u : string) : (s +:+ t) +:+ u = s +:+ t +:+ u.
Proof. induction s as [|c s IH]; [reflexivity|]. by rewrite !string_app_cons, IH. Qed.

(** Two concatenations that are equal split at the same place when their
    first parts have the same length. *)
Lemma string_app_inv_length (s1 s2 t1 t2 : string) :
  String.length s1 = String.length s2 → s1 +:+ t1 = s2 +:+ t2 → s1 = s2 ∧ t1 = t2.
Proof.
  revert s2. induction s1 as [|c s1 IH]; intros [|c2 s2] Hlen Heq; simpl in Hlen; try lia.
  - by split.
  - rewrite !string_app_cons in Heq. injection Heq as -> Heq.
    destruct (IH s2) as [-> ->]; [lia|done|by split].
Qed.

Lemma string_app_inv_tail (s1 s2 t : string) : s1 +:+ t = s2 +:+ t → s1 = s2.
Proof.
  intros Heq. apply (string_app_inv_length s1 s2 t t); [|done].
  apply (f_equal String.length) in Heq. rewrite !string_length_app in Heq. lia.
Qed.

(** A decimal numeral has a digit and no dot. *)
Lemma rfind_dot_string_of_uint (d : Decimal.uint) :
  PathLib.rfind_dot (NilZero.string_of_uint d) = None.
Proof.
  assert (∀ d, PathLib.rfind_dot (NilEmpty.string_of_uint d) = None) as Hne.
  { clear d. intros d. induction d; simpl; try rewrite IHd; reflexivity. }
  destruct d; try apply Hne. reflexivity.
Qed.

Lemma rfind_dot_str_int (n : Z) : PathLib.rfind_dot (Py.str_int n) = None.
Proof.
  unfold Py.str_int, NilZero.string_of_int.
  destruct (Z.to_int n); simpl; by rewrite rfind_dot_string_of_uint.
Qed.

Lemma str_int_nonempty (n : Z) : (0 < String.length (Py.str_int n))%nat.
Proof.
  pose proof (str_int_roundtrip n) as H.
  destruct (Py.str_int n); [|simpl; lia]. discriminate H.
Qed.

Lemma str_int_inj (n m : Z) : Py.str_int n = Py.str_int m → n = m.
Proof.
  intros H. pose proof (str_int_roundtrip n) as Hn. rewrite H, str_int_roundtrip in Hn.
  by injection Hn.
Qed.

(** How a name splits into stem and suffix. *)
Lemma suffix_cases (p : Path) :
  (PathLib.suffix p = EmptyString ∧ PathLib.stem p = PathLib.name p
   ∧ PathLib.suffix_index (PathLib.name p) = None)
  ∨ (PathLib.rfind_dot (PathLib.suffix p) = Some O
     ∧ (1 < String.length (PathLib.suffix p))%nat
     ∧ (0 < String.length (PathLib.stem p))%nat).
Proof.
  unfold PathLib.suffix, PathLib.stem.
  destruct (PathLib.suffix_index (PathLib.name p)) as [i|] eqn:Hi; [right|by left].
  unfold PathLib.suffix_index in Hi.
  destruct (PathLib.rfind_dot (PathLib.name p)) as [j|] eqn:Hj; [|done].
  destruct (0 <? j)%nat eqn:H0; [|done]. destruct (j <? _)%nat eqn:H1; [|done].
  simpl in Hi. injection Hi as <-. apply Nat.ltb_lt in H0, H1.
  pose proof (substring_split j (PathLib.name p) ltac:(lia)) as Hsplit.
  pose proof (substring_0_length j (PathLib.name p) ltac:(lia)) as Hlen.
  set (st := substring 0 j (PathLib.name p)) in *.
  set (sx := substring j (String.length (PathLib.name p) - j) (PathLib.name p)) in *.
  assert (String.length sx = String.length (PathLib.name p) - j)%nat as Hsx.
  { apply (f_equal String.length) in Hsplit. rewrite string_length_app in Hsplit. lia. }
  split; [|lia].
  rewrite <- Hsplit, rfind_dot_app in Hj.
  destruct (PathLib.rfind_dot sx) as [k|] eqn:Hk.
  - injection Hj as Hj. f_equal. lia.
  - apply rfind_dot_lt in Hj. lia.
Qed.

(** The last dot of a prebuild name. *)
Lemma rfind_dot_prebuild_name (st num sx : string) :
  PathLib.rfind_dot num = None →
  PathLib.rfind_dot (st +:+ "." +:+ num +:+ sx)
  = match PathLib.rfind_dot sx with
    | Some i => Some (String.length st + (1 + (String.length num + i)))%nat
    | None => Some (String.length st + 0)%nat
    end.
Proof.
  intros Hnum. rewrite rfind_dot_app.
  change ("." +:+ num +:+ sx) with (String "." (num +:+ sx)).
  cbn [PathLib.rfind_dot]. rewrite rfind_dot_app, Hnum.
  destruct (PathLib.rfind_dot sx) as [i|]; reflexivity.
Qed.

Lemma prebuild_name_inj (a b : Path) (h1 h2 : Z) :
  PathLib.stem a +:+ "." +:+ Py.str_int h1 +:+ PathLib.suffix a
  = PathLib.stem b +:+ "." +:+ Py.str_int h2 +:+ PathLib.suffix b →
  PathLib.name a = PathLib.name b ∧ h1 = h2.
Proof.
  intros Heq.
  assert (PathLib.stem a = PathLib.stem b ∧ h1 = h2 ∧ PathLib.suffix a = PathLib.suffix b)
    as (Hst & Hh & Hsx); [|by rewrite !name_stem_suffix, Hst, Hsx].
  pose proof (f_equal PathLib.rfind_dot Heq) as Hdot.
  pose proof (f_equal String.length Heq) as Hlen.
  rewrite !rfind_dot_prebuild_name in Hdot by apply rfind_dot_str_int.
  rewrite !string_length_app in Hlen. simpl in Hlen.
  pose proof (str_int_nonempty h1) as Hn1. pose proof (str_int_nonempty h2) as Hn2.
  assert (∀ (s1 s2 : string) n1 n2,
            s1 +:+ "." +:+ Py.str_int n1 = s2 +:+ "." +:+ Py.str_int n2 →
            s1 = s2 ∧ n1 = n2) as Hcore.
  { intros s1 s2 n1 n2 He.
    pose proof (f_equal PathLib.rfind_dot He) as Hd.
    rewrite <- (string_app_nil_r (Py.str_int n1)), <- (string_app_nil_r (Py.str_int n2)) in Hd.
    rewrite !rfind_dot_prebuild_name in Hd by apply rfind_dot_str_int.
    simpl in Hd. injection Hd as Hd.
    apply string_app_inv_length in He as [-> He]; [|lia].
    split; [done|]. injection He as He. by apply str_int_inj. }
  destruct (suffix_cases a) as [(Hsa & Hsta & Hia)|(Hda & Hla & Hsta)],
           (suffix_cases b) as [(Hsb & Hstb & Hib)|(Hdb & Hlb & Hstb)].
  - rewrite Hsa, Hsb in *. simpl in Hdot. injection Hdot as Hdot.
    rewrite !string_app_nil_r in Heq.
    destruct (Hcore (PathLib.stem a) (PathLib.stem b) h1 h2) as [Hst Hh]; [done|].
    by repeat split.
  - exfalso. rewrite Hsa, Hdb in Hdot. simpl in Hdot. injection Hdot as Hdot.
    rewrite Hsa, string_app_nil_r in Heq.
    rewrite <- (string_app_assoc (PathLib.stem b) "." _) in Heq.
    rewrite <- (string_app_assoc (PathLib.stem b +:+ ".") (Py.str_int h2) _) in Heq.
    apply string_app_inv_length in Heq as [Hstem _].
    2:{ rewrite !string_length_app. simpl. lia. }
    rewrite Hsta in Hstem. unfold PathLib.suffix_index in Hia.
    rewrite Hstem, string_app_assoc, rfind_dot_app in Hia.
    change ("." +:+ Py.str_int h2) with (String "." (Py.str_int h2)) in Hia.
    cbn [PathLib.rfind_dot] in Hia. rewrite rfind_dot_str_int in Hia. simpl in Hia.
    rewrite !string_length_app in Hia. simpl in Hia.
    destruct (0 <? _)%nat eqn:H0 in Hia; [|apply Nat.ltb_ge in H0; lia].
    destruct (_ <? _)%nat eqn:H1 in Hia; [done|apply Nat.ltb_ge in H1; lia].
  - exfalso. rewrite Hsb, Hda in Hdot. simpl in Hdot. injection Hdot as Hdot.
    rewrite Hsb, string_app_nil_r in Heq. symmetry in Heq.
    rewrite <- (string_app_assoc (PathLib.stem a) "." _) in Heq.
    rewrite <- (string_app_assoc (PathLib.stem a +:+ ".") (Py.str_int h1) _) in Heq.
    apply string_app_inv_length in Heq as [Hstem _].
    2:{ rewrite !string_length_app. simpl. lia. }
    rewrite Hstb in Hstem. unfold PathLib.suffix_index in Hib.
    rewrite Hstem, string_app_assoc, rfind_dot_app in Hib.
    change ("." +:+ Py.str_int h1) with (String "." (Py.str_int h1)) in Hib.
    cbn [PathLib.rfind_dot] in Hib. rewrite rfind_dot_str_int in Hib. simpl in Hib.
    rewrite !string_length_app in Hib. simpl in Hib.
    destruct (0 <? _)%nat eqn:H0 in Hib; [|apply Nat.ltb_ge in H0; lia].
    destruct (_ <? _)%nat eqn:H1 in Hib; [done|apply Nat.ltb_ge in H1; lia].
  - rewrite Hda, Hdb in Hdot. injection Hdot as Hdot.
    rewrite <- (string_app_assoc (PathLib.stem a) "." _) in Heq.
    rewrite <- (string_app_assoc (PathLib.stem a +:+ ".") (Py.str_int h1) _) in Heq.
    rewrite <- (string_app_assoc (PathLib.stem b) "." _) in Heq.
    rewrite <- (string_app_assoc (PathLib.stem b +:+ ".") (Py.str_int h2) _) in Heq.
    apply string_app_inv_length in Heq as [Heq ->].
    2:{ rewrite !string_length_app. simpl. lia. }
    rewrite !string_app_assoc in Heq.
    destruct (Hcore (PathLib.stem a) (PathLib.stem b) h1 h2) as [Hst Hh]; [done|]. by repeat split.
Qed.

Lemma joinpath_inj (p : Path) (n m : string) :
  PathLib.joinpath p n = PathLib.joinpath p m → n = m.
Proof. unfold PathLib.joinpath. intros H. apply app_inv_head in H. by injection H. Qed.

(** X4.  Prebuild names do not collide.  The prebuilt algorithm paths made
    for two files and two hashes are equal exactly when the files have the
    same name and the hashes are equal; likewise the prebuilt PSy paths; and
    the two prebuild paths of one x90 are equal exactly when its algorithm
    and PSy outputs have the same name. *)
Theorem prebuild_paths_injective (config : BuildConfig) (modified_alg generated : Path)
    (modified_alg' generated' : Path) (h h' : Z) :
  ((_get_prebuild_paths config modified_alg generated h).1
   = (_get_prebuild_paths config modified_alg' generated' h').1
   ↔ PathLib.name modified_alg = PathLib.name modified_alg' ∧ h = h')
  ∧ ((_get_prebuild_paths config modified_alg generated h).2
     = (_get_prebuild_paths config modified_alg' generated' h').2
     ↔ PathLib.name generated = PathLib.name generated' ∧ h = h')
  ∧ ((_get_prebuild_paths config modified_alg generated h).1
     = (_get_prebuild_paths config modified_alg generated h).2
     ↔ PathLib.name modified_alg = PathLib.name generated).
Proof.
  assert (∀ a b, PathLib.name a = PathLib.name b →
                 PathLib.stem a = PathLib.stem b ∧ PathLib.suffix a = PathLib.suffix b) as Hname.
  { intros a b Hn. unfold PathLib.stem, PathLib.suffix. by rewrite Hn. }
  unfold _get_prebuild_paths. simpl. split; [|split]; split.
  - intros H%joinpath_inj. by apply prebuild_name_inj.
  - intros [Hn ->]. destruct (Hname _ _ Hn) as [-> ->]. done.
  - intros H%joinpath_inj. by apply prebuild_name_inj.
  - intros [Hn ->]. destruct (Hname _ _ Hn) as [-> ->]. done.
  - intros H%joinpath_inj. by apply prebuild_name_inj in H as [? _].
  - intros Hn. destruct (Hname _ _ Hn) as [-> ->]. done.
Qed.

(** ** One x90 and its prebuilds *)

Lemma exists_lookup (fs : gmap Path string) (p : Path) :
  exists_ fs p = match fs !! p with Some _ => true | None => false end.
Proof.
  unfold exists_. destruct (fs !! p) eqn:H.
  - apply bool_decide_eq_true. eauto.
  - apply bool_decide_eq_false. by intros [? ?].
Qed.

Lemma copy2_lookup (fs : gmap Path string) (src dst : Path) :
  copy2 fs src dst = match fs !! src with
                     | Some c => ok (<[dst := c]> fs)
                     | None => raise (FileNotFoundError src)
                     end.
Proof. reflexivity. Qed.

(** What [do_one_file] does once the hash and the output paths are there. *)
Lemma do_one_file_unfold
    (run_command : gmap Path string → list string → result (gmap Path string))
    (input_to_output_fpath : BuildConfig → Path → result Path)
    (config : BuildConfig) (self : Psyclone) (fs : gmap Path string)
    (x90_file : Path) (mp_payload : MpPayload) (h : Z) (alg modified_alg generated : Path) :
  _gen_prebuild_hash self x90_file mp_payload = ok h →
  PathLib.with_suffix x90_file ".f90" = ok alg →
  input_to_output_fpath config alg = ok modified_alg →
  input_to_output_fpath config
    (PathLib.joinpath (PathLib.parent x90_file) (PathLib.stem x90_file +:+ "_psy.f90"))
  = ok generated →
  let pa := (_get_prebuild_paths config modified_alg generated h).1 in
  let pg := (_get_prebuild_paths config modified_alg generated h).2 in
  let finish (fs' : gmap Path string) : gmap Path string * result one_file_result :=
    (fs', ok (inr (if exists_ fs' generated then [modified_alg; generated] else [modified_alg]),
              Some [pa; pg])) in
  do_one_file run_command input_to_output_fpath config self fs (x90_file, mp_payload)
  = match fs !! pa with
    | Some ca =>
        let fs1 := <[modified_alg := ca]> fs in
        match fs1 !! pg with
        | Some cg => finish (<[generated := cg]> fs1)
        | None => finish fs1
        end
    | None =>
        match run_psyclone run_command self fs generated modified_alg x90_file with
        | inl err => (fs, ok (inl err, None))
        | inr fs1 =>
            match fs1 !! modified_alg with
            | None => (fs1, ok (inl (FileNotFoundError modified_alg), None))
            | Some cm =>
                let fs2 := <[pa := cm]> fs1 in
                match fs2 !! generated with
                | Some cg => finish (<[pg := cg]> fs2)
                | None => finish fs2
                end
            end
        end
    end.
Proof.
  intros Hh Ha Hm Hg pa pg finish. unfold do_one_file.
  rewrite Hh, Ha. simpl. rewrite Hm. simpl. rewrite Hg. simpl.
  change (PathLib.joinpath (prebuild_folder config)
            (PathLib.stem modified_alg +:+ "." +:+ Py.str_int h +:+ PathLib.suffix modified_alg))
    with pa.
  change (PathLib.joinpath (prebuild_folder config)
            (PathLib.stem generated +:+ "." +:+ Py.str_int h +:+ PathLib.suffix generated))
    with pg.
  rewrite (exists_lookup fs pa), (copy2_lookup fs pa).
  destruct (fs !! pa) as [ca|] eqn:Hpa.
  - simpl. rewrite exists_lookup, copy2_lookup.
    destruct (<[modified_alg:=ca]> fs !! pg) as [cg|] eqn:Hpg; reflexivity.
  - destruct (run_psyclone _ _ _ _ _ _) as [err|fs1]; [reflexivity|].
    rewrite copy2_lookup. destruct (fs1 !! modified_alg) as [cm|]; [|reflexivity].
    simpl. rewrite exists_lookup, copy2_lookup.
    destruct (<[pa:=cm]> fs1 !! generated) as [cg|] eqn:Hgen; [reflexivity|].
    subst finish. cbv beta. by rewrite exists_lookup, Hgen.
Qed.

(** X5.  When the prebuilt algorithm file of an x90 exists (and the outputs
    are other paths than their prebuilds), [do_one_file] does not run
    PSyclone (the outcome is the same for every [run_command]) and does not
    fail: it returns the outputs and both prebuild paths, the algorithm
    output holds the content of the prebuilt file (when it is not the PSy
    output), and no file other than the two outputs is changed. *)
Theorem do_one_file_restores_prebuild
    (input_to_output_fpath : BuildConfig → Path → result Path)
    (config : BuildConfig) (self : Psyclone) (fs : gmap Path string)
    (x90_file : Path) (mp_payload : MpPayload) (h : Z) (alg modified_alg generated : Path)
    (content : string)
    (Hhash : _gen_prebuild_hash self x90_file mp_payload = ok h)
    (Halg : PathLib.with_suffix x90_file ".f90" = ok alg)
    (Hmodified : input_to_output_fpath config alg = ok modified_alg)
    (Hgenerated :
       input_to_output_fpath config
         (PathLib.joinpath (PathLib.parent x90_file) (PathLib.stem x90_file +:+ "_psy.f90"))
       = ok generated)
    (Hdistinct : modified_alg ≠ (_get_prebuild_paths config modified_alg generated h).1
                 ∧ generated ≠ (_get_prebuild_paths config modified_alg generated h).2)
    (Hprebuilt : fs !! (_get_prebuild_paths config modified_alg generated h).1 = Some content) :
  ∃ fs' outputs,
    (∀ run_command,
       do_one_file run_command input_to_output_fpath config self fs (x90_file, mp_payload)
       = (fs', ok (inr outputs, Some [(_get_prebuild_paths config modified_alg generated h).1;
                                      (_get_prebuild_paths config modified_alg generated h).2])))
    ∧ (generated ≠ modified_alg → fs' !! modified_alg = Some content)
    ∧ (∀ p, p ≠ modified_alg → p ≠ generated → fs' !! p = fs !! p).
Proof.
  set (pa := (_get_prebuild_paths config modified_alg generated h).1) in *.
  set (pg := (_get_prebuild_paths config modified_alg generated h).2) in *.
  destruct (<[modified_alg := content]> fs !! pg) as [cg|] eqn:Hpg.
  - exists (<[generated := cg]> (<[modified_alg := content]> fs)). eexists. split; [|split].
    + intros rc. rewrite (do_one_file_unfold rc _ _ _ _ _ _ _ _ _ _ Hhash Halg Hmodified Hgenerated).
      fold pa pg. rewrite Hprebuilt. cbv zeta. rewrite Hpg. reflexivity.
    + intros Hne. by rewrite lookup_insert_ne, lookup_insert_eq.
    + intros p Hm Hg. by rewrite !lookup_insert_ne.
  - exists (<[modified_alg := content]> fs). eexists. split; [|split].
    + intros rc. rewrite (do_one_file_unfold rc _ _ _ _ _ _ _ _ _ _ Hhash Halg Hmodified Hgenerated).
      fold pa pg. rewrite Hprebuilt. cbv zeta. rewrite Hpg. reflexivity.
    + intros _. by rewrite lookup_insert_eq.
    + intros p Hm Hg. by rewrite lookup_insert_ne.
Qed.

(** X6.  Processing an x90 again restores what the first time produced.  If
    [do_one_file] returned outputs, the two outputs and the two prebuild
    paths are four different paths, and no PSy prebuild is there without a
    PSy output, then [do_one_file] on the files it left, with any
    [run_command] at all, leaves the files as they are and returns the same
    outputs and prebuild paths. *)
Theorem do_one_file_again
    (run_command : gmap Path string → list string → result (gmap Path string))
    (input_to_output_fpath : BuildConfig → Path → result Path)
    (config : BuildConfig) (self : Psyclone) (fs : gmap Path string)
    (x90_file : Path) (mp_payload : MpPayload) (h : Z) (alg modified_alg generated : Path)
    (outputs : list Path) (prebuilds : option (list Path))
    (Hhash : _gen_prebuild_hash self x90_file mp_payload = ok h)
    (Halg : PathLib.with_suffix x90_file ".f90" = ok alg)
    (Hmodified : input_to_output_fpath config alg = ok modified_alg)
    (Hgenerated :
       input_to_output_fpath config
         (PathLib.joinpath (PathLib.parent x90_file) (PathLib.stem x90_file +:+ "_psy.f90"))
       = ok generated)
    (Hdistinct : NoDup [modified_alg; generated;
                        (_get_prebuild_paths config modified_alg generated h).1;
                        (_get_prebuild_paths config modified_alg generated h).2])
    (Hfirst : (do_one_file run_command input_to_output_fpath config self fs
                 (x90_file, mp_payload)).2 = ok (inr outputs, prebuilds))
    (Hfresh : (do_one_file run_command input_to_output_fpath config self fs
                 (x90_file, mp_payload)).1 !! generated = None →
              (do_one_file run_command input_to_output_fpath config self fs
                 (x90_file, mp_payload)).1
                !! (_get_prebuild_paths config modified_alg generated h).2 = None) :
  ∀ run_command',
    do_one_file run_command' input_to_output_fpath config self
      (do_one_file run_command input_to_output_fpath config self fs (x90_file, mp_payload)).1
      (x90_file, mp_payload)
    = ((do_one_file run_command input_to_output_fpath config self fs (x90_file, mp_payload)).1,
       ok (inr outputs, prebuilds)).
Proof.
  intros rc'.
  rewrite (do_one_file_unfold rc' _ _ _ _ _ _ _ _ _ _ Hhash Halg Hmodified Hgenerated).
  rewrite (do_one_file_unfold run_command _ _ _ _ _ _ _ _ _ _ Hhash Halg Hmodified Hgenerated)
    in Hfirst, Hfresh |- *.
  set (pa := (_get_prebuild_paths config modified_alg generated h).1) in *.
  set (pg := (_get_prebuild_paths config modified_alg generated h).2) in *.
  apply NoDup_cons in Hdistinct as [Hm Hdistinct].
  apply NoDup_cons in Hdistinct as [Hg Hdistinct].
  apply NoDup_cons in Hdistinct as [Hp _].
  assert (modified_alg ≠ generated) as Hmg by (intros E; apply Hm; rewrite E; left).
  assert (modified_alg ≠ pa) as Hma by (intros E; apply Hm; rewrite E; right; left).
  assert (modified_alg ≠ pg) as Hmp by (intros E; apply Hm; rewrite E; right; right; left).
  assert (generated ≠ pa) as Hga by (intros E; apply Hg; rewrite E; left).
  assert (generated ≠ pg) as Hgp by (intros E; apply Hg; rewrite E; right; left).
  assert (pa ≠ pg) as Hap by (intros E; apply Hp; rewrite E; left).
  clear Hm Hg Hp.
  cbv zeta in *.
  destruct (fs !! pa) as [ca|] eqn:Hpa.
  - destruct (<[modified_alg := ca]> fs !! pg) as [cg|] eqn:Hpg; simpl in *.
    + injection Hfirst as <- <-.
      rewrite (lookup_insert_ne _ generated pa), (lookup_insert_ne _ modified_alg pa), Hpa by done.
      rewrite (insert_id _ modified_alg ca) by (by rewrite lookup_insert_ne, lookup_insert_eq).
      rewrite (lookup_insert_ne _ generated pg), Hpg by done.
      rewrite (insert_id _ generated cg) by (by rewrite lookup_insert_eq).
      reflexivity.
    + injection Hfirst as <- <-.
      rewrite (lookup_insert_ne _ modified_alg pa), Hpa by done.
      rewrite (insert_id _ modified_alg ca) by (by rewrite lookup_insert_eq).
      rewrite Hpg. reflexivity.
  - destruct (run_psyclone _ _ _ _ _ _) as [err|fs1]; [done|].
    destruct (fs1 !! modified_alg) as [cm|] eqn:Hcm; [|done].
    destruct (<[pa := cm]> fs1 !! generated) as [cg|] eqn:Hcg; simpl in *.
    + injection Hfirst as <- <-.
      rewrite (lookup_insert_ne _ pg pa), lookup_insert_eq by done.
      rewrite (insert_id _ modified_alg cm) by (by rewrite !lookup_insert_ne).
      rewrite lookup_insert_eq.
      rewrite (insert_id _ generated cg) by (by rewrite lookup_insert_ne).
      reflexivity.
    + injection Hfirst as <- <-.
      rewrite lookup_insert_eq.
      rewrite (insert_id _ modified_alg cm) by (by rewrite lookup_insert_ne).
      rewrite (Hfresh Hcg). reflexivity.
Qed.

Lemma do_one_file_restores_prebuild_witness :
  ∃ fs' outputs,
    (∀ run_command,
       do_one_file run_command Fixtures.input_to_output_fpath Fixtures.proj Fixtures.step
         Fixtures.prebuilt_files (Fixtures.algo_x90, Fixtures.plain_payload)
       = (fs', ok (inr outputs,
                   Some [(_get_prebuild_paths Fixtures.proj Fixtures.algo_f90
                            Fixtures.algo_psy_f90 223132457).1;
                         (_get_prebuild_paths Fixtures.proj Fixtures.algo_f90
                            Fixtures.algo_psy_f90 223132457).2])))
    ∧ (Fixtures.algo_psy_f90 ≠ Fixtures.algo_f90 →
       fs' !! Fixtures.algo_f90 = Some "! prebuilt algorithm"%string)
    ∧ (∀ p, p ≠ Fixtures.algo_f90 → p ≠ Fixtures.algo_psy_f90 →
            fs' !! p = Fixtures.prebuilt_files !! p).
Proof.
  apply (do_one_file_restores_prebuild Fixtures.input_to_output_fpath Fixtures.proj Fixtures.step
           Fixtures.prebuilt_files Fixtures.algo_x90 Fixtures.plain_payload 223132457
           ["/"; "fab"; "proj"; "source"; "algo.f90"]%string).
  - vm_compute. reflexivity.
  - vm_compute. reflexivity.
  - vm_compute. reflexivity.
  - vm_compute. reflexivity.
  - split; vm_compute; discriminate.
  - vm_compute. reflexivity.
Defined.

Lemma do_one_file_again_witness :
  do_one_file Fixtures.no_psyclone Fixtures.input_to_output_fpath Fixtures.proj Fixtures.step
    (do_one_file Fixtures.run_command Fixtures.input_to_output_fpath Fixtures.proj Fixtures.step
       Fixtures.source_files (Fixtures.algo_x90, Fixtures.plain_payload)).1
    (Fixtures.algo_x90, Fixtures.plain_payload)
  = ((do_one_file Fixtures.run_command Fixtures.input_to_output_fpath Fixtures.proj Fixtures.step
        Fixtures.source_files (Fixtures.algo_x90, Fixtures.plain_payload)).1,
     ok (inr [Fixtures.algo_f90],
         Some [Fixtures.algo_prebuild;
               prebuild_folder Fixtures.proj ++ ["algo_psy.223132457.f90"%string]])).
Proof.
  apply (do_one_file_again Fixtures.run_command Fixtures.input_to_output_fpath Fixtures.proj
           Fixtures.step Fixtures.source_files Fixtures.algo_x90 Fixtures.plain_payload
           223132457 ["/"; "fab"; "proj"; "source"; "algo.f90"]%string
           Fixtures.algo_f90 Fixtures.algo_psy_f90).
  - vm_compute. reflexivity.
  - vm_compute. reflexivity.
  - vm_compute. reflexivity.
  - vm_compute. reflexivity.
  - apply (bool_decide_unpack _). vm_compute. exact I.
  - vm_compute. reflexivity.
  - intros _. vm_compute. reflexivity.
Defined.

(** ** What a run keeps *)

Section RunKeeps.

Variable x90_analyser_run :
  gmap Path string → Path → (exn + AnalysedX90.t) * option Path.
Variable fortran_analyser_run :
  gmap Path string → Path → (exn + AnalysedFortran.t) * option Path.
Variable file_walk : gmap Path string → Path → list Path → result (list Path).
Variable run_command : gmap Path string → list string → result (gmap Path string).
Variable input_to_output_fpath : BuildConfig → Path → result Path.
Variable config : BuildConfig.
Variable self : Psyclone.

Lemma keeps_refl (w : World) : keeps w w.
Proof. by split. Qed.

Lemma keeps_trans (w1 w2 w3 : World) : keeps w1 w2 → keeps w2 w3 → keeps w1 w3.
Proof. intros [? ?] [? ?]. split; by etrans. Qed.

Lemma analyse_x90s_keeps (w : World) (x90s : list Path) :
  keeps w (_analyse_x90s x90_analyser_run w x90s).1.
Proof.
  unfold _analyse_x90s.
  destruct (run_mp make_parsable_x90 (files w) x90s) as [fs1 [e|ps]]; [by split|].
  destruct (check_for_errors _) as [e|u]; [by split|].
  split; simpl; [apply union_subseteq_l|done].
Qed.

Lemma analyse_kernels_keeps (w : World) (roots : list Path) :
  keeps w (_analyse_kernels fortran_analyser_run file_walk config w roots).1.
Proof.
  unfold _analyse_kernels.
  destruct (set_star _) as [e|all_kernel_files]; [apply keeps_refl|].
  split; simpl.
  - destruct (lefts _); simpl; apply union_subseteq_l.
  - destruct (lefts _); simpl; [done|]. by apply prefix_app_r.
Qed.

Lemma analysis_for_prebuilds_keeps (w : World) (x90s : list Path) :
  keeps w (analysis_for_prebuilds x90_analyser_run fortran_analyser_run file_walk config self
             w x90s).1.
Proof.
  unfold analysis_for_prebuilds.
  destruct (match transformation_script self with Some _ => _ | None => _ end) as [e|h];
    [apply keeps_refl|].
  pose proof (analyse_x90s_keeps w x90s) as H1.
  destruct (_analyse_x90s x90_analyser_run w x90s) as [w1 [e|analysed]]; [exact H1|].
  pose proof (analyse_kernels_keeps w1 (kernel_roots self)) as H2.
  destruct (_analyse_kernels _ _ _ w1 _) as [w2 [e|hashes]]; simpl in *; by eapply keeps_trans.
Qed.

(** X7.  A run of the step, whether it ends or raises, takes no path out of
    [CURRENT_PREBUILDS] and only adds to the end of the error log. *)
Theorem run_keeps_prebuilds_and_log (w : World) (x90s : list Path) :
  CURRENT_PREBUILDS w
  ⊆ CURRENT_PREBUILDS (run x90_analyser_run fortran_analyser_run file_walk run_command
                           input_to_output_fpath config self w x90s).1
  ∧ error_log w
    `prefix_of` error_log (run x90_analyser_run fortran_analyser_run file_walk run_command
                               input_to_output_fpath config self w x90s).1.
Proof.
  change (keeps w (run x90_analyser_run fortran_analyser_run file_walk run_command
                       input_to_output_fpath config self w x90s).1).
  unfold run.
  pose proof (analysis_for_prebuilds_keeps w x90s) as H1.
  destruct (analysis_for_prebuilds _ _ _ _ _ w x90s) as [w1 [e|mp_payload]]; [exact H1|].
  simpl in H1.
  destruct (run_mp _ (files w1) _) as [fs2 [e|results]]; [exact H1|].
  destruct (check_for_errors _) as [e|u]; [exact H1|].
  eapply keeps_trans; [exact H1|]. split; simpl; [apply union_subseteq_l|done].
Qed.

(** *** Files *)

Lemma copy2_dom (fs fs' : gmap Path string) (src dst : Path) :
  copy2 fs src dst = ok fs' → dom fs ⊆ dom fs' ∧ is_Some (fs' !! dst).
Proof.
  unfold copy2. destruct (fs !! src) as [c|]; [|done]. intros [= <-].
  split; [|rewrite lookup_insert_eq; eauto].
  rewrite dom_insert. apply union_subseteq_r.
Qed.

Lemma run_mp_dom {A B} (func : gmap Path string → A → gmap Path string * result B)
    (fs : gmap Path string) (items : list A) :
  (∀ fs i, dom fs ⊆ dom (func fs i).1) → dom fs ⊆ dom (run_mp func fs items).1.
Proof.
  intros Hf. revert fs. induction items as [|i items IH]; intros fs; [done|]. simpl.
  pose proof (Hf fs i) as H1. destruct (func fs i) as [fs1 [e|b]]; [exact H1|].
  pose proof (IH fs1) as H2. destruct (run_mp func fs1 items) as [fs2 [e|bs]]; simpl in *;
    by etrans.
Qed.

Lemma make_parsable_x90_dom (fs : gmap Path string) (x90_path : Path) :
  dom fs ⊆ dom (make_parsable_x90 fs x90_path).1.
Proof.
  unfold make_parsable_x90. destruct (fs !! x90_path); [|done].
  destruct (PathLib.with_suffix _ _); [done|]. simpl.
  rewrite dom_insert. apply union_subseteq_r.
Qed.

Hypothesis run_command_keeps_files :
  ∀ fs command fs', run_command fs command = ok fs' → dom fs ⊆ dom fs'.

Lemma do_one_file_dom (fs : gmap Path string) (arg : Path * MpPayload) :
  dom fs ⊆ dom (do_one_file run_command input_to_output_fpath config self fs arg).1.
Proof.
  destruct arg as [x90_file mp_payload]. unfold do_one_file.
  destruct (let? prebuild_hash := _ in _) as [e|[[h modified_alg] generated]]; [done|].
  cbv zeta.
  destruct (_get_prebuild_paths config modified_alg generated h) as [pa pg].
  destruct (exists_ fs pa).
  - destruct (copy2 fs pa modified_alg) as [e|fs1] eqn:H1; [done|].
    apply copy2_dom in H1 as [H1 _].
    destruct (exists_ fs1 pg); [|exact H1].
    destruct (copy2 fs1 pg generated) as [e|fs2] eqn:H2; [exact H1|].
    apply copy2_dom in H2 as [H2 _]. simpl. by etrans.
  - unfold run_psyclone.
    destruct (run_command fs _) as [e|fs1] eqn:H1; [done|].
    apply run_command_keeps_files in H1.
    destruct (copy2 fs1 modified_alg pa) as [e|fs2] eqn:H2; [exact H1|].
    apply copy2_dom in H2 as [H2 _].
    destruct (exists_ fs2 generated).
    + destruct (copy2 fs2 generated pg) as [e|fs3] eqn:H3; simpl; [by etrans|].
      apply copy2_dom in H3 as [H3 _]. by do 2 (etrans; [eassumption|]).
    + simpl. by etrans.
Qed.

Lemma analyse_x90s_files (w : World) (x90s : list Path) :
  dom (files w) ⊆ dom (files (_analyse_x90s x90_analyser_run w x90s).1).
Proof.
  unfold _analyse_x90s.
  pose proof (run_mp_dom make_parsable_x90 (files w) x90s make_parsable_x90_dom) as H.
  destruct (run_mp make_parsable_x90 (files w) x90s) as [fs1 [e|ps]]; [exact H|].
  destruct (check_for_errors _) as [e|u]; exact H.
Qed.

Lemma analyse_kernels_files (w : World) (roots : list Path) :
  files (_analyse_kernels fortran_analyser_run file_walk config w roots).1 = files w.
Proof.
  unfold _analyse_kernels. destruct (set_star _) as [e|all_kernel_files]; [done|].
  simpl. by destruct (lefts _).
Qed.

Lemma analysis_for_prebuilds_files (w : World) (x90s : list Path) :
  dom (files w)
  ⊆ dom (files (analysis_for_prebuilds x90_analyser_run fortran_analyser_run file_walk config
                  self w x90s).1).
Proof.
  unfold analysis_for_prebuilds.
  destruct (match transformation_script self with Some _ => _ | None => _ end) as [e|h]; [done|].
  pose proof (analyse_x90s_files w x90s) as H1.
  destruct (_analyse_x90s x90_analyser_run w x90s) as [w1 [e|analysed]]; [exact H1|].
  pose proof (analyse_kernels_files w1 (kernel_roots self)) as H2.
  destruct (_analyse_kernels _ _ _ w1 _) as [w2 [e|hashes]]; simpl in *; by rewrite H2.
Qed.

(** X8.  If the PSyclone command deletes no file, a run of the step deletes
    none, whether it ends or raises. *)
Theorem run_deletes_no_file (w : World) (x90s : list Path) :
  dom (files w)
  ⊆ dom (files (run x90_analyser_run fortran_analyser_run file_walk run_command
                    input_to_output_fpath config self w x90s).1).
Proof.
  unfold run.
  pose proof (analysis_for_prebuilds_files w x90s) as H1.
  destruct (analysis_for_prebuilds _ _ _ _ _ w x90s) as [w1 [e|mp_payload]]; [exact H1|].
  simpl in H1.
  pose proof (run_mp_dom (do_one_file run_command input_to_output_fpath config self) (files w1)
                (map (fun x90 => (x90, mp_payload)) x90s) do_one_file_dom) as H2.
  destruct (run_mp _ (files w1) _) as [fs2 [e|results]]; simpl in *; [by etrans|].
  destruct (check_for_errors _) as [e|u]; simpl; by etrans.
Qed.

(** *** Outputs *)

Lemma run_mp_Forall {A B} (func : gmap Path string → A → gmap Path string * result B)
    (P : gmap Path string → B → Prop) :
  (∀ fs i, dom fs ⊆ dom (func fs i).1) →
  (∀ fs i fs' b, func fs i = (fs', ok b) → P fs' b) →
  (∀ fs fs' b, dom fs ⊆ dom fs' → P fs b → P fs' b) →
  ∀ fs items fs' bs, run_mp func fs items = (fs', ok bs) → Forall (P fs') bs.
Proof.
  intros Hdom HP Hmono fs items. revert fs. induction items as [|i items IH]; intros fs fs' bs.
  - intros [= <- <-]. constructor.
  - simpl. destruct (func fs i) as [fs1 [e|b]] eqn:Hf; [done|].
    pose proof (run_mp_dom func fs1 items Hdom) as Hd.
    destruct (run_mp func fs1 items) as [fs2 [e|bs']] eqn:Hrest; [done|].
    intros [= <- <-]. constructor.
    + eapply Hmono; [exact Hd|]. by eapply HP.
    + by eapply IH.
Qed.

(** The outputs that [do_one_file] returns are files. *)
Lemma do_one_file_outputs_exist (fs fs' : gmap Path string) (x90_file : Path)
    (mp_payload : MpPayload) (outputs : list Path) (prebuilds : option (list Path)) :
  do_one_file run_command input_to_output_fpath config self fs (x90_file, mp_payload)
  = (fs', ok (inr outputs, prebuilds)) →
  ∀ p, p ∈ outputs → p ∈ dom fs'.
Proof.
  intros Hdo.
  destruct (do_one_file_returns _ _ _ _ _ _ _ _ _ Hdo)
    as [[err [=]]|(h & alg & modified_alg & generated & outs & Hh & Ha & Hm & Hg & Houts & [= -> _])].
  assert (modified_alg ∈ dom fs') as Hmod.
  { rewrite (do_one_file_unfold _ _ _ _ _ _ _ _ _ _ _ Hh Ha Hm Hg) in Hdo. cbv zeta in Hdo.
    destruct (fs !! _) as [ca|].
    - destruct (<[modified_alg := ca]> fs !! _) as [cg|]; injection Hdo as <- _.
      + rewrite !dom_insert. apply elem_of_union_r, elem_of_union_l. by apply elem_of_singleton.
      + rewrite dom_insert. apply elem_of_union_l. by apply elem_of_singleton.
    - destruct (run_psyclone _ _ _ _ _ _) as [err|fs1]; [done|].
      destruct (fs1 !! modified_alg) as [cm|] eqn:Hcm; [|done].
      apply elem_of_dom_2 in Hcm.
      destruct (<[_ := cm]> fs1 !! generated) as [cg|]; injection Hdo as <- _.
      + rewrite !dom_insert. by do 2 apply elem_of_union_r.
      + rewrite dom_insert. by apply elem_of_union_r. }
  intros p Hp. subst outs. rewrite exists_lookup in Hp.
  destruct (fs' !! generated) as [cg|] eqn:Hgen.
  - apply elem_of_dom_2 in Hgen.
    apply elem_of_cons in Hp as [->|Hp]; [done|].
    apply list_elem_of_singleton in Hp as ->. done.
  - apply list_elem_of_singleton in Hp as ->. done.
Qed.

(** X9.  After a run that ends (with a PSyclone command that deletes no
    file), every path recorded in [psyclone_output] is a file, and the
    algorithm output of every x90 is among the recorded paths. *)
Theorem run_outputs_are_files (w : World) (x90s : list Path) :
  (run x90_analyser_run fortran_analyser_run file_walk run_command input_to_output_fpath
       config self w x90s).2 = ok tt →
  (∀ p, p ∈ psyclone_output (run x90_analyser_run fortran_analyser_run file_walk run_command
                                 input_to_output_fpath config self w x90s).1 →
        is_Some (files (run x90_analyser_run fortran_analyser_run file_walk run_command
                            input_to_output_fpath config self w x90s).1 !! p))
  ∧ (∀ x90_file, x90_file ∈ x90s →
       ∃ alg modified_alg,
         PathLib.with_suffix x90_file ".f90" = ok alg
         ∧ input_to_output_fpath config alg = ok modified_alg
         ∧ modified_alg
           ∈ psyclone_output (run x90_analyser_run fortran_analyser_run file_walk run_command
                                  input_to_output_fpath config self w x90s).1).
Proof.
  unfold run.
  destruct (analysis_for_prebuilds _ _ _ _ _ w x90s) as [w1 [e|mp_payload]]; [done|].
  destruct (run_mp _ (files w1) _) as [fs2 [e|results]] eqn:Hmp; [done|].
  destruct (check_for_errors (map fst results)) as [e|[]] eqn:Hchk; [done|].
  intros _. simpl. split.
  - intros p Hp. apply elem_of_dom.
    pose proof (run_mp_Forall (do_one_file run_command input_to_output_fpath config self)
                  (fun fs (r : one_file_result) =>
                     match r.1 with
                     | inr outputs => ∀ p, p ∈ outputs → p ∈ dom fs
                     | inl _ => True
                     end) do_one_file_dom) as HF.
    specialize (HF ltac:(intros fs [x mp] fs' [[err|outs] pbs] Hdo; simpl; [done|];
                         by eapply do_one_file_outputs_exist)).
    specialize (HF ltac:(intros fs fs' [[err|outs] pbs] Hd; simpl; [done|];
                         intros H q Hq; apply Hd; by apply H)).
    specialize (HF _ _ _ _ Hmp).
    apply list_elem_of_In, in_concat in Hp as (outs & Houts & Hp).
    apply list_elem_of_In in Houts, Hp.
    assert (∃ r, r ∈ results ∧ r.1 = inr outs) as ([o pbs] & Hr & Ho).
    { clear -Houts. induction results as [|[[err|o] pbs] results IH]; simpl in Houts.
      - by apply elem_of_nil in Houts.
      - destruct (IH Houts) as (r & Hr & Ho). exists r. split; [by right|done].
      - apply elem_of_cons in Houts as [->|Houts].
        + eexists. split; [left|reflexivity].
        + destruct (IH Houts) as (r & Hr & Ho). exists r. split; [by right|done]. }
    rewrite Forall_forall in HF. specialize (HF _ Hr). simpl in Ho. subst o. simpl in HF.
    by apply HF.
  - intros x90_file Hx. apply run_mp_results in Hmp.
    apply list_elem_of_lookup_1 in Hx as [i Hi].
    assert (map (fun x90 => (x90, mp_payload)) x90s !! i = Some (x90_file, mp_payload)) as Harg
      by (rewrite list_lookup_fmap, Hi; reflexivity).
    destruct (Forall2_lookup_l _ _ _ _ _ Hmp Harg) as (r & Hr & fa & fb & Hdo).
    apply list_elem_of_lookup_2 in Hr.
    destruct (do_one_file_returns _ _ _ _ _ _ _ _ _ Hdo)
      as [[err ->]|(h & alg & modified_alg & generated & outputs & Hh & Ha & Hm & Hg & Ho & ->)].
    { destruct (check_for_errors_ok _ (inl err) Hchk) as [a Ha]; [|done].
      apply list_elem_of_In, (in_map fst) in Hr. by apply list_elem_of_In. }
    exists alg, modified_alg. split; [done|]. split; [done|].
    apply list_elem_of_In, in_concat. exists outputs. split.
    + apply list_elem_of_In, (in_map fst) in Hr. simpl in Hr.
      clear -Hr. induction (map fst results) as [|[err|o] l IH]; simpl in *; [done| |].
      * destruct Hr as [[=]|Hr]. by apply IH.
      * destruct Hr as [[= ->]|Hr]; [by left|right; by apply IH].
    + apply list_elem_of_In. subst outputs. destruct (exists_ fb generated); left.
Qed.

End RunKeeps.

Lemma fixture_run_command_keeps_files (fs : gmap Path string) (command : list string)
    (fs' : gmap Path string) :
  Fixtures.run_command fs command = ok fs' → dom fs ⊆ dom fs'.
Proof. intros [= <-]. rewrite dom_insert. apply union_subseteq_r. Qed.

Lemma run_deletes_no_file_witness :
  dom (files Fixtures.world0) ⊆ dom (files Fixtures.run_psyclone_step.1).
Proof.
  apply (run_deletes_no_file Fixtures.x90_analyser_run Fixtures.fortran_analyser_run
           (Fixtures.file_walk Fixtures.kernel_tree) Fixtures.run_command
           Fixtures.input_to_output_fpath Fixtures.proj Fixtures.step_with_kernels
           fixture_run_command_keeps_files Fixtures.world0 [Fixtures.algo_x90]).
Defined.

Lemma run_outputs_are_files_witness :
  (∀ p, p ∈ psyclone_output Fixtures.run_psyclone_step.1 →
        is_Some (files Fixtures.run_psyclone_step.1 !! p))
  ∧ (∀ x90_file, x90_file ∈ [Fixtures.algo_x90] →
       ∃ alg modified_alg,
         PathLib.with_suffix x90_file ".f90" = ok alg
         ∧ Fixtures.input_to_output_fpath Fixtures.proj alg = ok modified_alg
         ∧ modified_alg ∈ psyclone_output Fixtures.run_psyclone_step.1).
Proof.
  apply (run_outputs_are_files Fixtures.x90_analyser_run Fixtures.fortran_analyser_run
           (Fixtures.file_walk Fixtures.kernel_tree) Fixtures.run_command
           Fixtures.input_to_output_fpath Fixtures.proj Fixtures.step_with_kernels
           fixture_run_command_keeps_files Fixtures.world0 [Fixtures.algo_x90]).
  vm_compute. reflexivity.
Defined.

(** *** Nothing to do, and the transformation script *)

Section RunEdges.

Variable x90_analyser_run :
  gmap Path string → Path → (exn + AnalysedX90.t) * option Path.
Variable fortran_analyser_run :
  gmap Path string → Path → (exn + AnalysedFortran.t) * option Path.
Variable file_walk : gmap Path string → Path → list Path → result (list Path).
Variable run_command : gmap Path string → list string → result (gmap Path string).
Variable input_to_output_fpath : BuildConfig → Path → result Path.
Variable config : BuildConfig.

(** X10.  With no x90, no kernel root and no transformation script the run
    ends: it records an empty [psyclone_output] and changes nothing else. *)
Theorem run_without_x90s (step_name : string) (args : list string) (w : World) :
  run x90_analyser_run fortran_analyser_run file_walk run_command input_to_output_fpath config
      {| name := step_name; kernel_roots := []; transformation_script := None;
         cli_args := args |} w []
  = (set_psyclone_output [] w, ok tt).
Proof.
  unfold run, analysis_for_prebuilds, _analyse_x90s, _analyse_kernels. simpl.
  rewrite elements_empty. simpl. f_equal.
  destruct w as [fs current out log]. unfold set_psyclone_output, add_current_prebuilds,
    set_files. simpl. f_equal. by rewrite !(right_id_L ∅ (∪)).
Qed.

(** X11.  With a transformation script configured: if the script is no
    file, the run raises [FileNotFoundError] for it and leaves the world as
    it was, whatever the x90s; if it is a file and the analysis for
    prebuilds returns a payload, the payload's transformation script hash is
    the checksum of the script's content. *)
Theorem run_hashes_the_transformation_script (self : Psyclone) (script : Path) (w : World)
    (x90s : list Path) (Hscript : transformation_script self = Some script) :
  (files w !! script = None →
   run x90_analyser_run fortran_analyser_run file_walk run_command input_to_output_fpath
       config self w x90s = (w, raise (FileNotFoundError script)))
  ∧ (∀ content mp_payload,
       files w !! script = Some content →
       (analysis_for_prebuilds x90_analyser_run fortran_analyser_run file_walk config self
          w x90s).2 = ok mp_payload →
       transformation_script_hash mp_payload = Hashing.crc32 content).
Proof.
  split.
  - intros Hnone. unfold run, analysis_for_prebuilds, file_checksum.
    by rewrite Hscript, Hnone.
  - intros content mp_payload Hc. unfold analysis_for_prebuilds, file_checksum.
    rewrite Hscript, Hc.
    destruct (_analyse_x90s x90_analyser_run w x90s) as [w1 [e|analysed]]; [done|].
    destruct (_analyse_kernels _ _ _ w1 _) as [w2 [e|hashes]]; [done|].
    by intros [= <-].
Qed.

End RunEdges.

Lemma run_hashes_the_transformation_script_witness :
  run Fixtures.x90_analyser_run Fixtures.fortran_analyser_run
      (Fixtures.file_walk Fixtures.kernel_tree) Fixtures.run_command
      Fixtures.input_to_output_fpath Fixtures.proj Fixtures.step_with_script
      Fixtures.world0 [Fixtures.algo_x90]
  = (Fixtures.world0, raise (FileNotFoundError Fixtures.script_py)).
Proof.
  apply (proj1 (run_hashes_the_transformation_script Fixtures.x90_analyser_run
                  Fixtures.fortran_analyser_run (Fixtures.file_walk Fixtures.kernel_tree)
                  Fixtures.run_command Fixtures.input_to_output_fpath Fixtures.proj
                  Fixtures.step_with_script Fixtures.script_py Fixtures.world0
                  [Fixtures.algo_x90] eq_refl)).
  vm_compute. reflexivity.
Defined.

(** ** The parsable file *)




(** ** Texts that are parsable already *)

Section ParsableAlready.
Import X90.

Lemma lines_ok_nonempty (ls : list text) : lines_ok ls → Forall (fun l => l ≠ []) ls.
Proof.
  induction 1 as [|l Hne Hl|l ls Hl Hls IH]; constructor; try done.
  by destruct l.
Qed.

Lemma filter_concat_length (P : text → Prop) `{∀ l, Decision (P l)} (ls : list text) :
  Forall (fun l => l ≠ []) ls →
  (length (concat (filter P ls)) ≤ length (concat ls))%nat
  ∧ (length (concat (filter P ls)) = length (concat ls) → filter P ls = ls).
Proof.
  induction 1 as [|l ls Hl _ [IHle IHeq]]; [done|].
  rewrite filter_cons. destruct (decide (P l)); simpl; rewrite !length_app.
  - split; [lia|]. intros Heq. f_equal. apply IHeq. lia.
  - split; [lia|]. intros Heq. destruct l; [done|]. simpl in Heq. lia.
Qed.

Lemma strip_comments_length (src : text) :
  (length (strip_comments src) ≤ length src)%nat
  ∧ (length (strip_comments src) = length src → strip_comments src = src).
Proof.
  unfold strip_comments, no_comment_lines.
  destruct (filter_concat_length (fun line => negb (is_comment_line line)) (readlines src))
    as [Hle Heq]; [apply lines_ok_nonempty, readlines_lines_ok|].
  rewrite concat_readlines in Hle, Heq. split; [exact Hle|].
  intros H. rewrite (Heq H). apply concat_readlines.
Qed.

(** X13.  The parsable text is never longer than the source, and it is the
    source itself exactly when the source has no comment line and no
    position where a named invoke starts. *)
Theorem make_parsable_text_fixed (src : text) :
  (length (make_parsable_text src) ≤ length src)%nat
  ∧ (make_parsable_text src = src
     ↔ no_comment LineStart src = true ∧ has_match NAMED_INVOKE src = false).
Proof.
  destruct (strip_comments_length src) as [Hle Heq].
  destruct (sub_length NAMED_INVOKE repl named_invoke_shrinks (strip_comments src)) as [Hsub _].
  rewrite make_parsable_text_unfold. split; [lia|]. split.
  - intros Hfix.
    assert (strip_comments src = src) as Hstrip.
    { apply Heq. pose proof (f_equal length Hfix) as Hlen. lia. }
    rewrite Hstrip in Hfix. split.
    + rewrite <- Hstrip. apply strip_comments_no_comment.
    + by apply (sub_fixed_iff NAMED_INVOKE repl named_invoke_shrinks).
  - intros [Hnc Hnm]. rewrite strip_comments_fixed by done.
    by apply (sub_no_match NAMED_INVOKE repl named_invoke_shrinks).
Qed.

End ParsableAlready.

(** ** The build configuration *)










(** X15.  The multiprocessing set-up of [BuildConfig.__init__]: if
    multiprocessing is on afterwards, it was asked for, no debugger was
    detected, and [n_procs] is a number other than 0, at least 1 when none
    was given; a given non-zero [n_procs] is always kept; a detected
    debugger turns multiprocessing off and leaves [n_procs] as given. *)
Theorem init_multiprocessing_n_procs (multiprocessing : bool) (n_procs : option Z)
    (debugger_detected : bool) (sched_getaffinity : option nat) :
  let after := init_multiprocessing multiprocessing n_procs debugger_detected sched_getaffinity in
  (after.1 = true →
   multiprocessing = true ∧ debugger_detected = false
   ∧ ∃ n, after.2 = Some n ∧ n ≠ 0 ∧ (n_procs_given n_procs = false → 1 ≤ n))
  ∧ (n_procs_given n_procs = true → after.2 = n_procs)
  ∧ (debugger_detected = true → after = (false, n_procs)).
Proof.
  unfold init_multiprocessing.
  destruct debugger_detected; [by destruct n_procs as [n|]|].
  destruct multiprocessing; [|by destruct n_procs as [n|]].
  assert (∀ cpus : nat, Z.max 1 (Z.of_nat cpus) ≠ 0 ∧ 1 ≤ Z.max 1 (Z.of_nat cpus)) as Hmax
    by (intros cpus; lia).
  destruct n_procs as [n|]; simpl.
  - destruct (n =? 0) eqn:Hn; simpl.
    + destruct sched_getaffinity as [cpus|]; simpl; (split; [|done]); [|done].
      intros _. do 2 (split; [done|]). eexists. split; [done|]. split; [|intros _]; apply Hmax.
    + apply Z.eqb_neq in Hn. split; [|done]. intros _. do 2 (split; [done|]).
      exists n. by repeat split.
  - destruct sched_getaffinity as [cpus|]; simpl; (split; [|done]); [|done].
    intros _. do 2 (split; [done|]). eexists. split; [done|]. split; [|intros _]; apply Hmax.
Qed.

Section BuildRunFacts.

Context {Step : Type}.
Variable is_CleanupPrebuilds : Step → bool.
Variable CleanupPrebuilds_all_unused : Step.
Variable step_run : Step → World → World * result unit.
Hypothesis default_is_cleanup : is_CleanupPrebuilds CleanupPrebuilds_all_unused = true.

Lemma reset_artefact_store_twice (w : World) :
  reset_artefact_store (reset_artefact_store w) = reset_artefact_store w.
Proof. reflexivity. Qed.

Lemma run_prep_steps_cases (b : Build Step) :
  (Forall (fun s => is_CleanupPrebuilds s = false) (steps b)
   ∧ steps (_run_prep Step is_CleanupPrebuilds CleanupPrebuilds_all_unused b)
     = steps b ++ [CleanupPrebuilds_all_unused])
  ∨ (Exists (fun s => is_CleanupPrebuilds s = true) (steps b)
     ∧ steps (_run_prep Step is_CleanupPrebuilds CleanupPrebuilds_all_unused b) = steps b).
Proof.
  unfold _run_prep. simpl.
  destruct (filter (fun s => is_CleanupPrebuilds s = true) (steps b)) as [|s l] eqn:Hf.
  - left. split; [|done]. apply Forall_forall. intros s Hs.
    destruct (is_CleanupPrebuilds s) eqn:Hc; [|done].
    assert (s ∈ filter (fun s => is_CleanupPrebuilds s = true) (steps b)) as Hin
      by (by apply list_elem_of_filter).
    rewrite Hf in Hin. by apply elem_of_nil in Hin.
  - right. split; [|done]. apply Exists_exists. exists s.
    assert (s ∈ filter (fun s => is_CleanupPrebuilds s = true) (steps b)) as Hin
      by (rewrite Hf; left).
    apply list_elem_of_filter in Hin as [? ?]. by split.
Qed.

(** X16.  [_run_prep] leaves a step list that holds a cleanup step: the
    steps it found stay, in order; a list that has a cleanup step is not
    changed; to a list that has none the default cleanup is added at the
    end; so at most one step is added, and preparing again changes
    nothing. *)
Theorem run_prep_default_cleanup (b : Build Step) :
  let prepared := _run_prep Step is_CleanupPrebuilds CleanupPrebuilds_all_unused b in
  Exists (fun s => is_CleanupPrebuilds s = true) (steps prepared)
  ∧ steps b `prefix_of` steps prepared
  ∧ (length (steps prepared) ≤ S (length (steps b)))%nat
  ∧ (Exists (fun s => is_CleanupPrebuilds s = true) (steps b) → steps prepared = steps b)
  ∧ (Forall (fun s => is_CleanupPrebuilds s = false) (steps b) →
     steps prepared = steps b ++ [CleanupPrebuilds_all_unused])
  ∧ _run_prep Step is_CleanupPrebuilds CleanupPrebuilds_all_unused prepared = prepared.
Proof.
  intros prepared.
  assert (Exists (fun s => is_CleanupPrebuilds s = true) (steps prepared)) as Hex.
  { destruct (run_prep_steps_cases b) as [[_ Heq]|[Hex Heq]]; subst prepared; rewrite Heq.
    - apply Exists_app. right. by constructor.
    - exact Hex. }
  split; [exact Hex|].
  destruct (run_prep_steps_cases b) as [[Hall Heq]|[Hb Heq]]; fold prepared in Heq.
  - rewrite Heq. split; [by apply prefix_app_r|]. split; [rewrite length_app; simpl; lia|].
    split.
    { intros Hb. apply Exists_exists in Hb as (s & Hs & Hc).
      rewrite Forall_forall in Hall. rewrite (Hall s Hs) in Hc. done. }
    split; [done|].
    destruct (run_prep_steps_cases prepared) as [[Hall' _]|[_ Heq']].
    { apply Exists_exists in Hex as (s & Hs & Hc).
      rewrite Forall_forall in Hall'. rewrite (Hall' s Hs) in Hc. done. }
    change (_run_prep Step is_CleanupPrebuilds CleanupPrebuilds_all_unused prepared)
      with {| steps := steps (_run_prep Step is_CleanupPrebuilds CleanupPrebuilds_all_unused
                                prepared);
              store := reset_artefact_store (store prepared) |}.
    rewrite Heq'. reflexivity.
  - rewrite Heq. split; [done|]. split; [lia|]. split; [done|].
    split.
    { intros Hall. apply Exists_exists in Hb as (s & Hs & Hc).
      rewrite Forall_forall in Hall. rewrite (Hall s Hs) in Hc. done. }
    destruct (run_prep_steps_cases prepared) as [[Hall' _]|[_ Heq']].
    { apply Exists_exists in Hex as (s & Hs & Hc).
      rewrite Forall_forall in Hall'. rewrite (Hall' s Hs) in Hc. done. }
    change (_run_prep Step is_CleanupPrebuilds CleanupPrebuilds_all_unused prepared)
      with {| steps := steps (_run_prep Step is_CleanupPrebuilds CleanupPrebuilds_all_unused
                                prepared);
              store := reset_artefact_store (store prepared) |}.
    rewrite Heq'. reflexivity.
Qed.

Lemma run_steps_app (l1 l2 : list Step) (w : World) :
  run_steps Step step_run (l1 ++ l2) w
  = match run_steps Step step_run l1 w with
    | (w1, inl err) => (w1, raise err)
    | (w1, inr _) => run_steps Step step_run l2 w1
    end.
Proof.
  revert w. induction l1 as [|s l1 IH]; intros w; [reflexivity|]. simpl.
  destruct (step_run s w) as [w1 [err|u]]; [reflexivity|apply IH].
Qed.

(** X17.  [BuildConfig.run]: the artefact store the config held before
    plays no part (the run starts from an empty one); the steps after the
    run are the prepared steps, and another run adds no further step; when
    a step raises after the steps before it ended, the run raises the
    build error made of that exception, with the world as that step left
    it, and the steps after it are not run; when all steps end, so does the
    run. *)
Theorem build_run_steps (b : Build Step) :
  let prepared := _run_prep Step is_CleanupPrebuilds CleanupPrebuilds_all_unused b in
  let after := BuildConfig_run Step is_CleanupPrebuilds CleanupPrebuilds_all_unused step_run b in
  BuildConfig_run Step is_CleanupPrebuilds CleanupPrebuilds_all_unused step_run
    {| steps := steps b; store := reset_artefact_store (store b) |} = after
  ∧ steps after.1 = steps prepared
  ∧ steps (BuildConfig_run Step is_CleanupPrebuilds CleanupPrebuilds_all_unused step_run
             after.1).1 = steps after.1
  ∧ (∀ done_steps step rest w0 w1 err,
       steps prepared = done_steps ++ step :: rest →
       run_steps Step step_run done_steps (store prepared) = (w0, ok tt) →
       step_run step w0 = (w1, raise err) →
       after = ({| steps := steps prepared; store := w1 |}, inl (BuildStepsError err)))
  ∧ (∀ w1, run_steps Step step_run (steps prepared) (store prepared) = (w1, ok tt) →
           after = ({| steps := steps prepared; store := w1 |}, inr tt)).
Proof.
  intros prepared after.
  assert (steps after.1 = steps prepared) as Hsteps.
  { subst after. unfold BuildConfig_run. fold prepared.
    by destruct (run_steps Step step_run (steps prepared) (store prepared)) as [w [e|u]]. }
  split; [reflexivity|]. split; [exact Hsteps|]. split; [|split].
  - assert (∀ b', steps (BuildConfig_run Step is_CleanupPrebuilds CleanupPrebuilds_all_unused
                           step_run b').1
                  = steps (_run_prep Step is_CleanupPrebuilds CleanupPrebuilds_all_unused b'))
      as Hrun.
    { intros b'. unfold BuildConfig_run.
      by destruct (run_steps Step step_run _ _) as [w [e|u]]. }
    rewrite Hrun, Hsteps.
    destruct (run_prep_steps_cases after.1) as [[Hall _]|[_ Heq]]; [|by rewrite Heq, Hsteps].
    exfalso. rewrite Hsteps in Hall.
    destruct (run_prep_steps_cases b) as [[_ Heq]|[Hex Heq]]; fold prepared in Heq.
    + rewrite Heq in Hall. apply Forall_app in Hall as [_ Hall].
      apply Forall_cons in Hall as [Hc _]. by rewrite default_is_cleanup in Hc.
    + rewrite Heq in Hall. apply Exists_exists in Hex as (s & Hs & Hc).
      rewrite Forall_forall in Hall. by rewrite (Hall s Hs) in Hc.
  - intros done_steps step rest w0 w1 err Hsplit Hdone Hfail.
    subst after. unfold BuildConfig_run. fold prepared.
    rewrite Hsplit at 1. rewrite run_steps_app, Hdone. cbn [run_steps]. by rewrite Hfail.
  - intros w1 Hall. subst after. unfold BuildConfig_run. fold prepared. by rewrite Hall.
Qed.

End BuildRunFacts.

Lemma run_prep_default_cleanup_witness :
  steps (_run_prep Gcom.step Gcom.is_CleanupPrebuilds Fixtures.hard_cleanup
           {| steps := Fixtures.gcom_common_steps; store := Fixtures.world0 |})
  = Fixtures.gcom_common_steps ++ [Fixtures.hard_cleanup].
Proof.
  apply (run_prep_default_cleanup Gcom.is_CleanupPrebuilds Fixtures.hard_cleanup eq_refl
           {| steps := Fixtures.gcom_common_steps; store := Fixtures.world0 |}).
  repeat constructor.
Defined.

Lemma build_run_steps_witness :
  BuildConfig_run Gcom.step Gcom.is_CleanupPrebuilds Fixtures.hard_cleanup
    Fixtures.gcom_step_run
    {| steps := (Gcom.gcom_ar_config Fixtures.gcom_common_steps None "gfortran"
                   ["/"; "fab"]%string).2;
       store := Fixtures.world0 |}
  = ({| steps := (Gcom.gcom_ar_config Fixtures.gcom_common_steps None "gfortran"
                    ["/"; "fab"]%string).2;
        store := add_current_prebuilds [prebuild_folder Fixtures.proj ++ ["compile"%string]]
                   (add_current_prebuilds [prebuild_folder Fixtures.proj ++ ["grab"%string]]
                      (reset_artefact_store Fixtures.world0)) |},
     inl (BuildStepsError (ToolError "ar: command not found"))).
Proof.
  apply (proj1 (proj2 (proj2 (proj2
           (build_run_steps Gcom.is_CleanupPrebuilds Fixtures.hard_cleanup
              Fixtures.gcom_step_run eq_refl
              {| steps := (Gcom.gcom_ar_config Fixtures.gcom_common_steps None "gfortran"
                             ["/"; "fab"]%string).2;
                 store := Fixtures.world0 |}))))
           Fixtures.gcom_common_steps (Gcom.ArchiveObjects "$output/libgcom.a")
           [Fixtures.hard_cleanup]
           (add_current_prebuilds [prebuild_folder Fixtures.proj ++ ["compile"%string]]
              (add_current_prebuilds [prebuild_folder Fixtures.proj ++ ["grab"%string]]
                 (reset_artefact_store Fixtures.world0)))
           (add_current_prebuilds [prebuild_folder Fixtures.proj ++ ["compile"%string]]
              (add_current_prebuilds [prebuild_folder Fixtures.proj ++ ["grab"%string]]
                 (reset_artefact_store Fixtures.world0)))
           (ToolError "ar: command not found")).
  - reflexivity.
  - reflexivity.
  - reflexivity.
Defined.

(** ** Flags *)

Section TemplateFacts.
Import Template.

Variable mapping : gmap string string.

Lemma scan_plain (pre rest : string) :
  plain pre →
  scan mapping Text (pre +:+ rest) = let? r := scan mapping Text rest in ok (pre +:+ r).
Proof.
  unfold plain, Py.contains. induction pre as [|c pre IH]; intros Hp.
  - change (EmptyString +:+ rest) with rest. by destruct (scan mapping Text rest).
  - rewrite string_app_cons. cbn [list_ascii_of_string existsb] in Hp.
    apply orb_false_iff in Hp as [Hc Hp].
    cbn [scan]. rewrite Ascii.eqb_sym in Hc. rewrite Hc, (IH Hp).
    by destruct (scan mapping Text rest).
Qed.

Lemma substitute_plain (s : string) : plain s → substitute mapping s = ok s.
Proof.
  intros Hp. unfold substitute. rewrite <- (string_app_nil_r s) at 1.
  rewrite scan_plain by done. simpl. by rewrite string_app_nil_r.
Qed.

Lemma scan_named (acc name rest : string) :
  all_id_chars name = true → ends_name rest = true →
  scan mapping (Named acc) (name +:+ rest)
  = let? v := getitem mapping (acc +:+ name) in
    let? r := scan mapping Text rest in ok (v +:+ r).
Proof.
  revert acc. induction name as [|c name IH]; intros acc Hname Hrest.
  - change (EmptyString +:+ rest) with rest. rewrite string_app_nil_r.
    destruct rest as [|c rest]; simpl.
    + destruct (getitem mapping acc) as [e|v]; [reflexivity|]. simpl.
      by rewrite string_app_nil_r.
    + simpl in Hrest. apply negb_true_iff in Hrest. by rewrite Hrest.
  - rewrite string_app_cons. simpl in Hname. apply andb_true_iff in Hname as [Hc Hname].
    cbn [scan]. rewrite Hc, (IH _ Hname Hrest).
    rewrite string_app_assoc. reflexivity.
Qed.

End TemplateFacts.

Section TemplateNames.
Import Template.

Variable mapping : gmap string string.

Lemma id_start_not_dollar (c : ascii) : is_id_start c = true → Ascii.eqb c "$" = false.
Proof. destruct (Ascii.eqb_spec c "$") as [->|]; [|done]. intros H. discriminate H. Qed.

(** A named placeholder between two texts. *)
Lemma substitute_named (pre name post : string) :
  plain pre → identifier name = true → ends_name post = true →
  substitute mapping (pre +:+ "$" +:+ name +:+ post)
  = let? v := getitem mapping name in
    let? r := substitute mapping post in ok (pre +:+ v +:+ r).
Proof.
  intros Hpre Hname Hpost. unfold substitute. rewrite scan_plain by done.
  destruct name as [|c name]; [done|]. simpl in Hname.
  apply andb_true_iff in Hname as [Hc Hname].
  change ("$" +:+ String c name +:+ post) with (String "$" (String c (name +:+ post))).
  cbn [scan]. rewrite Ascii.eqb_refl, (id_start_not_dollar c Hc), Hc.
  rewrite (scan_named mapping _ name post Hname Hpost).
  change (String c "" +:+ name) with (String c name).
  destruct (getitem mapping (String c name)) as [e|v]; [reflexivity|]. simpl.
  destruct (scan mapping Text post) as [e|r]; reflexivity.
Qed.

Lemma rmapM_substitute_plain (l : list string) :
  Forall plain l → rmapM (substitute mapping) l = ok l.
Proof.
  induction 1 as [|s l Hs _ IH]; [reflexivity|].
  simpl. rewrite (substitute_plain mapping s Hs). simpl. by rewrite IH.
Qed.

End TemplateNames.

Section FlagsFacts.

Variable fnmatch : string → string → bool.

Lemma AddFlags_run_plain (m : AddFlags.t) (path : Path) (acc : list string)
    (config : BuildConfig) :
  plain (AddFlags.match_ m) → Forall plain (AddFlags.flags m) →
  AddFlags.run fnmatch m path acc config
  = ok (if applies fnmatch path m then acc ++ AddFlags.flags m else acc).
Proof.
  intros Hm Hf. unfold AddFlags.run, applies.
  destruct (String.eqb (AddFlags.match_ m) EmptyString); simpl.
  - rewrite rmapM_substitute_plain by done. reflexivity.
  - rewrite substitute_plain by done. simpl.
    destruct (fnmatch _ _); [|reflexivity]. rewrite rmapM_substitute_plain by done. reflexivity.
Qed.

Lemma run_path_flags_plain (modifiers : list AddFlags.t) (path : Path) (acc : list string)
    (config : BuildConfig) :
  Forall (fun m => plain (AddFlags.match_ m) ∧ Forall plain (AddFlags.flags m)) modifiers →
  run_path_flags fnmatch modifiers path acc config
  = ok (acc ++ flat_map AddFlags.flags (filter (fun m => applies fnmatch path m) modifiers)).
Proof.
  intros Hall. revert acc. induction Hall as [|m l [Hm Hf] _ IH]; intros acc.
  - simpl. by rewrite app_nil_r.
  - cbn [run_path_flags]. rewrite AddFlags_run_plain by done. simpl. rewrite IH.
    rewrite filter_cons. destruct (applies fnmatch path m) eqn:Ha.
    + rewrite decide_True by done. simpl. by rewrite <- app_assoc.
    + rewrite decide_False by (intros []). reflexivity.
Qed.

(** X18.  For a flags config without a dollar sign in its common flags, its
    path filters and its path flags, [flags_for_path] gives the common flags
    followed by the flags of every [AddFlags] whose filter is empty or
    matches the path, in the order of the config. *)
Theorem flags_for_path_plain (self : FlagsConfig) (path : Path) (config : BuildConfig)
    (Hcommon : Forall plain (common_flags self))
    (Hpath : Forall (fun m => plain (AddFlags.match_ m) ∧ Forall plain (AddFlags.flags m)) (path_flags self)) :
  flags_for_path fnmatch self path config
  = ok (common_flags self
        ++ flat_map AddFlags.flags (filter (fun m => applies fnmatch path m) (path_flags self))).
Proof.
  unfold flags_for_path. rewrite rmapM_substitute_plain by done. simpl.
  by apply run_path_flags_plain.
Qed.

Lemma common_params_lookup (config : BuildConfig) :
  getitem (common_params config) "source" = ok (PathLib.str_path (source_root config))
  ∧ getitem (common_params config) "output" = ok (PathLib.str_path (build_output config))
  ∧ getitem (common_params config) "relative" = raise KeyError.
Proof.
  unfold getitem, common_params. split; [|split].
  - by rewrite lookup_insert_eq.
  - by rewrite lookup_insert_ne, lookup_singleton_eq.
  - by rewrite lookup_insert_ne, lookup_singleton_ne.
Qed.

Lemma path_params_lookup (config : BuildConfig) (fpath : Path) :
  getitem (path_params config fpath) "source" = ok (PathLib.str_path (source_root config))
  ∧ getitem (path_params config fpath) "output" = ok (PathLib.str_path (build_output config))
  ∧ getitem (path_params config fpath) "relative"
    = ok (PathLib.str_path (PathLib.parent fpath)).
Proof.
  unfold getitem, path_params. split; [|split].
  - by rewrite lookup_insert_ne, lookup_insert_eq.
  - by rewrite !lookup_insert_ne, lookup_singleton_eq.
  - by rewrite lookup_insert_eq.
Qed.

(** X19.  Templates in flags.  In a common flag [$source] and [$output] stand
    for the source root and the build output, while [$relative] raises
    [KeyError]; in the flags of an [AddFlags] (here one without filter)
    [$relative] stands for the folder of the file and [$source] for the
    source root.  The placeholder may follow any text without dollar sign
    and be followed by one that does not go on with an identifier
    character. *)
Theorem flags_for_path_templates (path : Path) (config : BuildConfig) (pre post : string)
    (Hpre : plain pre) (Hpost : plain post) (Hends : Template.ends_name post = true) :
  let common flag := {| common_flags := [flag]; path_flags := [] |} in
  let for_all flag :=
    {| common_flags := []; path_flags := [{| AddFlags.match_ := EmptyString; AddFlags.flags := [flag] |}] |} in
  flags_for_path fnmatch (common (pre +:+ "$source" +:+ post)) path config
  = ok [pre +:+ PathLib.str_path (source_root config) +:+ post]
  ∧ flags_for_path fnmatch (common (pre +:+ "$output" +:+ post)) path config
    = ok [pre +:+ PathLib.str_path (build_output config) +:+ post]
  ∧ flags_for_path fnmatch (common (pre +:+ "$relative" +:+ post)) path config
    = raise KeyError
  ∧ flags_for_path fnmatch (for_all (pre +:+ "$relative" +:+ post)) path config
    = ok [pre +:+ PathLib.str_path (PathLib.parent path) +:+ post]
  ∧ flags_for_path fnmatch (for_all (pre +:+ "$source" +:+ post)) path config
    = ok [pre +:+ PathLib.str_path (source_root config) +:+ post].
Proof.
  intros common for_all. subst common for_all.
  destruct (common_params_lookup config) as (Hs & Ho & Hr).
  destruct (path_params_lookup config path) as (Hs' & Ho' & Hr').
  change ("$source" +:+ post) with ("$" +:+ "source" +:+ post).
  change ("$output" +:+ post) with ("$" +:+ "output" +:+ post).
  change ("$relative" +:+ post) with ("$" +:+ "relative" +:+ post).
  assert (∀ flag, flags_for_path fnmatch {| common_flags := [flag]; path_flags := [] |} path config
                  = let? f := Template.substitute (common_params config) flag in ok [f]) as Hcommon.
  { intros flag. unfold flags_for_path. simpl.
    destruct (Template.substitute (common_params config) flag); reflexivity. }
  assert (∀ flag, flags_for_path fnmatch
                    {| common_flags := [];
                       path_flags := [{| AddFlags.match_ := EmptyString; AddFlags.flags := [flag] |}] |} path config
                  = let? f := Template.substitute (path_params config path) flag in ok [f])
    as Hall.
  { intros flag. unfold flags_for_path. simpl. unfold AddFlags.run. simpl.
    destruct (Template.substitute (path_params config path) flag); reflexivity. }
  rewrite !Hcommon, !Hall, !substitute_named by done.
  rewrite Hs, Ho, Hr, Hs', Hr'. rewrite !(substitute_plain _ post Hpost).
  repeat split.
Qed.

End FlagsFacts.

Section FlagsOrder.

Variable fnmatch : string → string → bool.

Lemma AddFlags_run_appends (m : AddFlags.t) (path : Path) (acc fl : list string)
    (config : BuildConfig) :
  AddFlags.run fnmatch m path acc config = ok fl →
  ∃ added, fl = acc ++ added
           ∧ ((added = [] ∧ ¬ modifier_applies fnmatch m path config)
              ∨ (modifier_applies fnmatch m path config
                 ∧ rmapM (Template.substitute (path_params config path)) (AddFlags.flags m) = ok added)).
Proof.
  unfold AddFlags.run, modifier_applies.
  destruct (String.eqb_spec (AddFlags.match_ m) EmptyString) as [He|Hne]; simpl.
  - destruct (rmapM _ (AddFlags.flags m)) as [e|added]; [done|]. intros [= <-].
    exists added. split; [done|]. right. split; [by left|done].
  - destruct (Template.substitute _ (AddFlags.match_ m)) as [e|pattern] eqn:Hp; [done|]. simpl.
    destruct (fnmatch _ pattern) eqn:Hf.
    + destruct (rmapM _ (AddFlags.flags m)) as [e|added]; [done|]. intros [= <-].
      exists added. split; [done|]. right. split; [|done]. right. by exists pattern.
    + intros [= <-]. exists []. split; [by rewrite app_nil_r|]. left. split; [done|].
      intros [?|(pattern' & [= <-] & Hf')]; [done|]. by rewrite Hf in Hf'.
Qed.

(** X20.  When [flags_for_path] returns flags, these are the templated
    common flags followed, in the order of the path flags, by what each
    [AddFlags] added: nothing if its filter does not match the path, its
    templated flags if its filter is empty or matches. *)
Theorem flags_for_path_order (self : FlagsConfig) (path : Path) (config : BuildConfig)
    (fl : list string) (Hflags : flags_for_path fnmatch self path config = ok fl) :
  ∃ common added,
    rmapM (Template.substitute (common_params config)) (common_flags self) = ok common
    ∧ fl = common ++ concat added
    ∧ Forall2 (fun m a =>
                 (a = [] ∧ ¬ modifier_applies fnmatch m path config)
                 ∨ (modifier_applies fnmatch m path config
                    ∧ rmapM (Template.substitute (path_params config path)) (AddFlags.flags m) = ok a))
        (path_flags self) added.
Proof.
  unfold flags_for_path in Hflags.
  destruct (rmapM _ (common_flags self)) as [e|common]; [done|]. simpl in Hflags.
  exists common.
  revert common fl Hflags. induction (path_flags self) as [|m l IH]; intros acc fl Hrun.
  - injection Hrun as <-. exists []. simpl. by rewrite app_nil_r.
  - cbn [run_path_flags] in Hrun.
    destruct (AddFlags.run fnmatch m path acc config) as [e|fl1] eqn:Hone; [done|].
    simpl in Hrun. destruct (AddFlags_run_appends _ _ _ _ _ Hone) as (a & -> & Ha).
    destruct (IH _ _ Hrun) as (added & Hc & -> & HF).
    exists (a :: added). split; [done|]. split; [by rewrite <- app_assoc|]. by constructor.
Qed.

End FlagsOrder.

Lemma flags_for_path_plain_witness :
  flags_for_path Fixtures.fnmatch Fixtures.flags_config Fixtures.um_file Fixtures.proj
  = ok (["-O2"; "-c"]%string
        ++ flat_map AddFlags.flags
             (filter (fun m => applies Fixtures.fnmatch Fixtures.um_file m)
                (path_flags Fixtures.flags_config))).
Proof.
  apply (flags_for_path_plain Fixtures.fnmatch Fixtures.flags_config Fixtures.um_file
           Fixtures.proj).
  - repeat constructor.
  - repeat constructor.
Defined.

Lemma fixture_flags_for_um_file :
  flags_for_path Fixtures.fnmatch Fixtures.flags_config Fixtures.um_file Fixtures.proj
  = ok ["-O2"; "-c"; "-I/fab/include"; "-g"]%string.
Proof. vm_compute. reflexivity. Qed.

Lemma flags_for_path_templates_witness :
  flags_for_path Fixtures.fnmatch
    {| common_flags := []; path_flags := [{| AddFlags.match_ := EmptyString;
                                             AddFlags.flags := ["-I$relative/include"%string] |}] |}
    Fixtures.um_file Fixtures.proj
  = ok ["-I/fab/proj/source/um/include"%string].
Proof.
  apply (flags_for_path_templates Fixtures.fnmatch Fixtures.um_file Fixtures.proj
           "-I" "/include").
  - reflexivity.
  - reflexivity.
  - reflexivity.
Defined.

Lemma flags_for_path_order_witness :
  ∃ common added,
    rmapM (Template.substitute (common_params Fixtures.proj))
      (common_flags Fixtures.flags_config) = ok common
    ∧ ["-O2"; "-c"; "-I/fab/include"; "-g"]%string = common ++ concat added
    ∧ Forall2 (fun m a =>
                 (a = [] ∧ ¬ modifier_applies Fixtures.fnmatch m Fixtures.um_file Fixtures.proj)
                 ∨ (modifier_applies Fixtures.fnmatch m Fixtures.um_file Fixtures.proj
                    ∧ rmapM (Template.substitute (path_params Fixtures.proj Fixtures.um_file))
                        (AddFlags.flags m) = ok a))
        (path_flags Fixtures.flags_config) added.
Proof.
  apply (flags_for_path_order Fixtures.fnmatch Fixtures.flags_config Fixtures.um_file
           Fixtures.proj ["-O2"; "-c"; "-I/fab/include"; "-g"]%string).
  vm_compute. reflexivity.
Defined.

(** ** The gcom run configurations *)

Section GcomFacts.
Import Gcom.


End GcomFacts.

Section GcomSteps.
Import Gcom.

(** X22.  Both gcom configs end with a cleanup step of their own, the
    archive with the cleanup of all unused prebuilds and the shared library
    with the cleanup of prebuilds older than five minutes, so [_run_prep]
    adds no default cleanup to either, whatever the common build steps. *)
Theorem gcom_configs_bring_their_cleanup (common : list step) (revision : option string)
    (compiler : string) (fab_workspace : Path) (default : step) (w : World) :
  steps (_run_prep step is_CleanupPrebuilds default
           {| steps := (gcom_ar_config common revision compiler fab_workspace).2; store := w |})
  = (gcom_ar_config common revision compiler fab_workspace).2
  ∧ steps (_run_prep step is_CleanupPrebuilds default
             {| steps := (gcom_so_config common revision compiler fab_workspace).2; store := w |})
    = (gcom_so_config common revision compiler fab_workspace).2
  ∧ last (gcom_ar_config common revision compiler fab_workspace).2
    = Some (CleanupPrebuilds None (Some true))
  ∧ last (gcom_so_config common revision compiler fab_workspace).2
    = Some (CleanupPrebuilds (Some 5) None).
Proof.
  assert (∀ l s o a, Exists (fun s => is_CleanupPrebuilds s = true)
                       (l ++ [s; CleanupPrebuilds o a])) as Hex.
  { intros l s o a. apply Exists_app. right. apply Exists_cons. right. by constructor. }
  unfold gcom_ar_config, gcom_so_config. cbn [snd].
  split; [|split; [|split]].
  - destruct (run_prep_steps_cases is_CleanupPrebuilds default
                {| steps := common ++ [ArchiveObjects "$output/libgcom.a";
                                       CleanupPrebuilds None (Some true)];
                   store := w |}) as [[Hall _]|[_ Heq]]; [|exact Heq].
    exfalso. specialize (Hex common (ArchiveObjects "$output/libgcom.a") None (Some true)).
    apply Exists_exists in Hex as (s & Hs & Hc). rewrite Forall_forall in Hall.
    simpl in Hall. by rewrite (Hall s Hs) in Hc.
  - destruct (run_prep_steps_cases is_CleanupPrebuilds default
                {| steps := common ++ [LinkSharedObject "$output/libgcom.so";
                                       CleanupPrebuilds (Some 5) None];
                   store := w |}) as [[Hall _]|[_ Heq]]; [|exact Heq].
    exfalso. specialize (Hex common (LinkSharedObject "$output/libgcom.so") (Some 5) None).
    apply Exists_exists in Hex as (s & Hs & Hc). rewrite Forall_forall in Hall.
    simpl in Hall. by rewrite (Hall s Hs) in Hc.
  - rewrite last_app. reflexivity.
  - rewrite last_app. reflexivity.
Qed.

End GcomSteps.
